(** * Logoer: SVG sanitizer and similarity-query pipeline

    A shallow embedding of the core of the logo service:
    - [container/app/admin/sanitizer.py]   (sanitize_svg, validate_svg_structure)
    - [container/app/rag/query_generator.py] (config_to_query, _describe_color)
    - [container/app/rag/chroma_client.py]   (query_by_text, score conversion)
    - [container/app/rag/query_service.py]   (find_similar_logos)

    Python [str] values are modelled as [string]: a sequence of code points
    below 256.  The helpers of [PyStr] follow CPython on that range. *)

From Stdlib Require Import Bool Ascii String List ZArith NArith Lia.
From Stdlib Require Import SpecFloat DecimalString.
Import ListNotations.

Set Implicit Arguments.
Open Scope string_scope.
Open Scope list_scope.
Set Warnings "-register-all".

(* ================================================================== *)
(** ** Python string operations *)
(* ================================================================== *)

Module PyStr.

Definition dq : string := String "034"%char EmptyString.   (* the double quote *)
Definition nl : string := String "010"%char EmptyString.   (* line feed *)

(** [str.isspace] / [\s] / the characters removed by [str.strip()]. *)
Definition isspace (c : ascii) : bool :=
  let n := N_of_ascii c in
  (((9 <=? n) && (n <=? 13)) || ((28 <=? n) && (n <=? 32))
   || (n =? 133) || (n =? 160))%N.

Definition lower_char (c : ascii) : ascii :=
  let n := N_of_ascii c in
  if (((65 <=? n) && (n <=? 90))
      || ((192 <=? n) && (n <=? 222) && negb (n =? 215)))%N
  then ascii_of_N (n + 32) else c.

(** [s.lower()] *)
Fixpoint lower (s : string) : string :=
  match s with
  | EmptyString => EmptyString
  | String c r => String (lower_char c) (lower r)
  end.

Fixpoint lstrip (s : string) : string :=
  match s with
  | String c r => if isspace c then lstrip r else s
  | EmptyString => EmptyString
  end.

Fixpoint rstrip (s : string) : string :=
  match s with
  | EmptyString => EmptyString
  | String c r =>
      match rstrip r with
      | EmptyString => if isspace c then EmptyString else String c EmptyString
      | r' => String c r'
      end
  end.

(** [s.strip()] *)
Definition strip (s : string) : string := rstrip (lstrip s).

(** Truth value of a [str]: non-empty. *)
Definition truthy (s : string) : bool :=
  match s with EmptyString => false | _ => true end.

(** [s.startswith(p)] *)
Fixpoint startswith (p s : string) : bool :=
  match p, s with
  | EmptyString, _ => true
  | String a p', String b s' => Ascii.eqb a b && startswith p' s'
  | String _ _, EmptyString => false
  end.

Fixpoint drop (n : nat) (s : string) : string :=
  match n, s with
  | O, _ => s
  | S n', String _ r => drop n' r
  | S _, EmptyString => EmptyString
  end.

(** [sub in s] *)
Fixpoint contains (sub s : string) : bool :=
  startswith sub s
  || match s with
     | EmptyString => false
     | String _ r => contains sub r
     end.

(** [s.replace(old, new, 1)] *)
Fixpoint replace_first (old new s : string) : string :=
  if startswith old s then String.append new (drop (String.length old) s)
  else match s with
       | EmptyString => EmptyString
       | String c r => String c (replace_first old new r)
       end.

(** [s.split(sep)] for a one-character separator. *)
Fixpoint split (sep : ascii) (s : string) : list string :=
  match s with
  | EmptyString => [EmptyString]
  | String c r =>
      if Ascii.eqb c sep then EmptyString :: split sep r
      else match split sep r with
           | [] => [String c EmptyString]
           | h :: t => String c h :: t
           end
  end.

(** [sep.join(l)] *)
Fixpoint join (sep : string) (l : list string) : string :=
  match l with
  | [] => EmptyString
  | [x] => x
  | x :: r => String.append x (String.append sep (join sep r))
  end.

(** [x in l] for a collection of strings. *)
Definition mem (x : string) (l : list string) : bool :=
  existsb (String.eqb x) l.

(** [d.get(k)] on a dict literal with string keys. *)
Fixpoint dict_get (k : string) (d : list (string * string)) : option string :=
  match d with
  | [] => None
  | (k', v) :: r => if String.eqb k k' then Some v else dict_get k r
  end.

End PyStr.

Infix "+++" := String.append (at level 60, right associativity).

(* ================================================================== *)
(** ** Python numbers: [int(s, 16)] and binary64 floats *)
(* ================================================================== *)

Module PyNum.

(** Whitespace skipped by [int()]: ASCII white space, and the code points
    above 127 that [str.isspace] accepts (CPython rewrites those to a
    blank before parsing). *)
Definition int_space (c : ascii) : bool :=
  let n := N_of_ascii c in
  (((9 <=? n) && (n <=? 13)) || (n =? 32) || (n =? 133) || (n =? 160))%N.

Definition hexval (c : ascii) : option Z :=
  let n := Z.of_N (N_of_ascii c) in
  if ((48 <=? n) && (n <=? 57))%Z then Some (n - 48)%Z
  else if ((97 <=? n) && (n <=? 102))%Z then Some (n - 87)%Z
  else if ((65 <=? n) && (n <=? 70))%Z then Some (n - 55)%Z
  else None.

Fixpoint skip_space (s : string) : string :=
  match s with
  | String c r => if int_space c then skip_space r else s
  | EmptyString => EmptyString
  end.

(** Digits of the literal, single underscores allowed between digits. *)
Fixpoint digits (acc : Z) (seen prev_us : bool) (s : string)
  : option (Z * string) :=
  match s with
  | String c r =>
      if Ascii.eqb c "_"%char then
        if prev_us then None else digits acc seen true r
      else match hexval c with
           | Some v => digits (acc * 16 + v)%Z true false r
           | None => if prev_us || negb seen then None else Some (acc, s)
           end
  | EmptyString => if prev_us || negb seen then None else Some (acc, s)
  end.

Definition skip_prefix (s : string) : string :=
  match s with
  | String "0" (String x r) =>
      if Ascii.eqb x "x"%char || Ascii.eqb x "X"%char then
        match r with
        | String "_" r' => r'
        | _ => r
        end
      else s
  | _ => s
  end.

(** [int(s, 16)]; [None] stands for [ValueError]. *)
Definition int16 (s : string) : option Z :=
  let s1 := skip_space s in
  let '(neg, s2) :=
    match s1 with
    | String "+" r => (false, r)
    | String "-" r => (true, r)
    | _ => (false, s1)
    end in
  let s3 := skip_prefix s2 in
  match s3 with
  | String "_" _ => None
  | _ =>
      match digits 0 false false s3 with
      | Some (v, rest) =>
          match skip_space rest with
          | EmptyString => Some (if neg then (- v)%Z else v)
          | _ => None
          end
      | None => None
      end
  end.

(** Python [float]: IEEE-754 binary64, round to nearest even. *)
Definition float := spec_float.
Definition prec : Z := 53.
Definition emax : Z := 1024.

Definition of_int (n : Z) : float := binary_normalize prec emax n 0 false.
Definition fadd : float -> float -> float := SFadd prec emax.
Definition fmul : float -> float -> float := SFmul prec emax.
Definition fdiv : float -> float -> float := SFdiv prec emax.
Definition fltb : float -> float -> bool := SFltb.
Definition fleb : float -> float -> bool := SFleb.
Definition feqb : float -> float -> bool := SFeqb.

Definition is_zero (x : float) : bool :=
  match x with S754_zero _ => true | _ => false end.

(** The literals [0.5] and [0.3]. *)
Definition f0_5 : float := S754_finite false 4503599627370496 (-53).
Definition f0_3 : float := S754_finite false 5404319552844595 (-54).

End PyNum.

(* ================================================================== *)
(** ** rag/query_generator.py *)
(* ================================================================== *)

Module QueryGenerator.
Import PyStr PyNum.

Definition THEME_DESCRIPTIONS : list (string * string) :=
  [ ("modern", "clean, contemporary, sleek design with geometric precision");
    ("minimal", "simple, understated, using negative space and clean lines");
    ("bold", "strong, impactful, high contrast with commanding presence");
    ("elegant", "sophisticated, refined, graceful with premium feel");
    ("playful", "fun, energetic, vibrant with friendly personality");
    ("tech", "digital, futuristic, innovative with technical aesthetic");
    ("vintage", "retro, classic, nostalgic with timeless appeal");
    ("organic", "natural, flowing, earthy with organic curves") ]%string.

Definition TYPE_DESCRIPTIONS : list (string * string) :=
  [ ("wordmark", "text-based logo featuring the brand name in stylized typography");
    ("lettermark", "monogram or initials-based logo using abbreviated letters");
    ("pictorial", "icon or symbol-based logo representing the brand visually");
    ("abstract", "geometric or abstract shape logo with symbolic meaning");
    ("mascot", "character or mascot-based logo with personality");
    ("combination", "combined text and symbol logo with integrated elements");
    ("emblem", "badge or seal-style logo with enclosed design") ]%string.

Definition SHAPE_DESCRIPTIONS : list (string * string) :=
  [ ("circle", "circular, rounded, enclosed in a perfect circle");
    ("hexagon", "hexagonal, six-sided geometric shape");
    ("triangle", "triangular, three-pointed geometric form");
    ("diamond", "diamond-shaped, rotated square form");
    ("star", "star-shaped, pointed radiating design");
    ("shield", "shield-shaped, protective badge form") ]%string.

Definition color_names : list (string * string) :=
  [ ("#000000", "black"); ("#ffffff", "white"); ("#ff0000", "red");
    ("#00ff00", "green"); ("#0000ff", "blue"); ("#ffff00", "yellow");
    ("#ff00ff", "magenta"); ("#00ffff", "cyan"); ("#0f172a", "dark navy");
    ("#3b82f6", "bright blue"); ("#10b981", "emerald green");
    ("#f59e0b", "amber orange"); ("#ef4444", "red"); ("#8b5cf6", "purple");
    ("#ec4899", "pink"); ("#6b7280", "gray") ]%string.

(** [int > float] *)
Definition int_gt_float (n : Z) (x : float) : bool := fltb x (of_int n).

(** The hue branch of [_hex_to_description]. *)
Definition hue_of (r g b : Z) : string :=
  (if (g <=? r) && (b <=? r) then
     if b <? g then
       if int_gt_float g (fmul (of_int r) f0_5) then "orange" else "red"
     else
       if int_gt_float b (fmul (of_int r) f0_3) then "pink" else "red"
   else if (r <=? g) && (b <=? g) then
     if b <? r then
       if int_gt_float r (fmul (of_int g) f0_5) then "yellow-green" else "green"
     else
       if int_gt_float b (fmul (of_int g) f0_3) then "teal" else "green"
   else
     if g <? r then
       if int_gt_float r (fmul (of_int b) f0_3) then "purple" else "blue"
     else
       if int_gt_float g (fmul (of_int b) f0_3) then "cyan" else "blue")%Z%string.

Definition brightness_of (r g b : Z) : float :=
  fdiv (of_int (r * 299 + g * 587 + b * 114)) (of_int 1000).

Definition brightness_term_of (brightness : float) : string :=
  (if fltb brightness (of_int 85) then "dark"
   else if fltb (of_int 170) brightness then "light"
   else EmptyString)%string.

(** The body of [_hex_to_description] once the three channels are decoded. *)
Definition describe_rgb (r g b : Z) : string :=
  let brightness := brightness_of r g b in
  let brightness_term := brightness_term_of brightness in
  let max_val := Z.max (Z.max r g) b in
  if (max_val =? 0)%Z then "black"%string
  else if (r =? g)%Z && (g =? b)%Z then
    if truthy brightness_term then strip (brightness_term +++ " gray")
    else "gray"%string
  else strip (brightness_term +++ " " +++ hue_of r g b).

(** [_hex_to_description]: a [ValueError] of [int(.., 16)] is caught and
    the argument returned. *)
Definition _hex_to_description (hex_color : string) : string :=
  match int16 (substring 1 2 hex_color),
        int16 (substring 3 2 hex_color),
        int16 (substring 5 2 hex_color) with
  | Some r, Some g, Some b => describe_rgb r g b
  | _, _, _ => hex_color
  end.

Definition _describe_color (color : string) : string :=
  let color_lower := lower color in
  match dict_get color_lower color_names with
  | Some name => name
  | None =>
      if startswith "#" color && (String.length color =? 7)%nat
      then _hex_to_description color
      else color
  end.

(** Truth value and content of an [Optional[str]] argument. *)
Definition is_set (o : option string) : bool :=
  match o with Some s => truthy s | None => false end.

Definition val (o : option string) : string :=
  match o with Some s => s | None => EmptyString end.

(** [o in keys] where [o] may be [None]. *)
Definition opt_in (o : option string) (keys : list string) : bool :=
  match o with Some s => mem s keys | None => false end.

Definition in_dict (o : option string) (d : list (string * string)) : bool :=
  match o with
  | Some s => match dict_get s d with Some _ => true | None => false end
  | None => false
  end.

(** [d[o]], used only under [in_dict o d]. *)
Definition dict_at (o : option string) (d : list (string * string)) : string :=
  match o with
  | Some s => match dict_get s d with Some v => v | None => EmptyString end
  | None => EmptyString
  end.

(** [config_to_query]: [parts] and [colors] are the two lists the function
    appends to, threaded through the statements in source order. *)
Definition config_to_query
    (logo_type theme shape primary_color accent_color text
     description industry : option string) : string :=
  let parts : list string := [] in
  let parts :=
    if is_set description then parts ++ [val description] else parts in
  let parts :=
    if is_set logo_type && in_dict logo_type TYPE_DESCRIPTIONS
    then parts ++ [dict_at logo_type TYPE_DESCRIPTIONS]
    else if is_set logo_type
         then parts ++ [val logo_type +++ " style logo"] else parts in
  let parts :=
    if is_set theme && in_dict theme THEME_DESCRIPTIONS
    then parts ++ [dict_at theme THEME_DESCRIPTIONS]
    else if is_set theme
         then parts ++ [val theme +++ " aesthetic"] else parts in
  let parts :=
    if is_set shape && in_dict shape SHAPE_DESCRIPTIONS
    then parts ++ [dict_at shape SHAPE_DESCRIPTIONS]
    else if is_set shape
         then parts ++ [val shape +++ " shape"] else parts in
  let colors : list string := [] in
  let colors :=
    if is_set primary_color
    then colors ++ ["primary color " +++ _describe_color (val primary_color)]
    else colors in
  let colors :=
    if is_set accent_color
    then colors ++ ["accent color " +++ _describe_color (val accent_color)]
    else colors in
  let parts :=
    match colors with
    | [] => parts
    | _ => parts ++ [join ", " colors]
    end in
  let parts :=
    if is_set text && opt_in logo_type ["wordmark"; "lettermark"; "combination"]%string
    then parts ++ ["featuring text '" +++ val text +++ "'"]
    else parts in
  let parts :=
    if is_set industry
    then parts ++ ["suitable for " +++ val industry +++ " industry"]
    else parts in
  match parts with
  | [] => "professional logo design"%string
  | _ =>
      join " with " (firstn 3 parts)
      +++ (if (3 <? List.length parts)%nat
           then ". " +++ join ". " (skipn 3 parts)
           else EmptyString)
  end.

(** *** The query builder as the specification words it (section 4.3) *)

(** Steps 2-4: table hit, else the value followed by a fixed suffix. *)
Definition spec_facet (table : list (string * string)) (suffix : string)
    (facet : option string) : list string :=
  match facet with
  | Some v =>
      if truthy v then
        [match dict_get v table with
         | Some long => long
         | None => v +++ suffix
         end]
      else []
  | None => []
  end.

Definition spec_color (label : string) (c : option string) : list string :=
  match c with
  | Some v => if truthy v then [label +++ _describe_color v] else []
  | None => []
  end.

(** Steps 1-7, in order. *)
Definition spec_phrases
    (logo_type theme shape primary_color accent_color text
     description industry : option string) : list string :=
  (if is_set description then [val description] else [])
  ++ spec_facet TYPE_DESCRIPTIONS " style logo" logo_type
  ++ spec_facet THEME_DESCRIPTIONS " aesthetic" theme
  ++ spec_facet SHAPE_DESCRIPTIONS " shape" shape
  ++ match spec_color "primary color " primary_color
           ++ spec_color "accent color " accent_color with
     | [] => []
     | cs => [join ", " cs]
     end
  ++ (if is_set text
         && opt_in logo_type ["wordmark"; "lettermark"; "combination"]%string
      then ["featuring text '" +++ val text +++ "'"] else [])
  ++ (if is_set industry
      then ["suitable for " +++ val industry +++ " industry"] else []).

Definition spec_assemble (phrases : list string) : string :=
  match phrases with
  | [] => "professional logo design"%string
  | _ =>
      match skipn 3 phrases with
      | [] => join " with " phrases
      | rest => join " with " (firstn 3 phrases) +++ ". " +++ join ". " rest
      end
  end.

Definition build_query_spec
    (logo_type theme shape primary_color accent_color text
     description industry : option string) : string :=
  spec_assemble
    (spec_phrases logo_type theme shape primary_color accent_color text
       description industry).

End QueryGenerator.

(* ================================================================== *)
(** ** Exceptions *)
(* ================================================================== *)

(** A computation that may raise a Python [Exception]; the payload of
    [Raise] is [str(e)]. *)
Inductive Res (A : Type) : Type :=
| Ret (a : A)
| Raise (msg : string).
Arguments Ret {A} a.
Arguments Raise {A} msg.

Definition bind {A B} (m : Res A) (k : A -> Res B) : Res B :=
  match m with
  | Ret a => k a
  | Raise e => Raise e
  end.

(** [try: body  except Exception as e: handler(str(e))] *)
Definition try_except {A} (body : Res A) (handler : string -> Res A) : Res A :=
  match body with
  | Ret a => Ret a
  | Raise e => handler e
  end.

Notation "x <- m ;; k" := (bind m (fun x => k))
  (at level 61, m at next level, right associativity).

(** [l[i]] *)
Definition index {A} (l : list A) (i : nat) : Res A :=
  match nth_error l i with
  | Some a => Ret a
  | None => Raise "list index out of range"
  end.

(* ================================================================== *)
(** ** rag/types.py, rag/chroma_client.py, rag/query_service.py *)
(* ================================================================== *)

Module Rag.
Import PyStr PyNum QueryGenerator.

Record RAGConfig := {
  api_token : string;
  tenant : string;
  database : string;
  collection_name : string }.

Record LogoMetadata := {
  logo_id : string;
  name : option string;
  description : string;
  logo_type : string;
  theme : option string;
  shape : option string;
  primary_color : option string;
  accent_color : option string;
  text : option string;
  svg_url : option string;
  created_at : option string }.

Record SimilarLogo := {
  sl_id : string;
  sl_score : float;
  sl_metadata : LogoMetadata;
  sl_svg_url : option string }.

(** A metadata dict as the store returns it. *)
Definition meta_map := list (string * string).

(** Building a [LogoMetadata] from the keyword arguments of a metadata
    dict: the three required fields must be there. *)
Definition LogoMetadata_of (m : meta_map) : Res LogoMetadata :=
  match dict_get "logo_id" m, dict_get "description" m, dict_get "logo_type" m with
  | Some i, Some d, Some t =>
      Ret {| logo_id := i; name := dict_get "name" m; description := d;
             logo_type := t; theme := dict_get "theme" m;
             shape := dict_get "shape" m;
             primary_color := dict_get "primary_color" m;
             accent_color := dict_get "accent_color" m;
             text := dict_get "text" m; svg_url := dict_get "svg_url" m;
             created_at := dict_get "created_at" m |}
  | _, _, _ => Raise "validation error for LogoMetadata"
  end.

(** The filter of [generate_filter_from_config]. *)
Inductive where_clause :=
| FieldEq (field value : string)
| And (conditions : list where_clause).

Definition generate_filter_from_config
    (logo_type theme shape : option string) : option where_clause :=
  let conditions : list where_clause := [] in
  let conditions :=
    if is_set logo_type then conditions ++ [FieldEq "logo_type" (val logo_type)]
    else conditions in
  let conditions :=
    if is_set theme then conditions ++ [FieldEq "theme" (val theme)]
    else conditions in
  let conditions :=
    if is_set shape then conditions ++ [FieldEq "shape" (val shape)]
    else conditions in
  match conditions with
  | [] => None
  | [c] => Some c
  | _ => Some (And conditions)
  end.

(** What [collection.query(..., include=["metadatas", "distances"])]
    returns. [None] or an empty list is falsy. *)
Record query_result := {
  ids : list (list string);
  metadatas : option (list (list meta_map));
  distances : option (list (list float)) }.

(** [score = 1 / (1 + distance)] *)
Definition score_of (distance : float) : Res float :=
  let denom := fadd (of_int 1) distance in
  if is_zero denom then Raise "float division by zero"
  else Ret (fdiv (of_int 1) denom).

(** One iteration of the loop over [enumerate(results["ids"][0])]. *)
Definition similar_logo_at (results : query_result) (i : nat) (logo_id : string)
  : Res SimilarLogo :=
  metadata <-
    match metadatas results with
    | Some (row :: _) => index row i
    | _ => Ret []
    end ;;
  distance <-
    match distances results with
    | Some (row :: _) => index row i
    | _ => Ret (of_int 0)
    end ;;
  score <- score_of distance ;;
  md <- LogoMetadata_of metadata ;;
  Ret {| sl_id := logo_id; sl_score := score; sl_metadata := md;
         sl_svg_url := dict_get "svg_url" metadata |}.

Fixpoint similar_logos_from (results : query_result) (i : nat)
    (row : list string) (similar_logos : list SimilarLogo)
  : Res (list SimilarLogo) :=
  match row with
  | [] => Ret similar_logos
  | logo_id :: rest =>
      s <- similar_logo_at results i logo_id ;;
      similar_logos_from results (S i) rest (similar_logos ++ [s])
  end.

(** The part of [query_by_text] after the store call. *)
Definition similar_logos_of (results : query_result) : Res (list SimilarLogo) :=
  match ids results with
  | (_ :: _) as row :: _ => similar_logos_from results 0 row []
  | _ => Ret []
  end.

Record RAGQueryRequest := {
  rq_query : option string;
  rq_logo_type : option string;
  rq_theme : option string;
  rq_shape : option string;
  rq_primary_color : option string;
  rq_accent_color : option string;
  rq_text : option string;
  rq_n_results : Z }.

Record RAGQueryResponse := {
  success : bool;
  results : list SimilarLogo;
  query_used : option string;
  degraded : bool;
  error : option string }.

(** [os.environ] *)
Definition environ := string -> option string.

Definition environ_get (env : environ) (key default : string) : string :=
  match env key with Some v => v | None => default end.

Definition get_rag_config (env : environ) : RAGConfig :=
  {| api_token := environ_get env "CHROMA_API_TOKEN" EmptyString;
     tenant := environ_get env "CHROMA_TENANT" EmptyString;
     database := environ_get env "CHROMA_DATABASE" EmptyString;
     collection_name := environ_get env "CHROMA_COLLECTION" "logos" |}.

Definition is_rag_configured (env : environ) : bool :=
  let config := get_rag_config env in
  truthy (api_token config) && truthy (tenant config)
  && truthy (database config).

Section Store.
(** The vector store, an external collaborator: obtaining the collection
    ([CloudClient] and [get_or_create_collection]) and querying it may
    each raise. *)
Variable collection : Type.
Variable get_collection : RAGConfig -> Res collection.
Variable collection_query :
  collection -> string -> Z -> option where_clause -> Res query_result.

(** [ChromaLogoClient(config).query_by_text(query_text, n_results, where)] *)
Definition query_by_text (config : RAGConfig) (query_text : string)
    (n_results : Z) (where_ : option where_clause)
  : Res (list SimilarLogo) :=
  coll <- get_collection config ;;
  results <- collection_query coll query_text n_results where_ ;;
  similar_logos_of results.

Definition find_similar_logos (env : environ) (request : RAGQueryRequest)
  : Res RAGQueryResponse :=
  if negb (is_rag_configured env) then
    Ret {| success := true; results := []; query_used := None;
           degraded := true;
           error := Some "RAG not configured - ChromaDB credentials missing"%string |}
  else
    try_except
      (let config := get_rag_config env in
       let query_text :=
         if is_set (rq_query request) then val (rq_query request)
         else config_to_query (rq_logo_type request) (rq_theme request)
                (rq_shape request) (rq_primary_color request)
                (rq_accent_color request) (rq_text request) None None in
       let where_filter :=
         generate_filter_from_config (rq_logo_type request)
           (rq_theme request) (rq_shape request) in
       results <- query_by_text config query_text (rq_n_results request)
                    where_filter ;;
       Ret {| success := true; results := results;
              query_used := Some query_text; degraded := false;
              error := None |})
      (fun e =>
         Ret {| success := true; results := []; query_used := None;
                degraded := true;
                error := Some ("RAG query failed: " +++ e) |}).
End Store.

End Rag.

(* ================================================================== *)
(** ** xml.etree.ElementTree: the element tree *)
(* ================================================================== *)

Module ET.
Import PyStr.

(** An [Element]: tag (in [{uri}local] form when namespaced), attribute
    dict in insertion order, text, tail and children. *)
Inductive Element : Type :=
  mkElement {
    tag : string;
    attrib : list (string * string);
    text : option string;
    tail : option string;
    children : list Element }.

(** [element.iter()]: the element and all its descendants, document order. *)
Fixpoint iter (e : Element) : list Element :=
  e :: (fix iter_all (l : list Element) : list Element :=
          match l with
          | [] => []
          | c :: r => iter c ++ iter_all r
          end) (children e).

(** The proper descendants of an element. *)
Definition descendants (e : Element) : list Element := tl (iter e).

(** What [ET.fromstring] does: a tree, or [ET.ParseError]. *)
Inductive ParseResult : Type :=
| Parsed (root : Element)
| ParseError (msg : string).

End ET.

(* ================================================================== *)
(** ** admin/sanitizer.py *)
(* ================================================================== *)

Module Sanitizer.
Import PyStr ET.

Definition ALLOWED_ELEMENTS : list string :=
  [ "svg"; "g"; "path"; "rect"; "circle"; "ellipse"; "line"; "polyline";
    "polygon"; "text"; "tspan"; "defs"; "linearGradient"; "radialGradient";
    "stop"; "clipPath"; "mask"; "use"; "symbol"; "title"; "desc";
    "metadata"; "style"; "font"; "font-face"; "glyph"; "missing-glyph" ]%string.

Definition DANGEROUS_ATTRIBUTES : list string :=
  [ "onload"; "onerror"; "onclick"; "onmouseover"; "onmouseout";
    "onmousedown"; "onmouseup"; "onfocus"; "onblur"; "onkeydown"; "onkeyup";
    "onkeypress"; "onchange"; "onsubmit"; "onreset"; "onselect";
    "onabort" ]%string.

(** The three compiled patterns; each is a literal matched with
    [re.IGNORECASE]. *)
Definition DANGEROUS_PATTERNS : list string :=
  [ "javascript:"; "data:"; "vbscript:" ]%string.

(** [pattern.search(value)] for a literal, case-insensitive pattern. *)
Definition pattern_search (pattern value : string) : bool :=
  contains pattern (lower value).

(** [any(pattern.search(value) for pattern in DANGEROUS_PATTERNS)] *)
Definition matches_dangerous_pattern (value : string) : bool :=
  existsb (fun pattern => pattern_search pattern value) DANGEROUS_PATTERNS.

(** [t.split("}")[-1] if "}" in t else t] *)
Definition strip_namespace (t : string) : string :=
  if contains "}" t then last (split "}" t) EmptyString else t.

(** *** [_sanitize_css] *)

(** The text after the first closing parenthesis. *)
Fixpoint after_close (s : string) : option string :=
  match s with
  | EmptyString => None
  | String c r => if Ascii.eqb c ")" then Some r else after_close r
  end.

(** Length of a match of the expression pattern at the start of [s]: the
    word [expression], white space, an opening parenthesis and everything
    up to the first closing parenthesis. *)
Definition match_expression (s : string) : option nat :=
  if startswith "expression" (lower s) then
    match lstrip (drop 10 s) with
    | String "(" r =>
        match after_close r with
        | Some rest => Some (String.length s - String.length rest)
        | None => None
        end
    | _ => None
    end
  else None.

(** A match of the url pattern at the start of [s]: the word [url], white
    space, an opening parenthesis, white space, group 1 (the longest run
    without a closing parenthesis) and the closing parenthesis.  Gives the
    length of the match and group 1. *)
Definition match_url (s : string) : option (nat * string) :=
  if startswith "url" (lower s) then
    match lstrip (drop 3 s) with
    | String "(" r =>
        let arg := lstrip r in
        match after_close arg with
        | Some rest =>
            Some (String.length s - String.length rest,
                  substring 0 (String.length arg - String.length rest - 1) arg)
        | None => None
        end
    | _ => None
    end
  else None.

(** [re.sub] for a pattern without empty matches: [matcher] gives, at a
    position, the length of the leftmost-first match and its replacement;
    [skip] counts the characters of a match still to be consumed. *)
Fixpoint re_sub (matcher : string -> option (nat * string)) (skip : nat)
    (s : string) : string :=
  match skip with
  | S k =>
      match s with
      | String _ r => re_sub matcher k r
      | EmptyString => EmptyString
      end
  | O =>
      match s with
      | EmptyString => EmptyString
      | String c r =>
          match matcher s with
          | Some (S k, replacement) => replacement +++ re_sub matcher k r
          | _ => String c (re_sub matcher 0 r)
          end
      end
  end.

Definition sanitize_url (s : string) (m : nat * string) : nat * string :=
  let '(len, url) := m in
  if matches_dangerous_pattern url then (len, EmptyString)
  else (len, substring 0 len s).

Definition _sanitize_css (css : string) : string :=
  let sanitized := css in
  let sanitized :=
    re_sub (fun s => option_map (fun n => (n, EmptyString)) (match_expression s))
      0 sanitized in
  let sanitized :=
    re_sub (fun s => option_map (sanitize_url s) (match_url s)) 0 sanitized in
  sanitized.

(** *** [_sanitize_element] *)

(** The test of the first loop: the child is kept. *)
Definition allowed (child : Element) : bool :=
  mem (lower (strip_namespace (tag child))) ALLOWED_ELEMENTS.

(** The test of the second loop: the attribute is put on
    [attrs_to_remove]. *)
Definition dangerous_attr (attr value : string) : bool :=
  let attr_name := strip_namespace attr in
  if mem (lower attr_name) DANGEROUS_ATTRIBUTES then true
  else matches_dangerous_pattern value.

(** [del element.attrib[attr]] for every [attr] of [attrs_to_remove]. *)
Definition del_all (attrs_to_remove : list string)
    (attrib : list (string * string)) : list (string * string) :=
  filter (fun kv => negb (mem (fst kv) attrs_to_remove)) attrib.

(** The in-place update of the tree, as the value the element has when
    the call returns. *)
Fixpoint _sanitize_element (element : Element) : Element :=
  let tag_ := strip_namespace (tag element) in
  let kept :=
    (fix visit (l : list Element) : list Element :=
       match l with
       | [] => []
       | child :: rest =>
           if negb (allowed child) then visit rest
           else _sanitize_element child :: visit rest
       end) (children element) in
  let attrs_to_remove :=
    map fst (filter (fun kv => dangerous_attr (fst kv) (snd kv))
               (attrib element)) in
  let attrib' := del_all attrs_to_remove (attrib element) in
  let text' :=
    match text element with
    | Some t =>
        if String.eqb (lower tag_) "style" && truthy t
        then Some (_sanitize_css t) else Some t
    | None => None
    end in
  {| tag := tag element; attrib := attrib'; text := text';
     tail := tail element; children := kept |}.

Definition SVG_XMLNS : string :=
  "xmlns=" +++ dq +++ "http://www.w3.org/2000/svg" +++ dq.

Definition _normalize_namespaces (content : string) : string :=
  if negb (contains SVG_XMLNS content)
  then replace_first "<svg" ("<svg " +++ SVG_XMLNS) content
  else content.

Definition XML_DECLARATION : string :=
  "<?xml version=" +++ dq +++ "1.0" +++ dq +++ " encoding=" +++ dq
  +++ "UTF-8" +++ dq +++ "?>" +++ nl.

(** The outcome of [sanitize_svg]: the sanitized text, or the
    [SVGSanitizationError] it raises. *)
Inductive SanitizeResult : Type :=
| Sanitized (result : string)
| SVGSanitizationError (msg : string).

Record Validation := {
  valid : bool;
  has_viewbox : bool;
  has_dimensions : bool;
  element_count : nat;
  errors : list string }.

Definition has_key (k : string) (d : list (string * string)) : bool :=
  mem k (map fst d).

Section Codec.
(** [ET.fromstring] and [ET.tostring(_, encoding="unicode")]. *)
Variable fromstring : string -> ParseResult.
Variable tostring : Element -> string.

Definition sanitize_svg (svg_content : string) : SanitizeResult :=
  if negb (truthy svg_content) || negb (truthy (strip svg_content)) then
    SVGSanitizationError "Empty SVG content"
  else
    let content := strip svg_content in
    if negb (startswith "<svg" content) && negb (startswith "<?xml" content)
    then SVGSanitizationError "Content does not appear to be SVG"
    else
      let content := _normalize_namespaces content in
      match fromstring content with
      | ParseError e => SVGSanitizationError ("Failed to parse SVG: " +++ e)
      | Parsed root =>
          let root := _sanitize_element root in
          let result := tostring root in
          let result :=
            if startswith "<?xml" (strip svg_content)
            then XML_DECLARATION +++ result else result in
          Sanitized result
      end.

Definition validate_svg_structure (svg_content : string) : Validation :=
  let result :=
    {| valid := false; has_viewbox := false; has_dimensions := false;
       element_count := 0; errors := [] |} in
  match fromstring svg_content with
  | ParseError e =>
      {| valid := valid result; has_viewbox := has_viewbox result;
         has_dimensions := has_dimensions result;
         element_count := element_count result;
         errors := errors result ++ ["Parse error: " +++ e] |}
  | Parsed root =>
      let tag_ := strip_namespace (tag root) in
      if negb (String.eqb (lower tag_) "svg") then
        {| valid := valid result; has_viewbox := has_viewbox result;
           has_dimensions := has_dimensions result;
           element_count := element_count result;
           errors := errors result ++ ["Root element is not <svg>"] |}
      else
        {| valid := true;
           has_viewbox := has_key "viewBox" (attrib root);
           has_dimensions :=
             has_key "width" (attrib root) && has_key "height" (attrib root);
           element_count := List.length (iter root);
           errors := errors result |}
  end.
End Codec.

End Sanitizer.

(* ================================================================== *)
(** ** xml.etree.ElementTree: serializer and parser *)
(* ================================================================== *)

(** A model of [ET.tostring(_, encoding="unicode")] and of [ET.fromstring]
    on [str] input.  The serializer follows [_namespaces] and
    [_serialize_xml].  The parser covers documents made of an optional XML
    declaration, elements, attributes, character data, CDATA sections,
    comments, processing instructions, the predefined entities and
    character references below 256, with namespace processing; a document
    type declaration is not covered and is reported as a parse error. *)
Module ETCodec.
Import PyStr ET.

(** *** Serializer *)

Definition _namespace_map : list (string * string) :=
  [ ("http://www.w3.org/XML/1998/namespace", "xml");
    ("http://www.w3.org/1999/xhtml", "html");
    ("http://www.w3.org/1999/02/22-rdf-syntax-ns#", "rdf");
    ("http://schemas.xmlsoap.org/wsdl/", "wsdl");
    ("http://www.w3.org/2001/XMLSchema", "xs");
    ("http://www.w3.org/2001/XMLSchema-instance", "xsi");
    ("http://purl.org/dc/elements/1.1/", "dc") ].

(** [s.rsplit("}", 1)] on a string that contains the separator. *)
Definition rsplit_brace (s : string) : string * string :=
  let pieces := split "}" s in
  (join "}" (removelast pieces), last pieces EmptyString).

Definition decimal (n : nat) : string :=
  DecimalString.NilEmpty.string_of_uint (Nat.to_uint n).

(** The two dicts built by [_namespaces]. *)
Record tables := {
  qnames : list (string * string);
  namespaces : list (string * string) }.

Definition add_qname (t : tables) (qname : string) : tables :=
  match dict_get qname (qnames t) with
  | Some _ => t
  | None =>
      if startswith "{" qname then
        let '(uri, local) := rsplit_brace (drop 1 qname) in
        match dict_get uri (namespaces t) with
        | Some prefix =>
            {| qnames := qnames t ++ [(qname, prefix +++ ":" +++ local)];
               namespaces := namespaces t |}
        | None =>
            let prefix :=
              match dict_get uri _namespace_map with
              | Some p => p
              | None => "ns" +++ decimal (List.length (namespaces t))
              end in
            {| qnames := qnames t ++ [(qname, prefix +++ ":" +++ local)];
               namespaces :=
                 if String.eqb prefix "xml" then namespaces t
                 else namespaces t ++ [(uri, prefix)] |}
        end
      else
        {| qnames := qnames t ++ [(qname, qname)];
           namespaces := namespaces t |}
  end.

Definition _namespaces (root : Element) : tables :=
  fold_left
    (fun t elem => fold_left add_qname (map fst (attrib elem))
                     (add_qname t (tag elem)))
    (iter root) {| qnames := []; namespaces := [] |}.

Fixpoint replace_char (c : ascii) (by_ : string) (s : string) : string :=
  match s with
  | EmptyString => EmptyString
  | String a r =>
      if Ascii.eqb a c then by_ +++ replace_char c by_ r
      else String a (replace_char c by_ r)
  end.

Definition _escape_cdata (text : string) : string :=
  replace_char ">" "&gt;" (replace_char "<" "&lt;" (replace_char "&" "&amp;" text)).

Definition _escape_attrib (text : string) : string :=
  replace_char "009" "&#09;"
    (replace_char "010" "&#10;"
       (replace_char "013" "&#13;"
          (replace_char "034" "&quot;" (_escape_cdata text)))).

(** [sorted(namespaces.items(), key=lambda x: x[1])] *)
Fixpoint insert_by_prefix (x : string * string) (l : list (string * string))
  : list (string * string) :=
  match l with
  | [] => [x]
  | y :: r =>
      if String.ltb (snd x) (snd y) then x :: l
      else y :: insert_by_prefix x r
  end.

Definition sorted_by_prefix (l : list (string * string))
  : list (string * string) :=
  fold_left (fun acc x => insert_by_prefix x acc) l [].

Definition qname_of (qn : list (string * string)) (k : string) : string :=
  match dict_get k qn with Some q => q | None => k end.

Definition xmlns_declarations (ns : list (string * string)) : string :=
  fold_left
    (fun out vk =>
       out +++ " xmlns" +++ (if truthy (snd vk) then ":" +++ snd vk else EmptyString)
           +++ "=" +++ dq +++ _escape_attrib (fst vk) +++ dq)
    (sorted_by_prefix ns) EmptyString.

Definition attributes (qn : list (string * string))
    (items : list (string * string)) : string :=
  fold_left
    (fun out kv =>
       out +++ " " +++ qname_of qn (fst kv) +++ "=" +++ dq
           +++ _escape_attrib (snd kv) +++ dq)
    items EmptyString.

Definition text_truthy (o : option string) : bool :=
  match o with Some s => truthy s | None => false end.

Definition opt_cdata (o : option string) : string :=
  match o with
  | Some s => if truthy s then _escape_cdata s else EmptyString
  | None => EmptyString
  end.

(** [_serialize_xml]; [ns] is the namespace table on the root and empty
    below it. *)
Fixpoint _serialize_xml (qn ns : list (string * string)) (elem : Element)
  : string :=
  let tag_ := qname_of qn (tag elem) in
  let body :=
    (fix all (l : list Element) : string :=
       match l with
       | [] => EmptyString
       | e :: r => _serialize_xml qn [] e +++ all r
       end) (children elem) in
  "<" +++ tag_ +++ xmlns_declarations ns +++ attributes qn (attrib elem)
  +++ (if text_truthy (text elem)
          || negb (Nat.eqb (List.length (children elem)) 0)
       then ">" +++ opt_cdata (text elem) +++ body +++ "</" +++ tag_ +++ ">"
       else " />")
  +++ opt_cdata (tail elem).

Definition tostring (element : Element) : string :=
  let t := _namespaces element in
  _serialize_xml (qnames t) (namespaces t) element.

(** *** Parser *)

Notation "' p <- m ;; k" :=
  (match m with Some p => k | None => None end)
  (at level 61, p pattern, m at next level, right associativity).

Definition code (c : ascii) : N := N_of_ascii c.

Definition xml_space (c : ascii) : bool :=
  let n := code c in ((n =? 32) || (n =? 9) || (n =? 10) || (n =? 13))%N.

Definition xml_char (c : ascii) : bool :=
  let n := code c in ((32 <=? n) || (n =? 9) || (n =? 10) || (n =? 13))%N.

Definition name_start (c : ascii) : bool :=
  let n := code c in
  (((65 <=? n) && (n <=? 90)) || ((97 <=? n) && (n <=? 122))
   || (n =? 95) || (n =? 58)
   || ((192 <=? n) && (n <=? 214)) || ((216 <=? n) && (n <=? 246))
   || (248 <=? n))%N.

Definition name_char (c : ascii) : bool :=
  let n := code c in
  (name_start c || ((48 <=? n) && (n <=? 57)) || (n =? 45) || (n =? 46)
   || (n =? 183))%N.

Fixpoint take_while (p : ascii -> bool) (s : string) : string * string :=
  match s with
  | String c r =>
      if p c then let '(a, b) := take_while p r in (String c a, b)
      else (EmptyString, s)
  | EmptyString => (EmptyString, EmptyString)
  end.

Definition skip_spaces (s : string) : string := snd (take_while xml_space s).

Definition take_name (s : string) : option (string * string) :=
  match s with
  | String c _ =>
      if name_start c then Some (take_while name_char s) else None
  | EmptyString => None
  end.

(** The text up to the first occurrence of [stop], and what follows it. *)
Fixpoint until (stop : string) (s : string) : option (string * string) :=
  if startswith stop s then Some (EmptyString, drop (String.length stop) s)
  else match s with
       | EmptyString => None
       | String c r => ' (a, b) <- until stop r ;; Some (String c a, b)
       end.

Definition digit_value (base : N) (c : ascii) : option N :=
  let n := code c in
  if ((48 <=? n) && (n <=? 57))%N then Some (n - 48)%N
  else if (base =? 16)%N && ((97 <=? n) && (n <=? 102))%N then Some (n - 87)%N
  else if (base =? 16)%N && ((65 <=? n) && (n <=? 70))%N then Some (n - 55)%N
  else None.

Fixpoint number (base : N) (acc : N) (s : string) : option N :=
  match s with
  | EmptyString => Some acc
  | String c r =>
      ' v <- digit_value base c ;; number base (acc * base + v)%N r
  end.

Definition char_of_code (n : N) : option string :=
  if (n <? 256)%N && xml_char (ascii_of_N n)
  then Some (String (ascii_of_N n) EmptyString) else None.

(** A reference, the ampersand already consumed. *)
Definition reference (s : string) : option (string * string) :=
  ' (body, rest) <- until ";" s ;;
  match body with
  | String "#" (String "x" ((String _ _) as ds)) =>
      ' n <- number 16 0 ds ;; ' c <- char_of_code n ;; Some (c, rest)
  | String "#" ((String _ _) as ds) =>
      ' n <- number 10 0 ds ;; ' c <- char_of_code n ;; Some (c, rest)
  | _ =>
      if String.eqb body "lt" then Some ("<", rest)
      else if String.eqb body "gt" then Some (">", rest)
      else if String.eqb body "amp" then Some ("&", rest)
      else if String.eqb body "quot" then Some (dq, rest)
      else if String.eqb body "apos" then Some ("'", rest)
      else None
  end.

(** An attribute value up to the closing quote [q]; literal white space
    is normalized to blanks. *)
Fixpoint attr_value (fuel : nat) (q : ascii) (s : string)
  : option (string * string) :=
  match fuel, s with
  | S f, String c r =>
      if Ascii.eqb c q then Some (EmptyString, r)
      else if Ascii.eqb c "<" then None
      else if Ascii.eqb c "&" then
        ' (rep, r1) <- reference r ;;
        ' (v, r2) <- attr_value f q r1 ;; Some (rep +++ v, r2)
      else if Ascii.eqb c "013" then
        let r1 := match r with String "010" r' => r' | _ => r end in
        ' (v, r2) <- attr_value f q r1 ;; Some (String " " v, r2)
      else if xml_space c then
        ' (v, r2) <- attr_value f q r ;; Some (String " " v, r2)
      else if xml_char c then
        ' (v, r2) <- attr_value f q r ;; Some (String c v, r2)
      else None
  | _, _ => None
  end.

(** Character data up to the next markup; line ends are normalized. *)
Fixpoint char_data (fuel : nat) (s : string) : option (string * string) :=
  match fuel, s with
  | _, EmptyString => Some (EmptyString, EmptyString)
  | S f, String c r =>
      if Ascii.eqb c "<" then Some (EmptyString, s)
      else if Ascii.eqb c "&" then
        ' (rep, r1) <- reference r ;;
        ' (v, r2) <- char_data f r1 ;; Some (rep +++ v, r2)
      else if startswith "]]>" s then None
      else if Ascii.eqb c "013" then
        let r1 := match r with String "010" r' => r' | _ => r end in
        ' (v, r2) <- char_data f r1 ;; Some (String "010" v, r2)
      else if xml_char c then
        ' (v, r2) <- char_data f r ;; Some (String c v, r2)
      else None
  | O, _ => None
  end.

(** The content of a CDATA section. *)
Fixpoint cdata_text (s : string) : option string :=
  match s with
  | EmptyString => Some EmptyString
  | String c r =>
      if Ascii.eqb c "013" then
        match r with
        | String "010" r' => ' v <- cdata_text r' ;; Some (String "010" v)
        | _ => ' v <- cdata_text r ;; Some (String "010" v)
        end
      else if xml_char c then ' v <- cdata_text r ;; Some (String c v)
      else None
  end.

Definition all_chars (p : ascii -> bool) (s : string) : bool :=
  match snd (take_while p s) with EmptyString => true | _ => false end.

(** The attributes of a start tag and its end: [true] for [/>]. *)
Fixpoint attributes_of (fuel : nat) (s : string)
    (acc : list (string * string))
  : option (list (string * string) * bool * string) :=
  match fuel with
  | O => None
  | S f =>
      let '(ws, r) := take_while xml_space s in
      if startswith ">" r then Some (acc, false, drop 1 r)
      else if startswith "/>" r then Some (acc, true, drop 2 r)
      else if negb (truthy ws) then None
      else
        ' (name, r1) <- take_name r ;;
        match skip_spaces r1 with
        | String "=" r2 =>
            match skip_spaces r2 with
            | String q r3 =>
                if Ascii.eqb q "034" || Ascii.eqb q "'" then
                  ' (v, r4) <- attr_value (S (String.length r3)) q r3 ;;
                  if mem name (map fst acc) then None
                  else attributes_of f r4 (acc ++ [(name, v)])
                else None
            | EmptyString => None
            end
        | _ => None
        end
  end.

Inductive event : Type :=
| EStart (name : string) (attrs : list (string * string))
| EEnd (name : string)
| EData (blank : bool) (data : string).

(** The XML declaration, [<?xml] already consumed: a version, then an
    optional encoding and standalone declaration. *)
Definition ascii_alnum (c : ascii) : bool :=
  let n := code c in
  (((48 <=? n) && (n <=? 57)) || ((65 <=? n) && (n <=? 90))
   || ((97 <=? n) && (n <=? 122)))%N.

(** Characters of the value of a pseudo-attribute of the declaration. *)
Definition pseudo_char (c : ascii) : bool :=
  let n := code c in
  (ascii_alnum c || (n =? 95) || (n =? 46) || (n =? 45))%N.

Fixpoint pseudo_attributes (fuel : nat) (s : string)
    (acc : list (string * string)) : option (list (string * string)) :=
  match fuel with
  | O => None
  | S f =>
      let '(ws, r) := take_while xml_space s in
      if negb (truthy r) then Some acc
      else if negb (truthy ws) then None
      else
        let '(name, r1) :=
          take_while (fun c => negb (xml_space c || Ascii.eqb c "=")) r in
        match skip_spaces r1 with
        | String "=" r2 =>
            match skip_spaces r2 with
            | String q r3 =>
                if Ascii.eqb q "034" || Ascii.eqb q "'" then
                  let '(v, r4) := take_while pseudo_char r3 in
                  match r4 with
                  | String q' r5 =>
                      if Ascii.eqb q q'
                      then pseudo_attributes f r5 (acc ++ [(name, v)])
                      else None
                  | EmptyString => None
                  end
                else None
            | EmptyString => None
            end
        | _ => None
        end
  end.

Definition encoding_name (v : string) : bool :=
  match v with
  | String c r => ascii_alnum c && negb ((48 <=? code c) && (code c <=? 57))%N
  | EmptyString => false
  end.

Definition standalone_value (v : string) : bool :=
  String.eqb v "yes" || String.eqb v "no".

(** The XML declaration, [<?xml] already consumed: a version, then an
    optional encoding and standalone declaration. *)
Definition xml_declaration (s : string) : option string :=
  ' (body, rest) <- until "?>" s ;;
  ' attrs <- pseudo_attributes (S (String.length body)) body [] ;;
  match attrs with
  | ("version", v) :: more =>
      if match more with
         | [] => true
         | [("encoding", e)] => encoding_name e
         | [("standalone", a)] => standalone_value a
         | [("encoding", e); ("standalone", a)] =>
             encoding_name e && standalone_value a
         | _ => false
         end
      then Some rest else None
  | _ => None
  end.

Definition processing_instruction (s : string) : option string :=
  ' (target, r) <- take_name s ;;
  if String.eqb (lower target) "xml" || contains ":" target then None
  else if startswith "?>" r then Some (drop 2 r)
  else match r with
       | String c _ =>
           if xml_space c then
             ' (body, rest) <- until "?>" r ;;
             if all_chars xml_char body then Some rest else None
           else None
       | EmptyString => None
       end.

Definition comment (s : string) : option string :=
  ' (body, rest) <- until "--" s ;;
  if all_chars xml_char body && startswith ">" rest
  then Some (drop 1 rest) else None.

(** The markup and character data of a document, in order. *)
Fixpoint tokenize (fuel : nat) (s : string) : option (list event) :=
  match fuel with
  | O => None
  | S f =>
      match s with
      | EmptyString => Some []
      | String "<" r =>
          if startswith "?" r then
            ' rest <- processing_instruction (drop 1 r) ;; tokenize f rest
          else if startswith "!--" r then
            ' rest <- comment (drop 3 r) ;; tokenize f rest
          else if startswith "![CDATA[" r then
            ' (body, rest) <- until "]]>" (drop 8 r) ;;
            ' d <- cdata_text body ;;
            ' evs <- tokenize f rest ;; Some (EData false d :: evs)
          else if startswith "/" r then
            ' (name, r1) <- take_name (drop 1 r) ;;
            match skip_spaces r1 with
            | String ">" rest =>
                ' evs <- tokenize f rest ;; Some (EEnd name :: evs)
            | _ => None
            end
          else
            ' (name, r1) <- take_name r ;;
            ' (attrs, closed, rest) <- attributes_of (S (String.length r1)) r1 [] ;;
            ' evs <- tokenize f rest ;;
            Some (EStart name attrs
                    :: (if closed then EEnd name :: evs else evs))
      | _ =>
          ' (d, rest) <- char_data (S (String.length s)) s ;;
          let raw := String.length s - String.length rest in
          ' evs <- tokenize f rest ;;
          Some (EData (all_chars xml_space (substring 0 raw s)) d :: evs)
      end
  end.

(** **** Namespace processing *)

Definition XML_NS : string := "http://www.w3.org/XML/1998/namespace".

Definition lookup_prefix (p : string) (env : list (string * string))
  : option string :=
  match dict_get p env with
  | Some uri => if truthy uri then Some uri else None
  | None => None
  end.

Definition valid_local (l : string) : bool :=
  match l with
  | String c _ => name_start c
  | EmptyString => false
  end.

(** Bindings declared by the [xmlns] attributes of a start tag, added in
    front of the enclosing ones. *)
Definition XMLNS_NS : string := "http://www.w3.org/2000/xmlns/".

Definition reserved_uri (v : string) : bool :=
  String.eqb v XML_NS || String.eqb v XMLNS_NS.

Fixpoint declare (attrs : list (string * string)) (env : list (string * string))
  : option (list (string * string)) :=
  match attrs with
  | [] => Some env
  | (k, v) :: r =>
      if String.eqb k "xmlns" then
        if reserved_uri v then None else declare r (("", v) :: env)
      else if startswith "xmlns:" k then
        let p := drop 6 k in
        if String.eqb p "xml" then
          if String.eqb v XML_NS then declare r env else None
        else if valid_local p && negb (contains ":" p) && truthy v
                && negb (String.eqb p "xmlns") && negb (reserved_uri v)
        then declare r ((p, v) :: env) else None
      else declare r env
  end.

Definition expand (is_attr : bool) (env : list (string * string))
    (name : string) : option string :=
  match split ":" name with
  | [l] =>
      if is_attr then Some l
      else match lookup_prefix "" env with
           | Some uri => Some ("{" +++ uri +++ "}" +++ l)
           | None => Some l
           end
  | [p; l] =>
      if valid_local p && valid_local l then
        ' uri <- lookup_prefix p env ;; Some ("{" +++ uri +++ "}" +++ l)
      else None
  | _ => None
  end.

Fixpoint expand_attrs (env : list (string * string))
    (attrs acc : list (string * string)) : option (list (string * string)) :=
  match attrs with
  | [] => Some acc
  | (k, v) :: r =>
      if String.eqb k "xmlns" || startswith "xmlns:" k then expand_attrs env r acc
      else
        ' k' <- expand true env k ;;
        if mem k' (map fst acc) then None
        else expand_attrs env r (acc ++ [(k', v)])
  end.

(** **** TreeBuilder *)

Record frame := {
  f_name : string;
  f_env : list (string * string);
  f_elem : Element }.

Record builder := {
  stack : list frame;
  data : string;
  tail_mode : bool;
  root : option Element }.

Definition set_text (e : Element) (t : string) : Element :=
  {| tag := tag e; attrib := attrib e; text := Some t; tail := tail e;
     children := children e |}.

Definition set_tail (e : Element) (t : string) : Element :=
  {| tag := tag e; attrib := attrib e; text := text e; tail := Some t;
     children := children e |}.

Definition append_child (e c : Element) : Element :=
  {| tag := tag e; attrib := attrib e; text := text e; tail := tail e;
     children := children e ++ [c] |}.

Definition set_last_tail (e : Element) (t : string) : Element :=
  {| tag := tag e; attrib := attrib e; text := text e; tail := tail e;
     children :=
       match rev (children e) with
       | c :: before => rev before ++ [set_tail c t]
       | [] => []
       end |}.

Definition on_top (f : Element -> Element) (st : list frame) : list frame :=
  match st with
  | fr :: below =>
      {| f_name := f_name fr; f_env := f_env fr; f_elem := f (f_elem fr) |}
        :: below
  | [] => []
  end.

(** [TreeBuilder._flush] *)
Definition flush (b : builder) : builder :=
  if truthy (data b) then
    {| stack :=
         on_top (fun e => if tail_mode b then set_last_tail e (data b)
                          else set_text e (data b)) (stack b);
       data := EmptyString; tail_mode := tail_mode b; root := root b |}
  else b.

Definition step (b : builder) (ev : event) : option builder :=
  match ev with
  | EData blank d =>
      match stack b with
      | [] => if blank then Some b else None
      | _ =>
          Some {| stack := stack b; data := data b +++ d;
                  tail_mode := tail_mode b; root := root b |}
      end
  | EStart name attrs =>
      let b := flush b in
      match stack b, root b with
      | [], Some _ => None
      | _, _ =>
          let outer :=
            match stack b with
            | fr :: _ => f_env fr
            | [] => [("xml", XML_NS)]
            end in
          ' env <- declare attrs outer ;;
          ' t <- expand false env name ;;
          ' a <- expand_attrs env attrs [] ;;
          Some {| stack :=
                    {| f_name := name; f_env := env;
                       f_elem := mkElement t a None None [] |} :: stack b;
                  data := EmptyString; tail_mode := false; root := root b |}
      end
  | EEnd name =>
      let b := flush b in
      match stack b with
      | fr :: below =>
          if String.eqb (f_name fr) name then
            match below with
            | [] =>
                Some {| stack := []; data := EmptyString; tail_mode := true;
                        root := Some (f_elem fr) |}
            | _ =>
                Some {| stack := on_top (fun e => append_child e (f_elem fr)) below;
                        data := EmptyString; tail_mode := true;
                        root := root b |}
            end
          else None
      | [] => None
      end
  end.

Fixpoint run (b : builder) (evs : list event) : option builder :=
  match evs with
  | [] => Some b
  | ev :: r => ' b' <- step b ev ;; run b' r
  end.

Definition parse (s : string) : option Element :=
  ' body <-
    (if startswith "<?xml" s
        && match drop 5 s with String c _ => xml_space c | _ => false end
     then xml_declaration (drop 5 s) else Some s) ;;
  ' evs <- tokenize (S (String.length body)) body ;;
  ' b <- run {| stack := []; data := EmptyString; tail_mode := false;
                root := None |} evs ;;
  match stack b with
  | [] => root b
  | _ => None
  end.

Definition fromstring (s : string) : ParseResult :=
  match parse s with
  | Some e => Parsed e
  | None => ParseError "not well-formed"
  end.

End ETCodec.

(* ================================================================== *)
(** * Definitions used to state the properties *)
(* ================================================================== *)

Unset Implicit Arguments.

Module SanitizerSpec.
Import PyStr ET Sanitizer.

(** A context: an element tree with one child position singled out, at any
    depth below the root. *)
Inductive context : Type :=
| Here (t : string) (a : list (string * string)) (tx tl : option string)
    (before after : list Element)
| Below (t : string) (a : list (string * string)) (tx tl : option string)
    (before : list Element) (inner : context) (after : list Element).

(** The tree with [c] at the singled-out position. *)
Fixpoint plug (k : context) (c : Element) : Element :=
  match k with
  | Here t a tx tl before after => mkElement t a tx tl (before ++ c :: after)
  | Below t a tx tl before inner after =>
      mkElement t a tx tl (before ++ plug inner c :: after)
  end.

(** The tree with nothing at the singled-out position. *)
Fixpoint prune (k : context) : Element :=
  match k with
  | Here t a tx tl before after => mkElement t a tx tl (before ++ after)
  | Below t a tx tl before inner after =>
      mkElement t a tx tl (before ++ prune inner :: after)
  end.

(** The attributes [_sanitize_element] leaves on an element. *)
Definition kept_attrib (a : list (string * string)) : list (string * string) :=
  del_all (map fst (filter (fun kv => dangerous_attr (fst kv) (snd kv)) a)) a.

(** The text [_sanitize_element] leaves on an element with tag [t]. *)
Definition kept_text (t : string) (tx : option string) : option string :=
  match tx with
  | Some s =>
      if String.eqb (lower (strip_namespace t)) "style" && truthy s
      then Some (_sanitize_css s) else Some s
  | None => None
  end.

(** Induction over element trees. *)
Section ElementInduction.
Variable P : Element -> Prop.
Hypothesis step :
  forall t a tx tl cs, Forall P cs -> P (mkElement t a tx tl cs).

Fixpoint Element_rect' (e : Element) : P e :=
  match e with
  | mkElement t a tx tl cs =>
      step t a tx tl cs
        ((fix all (l : list Element) : Forall P l :=
            match l with
            | [] => Forall_nil P
            | c :: r => Forall_cons c (Element_rect' c) (all r)
            end) cs)
  end.
End ElementInduction.

(** Example documents. *)
Definition xml_prolog : string := "<?xml version=" +++ dq +++ "1.0" +++ dq +++ "?>".
Definition script_document : string := xml_prolog +++ "<script>alert(1)</script>".
Definition script_root : Element :=
  mkElement "script" [] (Some "alert(1)") None [].
Definition nested_script_document : string :=
  "<svg><g><script><rect/></script>t</g><rect onload=" +++ dq +++ "x()" +++ dq
  +++ " href=" +++ dq +++ "JavaScript:x()" +++ dq +++ " id=" +++ dq +++ "r" +++ dq
  +++ "/></svg>".
Definition single_quoted_document : string :=
  "<svg xmlns='http://www.w3.org/2000/svg'><rect/></svg>".
Definition SVG : string := "{http://www.w3.org/2000/svg}".

(** The text [sanitize_svg] returns for a parsed root. *)
Definition output_of (tostring : Element -> string) (svg_content : string)
    (root : Element) : string :=
  if startswith "<?xml" (strip svg_content)
  then XML_DECLARATION +++ tostring (_sanitize_element root)
  else tostring (_sanitize_element root).

Definition nested_script_output : string :=
  "<ns0:svg xmlns:ns0=" +++ dq +++ "http://www.w3.org/2000/svg" +++ dq
  +++ "><ns0:g /><ns0:rect id=" +++ dq +++ "r" +++ dq +++ " /></ns0:svg>".

Definition empty_svg_output : string :=
  "<ns0:svg xmlns:ns0=" +++ dq +++ "http://www.w3.org/2000/svg" +++ dq +++ " />".

(** A style sheet in which removing one [expression()] leaves another. *)
Definition css_document : string :=
  xml_prolog +++ "<svg><style>expexpression()ression(alert(1))</style></svg>".

Definition css_output (style_text : string) : string :=
  XML_DECLARATION +++ "<ns0:svg xmlns:ns0=" +++ dq
  +++ "http://www.w3.org/2000/svg" +++ dq +++ "><ns0:style>" +++ style_text
  +++ "</ns0:style></ns0:svg>".

End SanitizerSpec.

Module RagSpec.
Import PyStr PyNum QueryGenerator Rag.

(** The query text and the filter [find_similar_logos] hands to the store. *)
Definition query_text_of (request : RAGQueryRequest) : string :=
  if is_set (rq_query request) then val (rq_query request)
  else config_to_query (rq_logo_type request) (rq_theme request)
         (rq_shape request) (rq_primary_color request)
         (rq_accent_color request) (rq_text request) None None.

Definition filter_of (request : RAGQueryRequest) : option where_clause :=
  generate_filter_from_config (rq_logo_type request) (rq_theme request)
    (rq_shape request).

(** The two degraded responses. *)
Definition unconfigured_response : RAGQueryResponse :=
  {| success := true; results := []; query_used := None; degraded := true;
     error := Some "RAG not configured - ChromaDB credentials missing" |}.

Definition failed_response (e : string) : RAGQueryResponse :=
  {| success := true; results := []; query_used := None; degraded := true;
     error := Some ("RAG query failed: " +++ e) |}.

(** A store that cannot be reached, and an environment with and without
    credentials. *)
Definition unreachable (_ : RAGConfig) : Res unit := Raise "connection refused".
Definition no_query (_ : unit) (_ : string) (_ : Z) (_ : option where_clause)
  : Res query_result := Raise "no collection".
Definition no_credentials : environ := fun _ => None.
Definition credentials : environ :=
  fun key =>
    if String.eqb key "CHROMA_API_TOKEN" then Some "token"
    else if String.eqb key "CHROMA_TENANT" then Some "tenant"
    else if String.eqb key "CHROMA_DATABASE" then Some "db"
    else None.
Definition wordmark_request : RAGQueryRequest :=
  {| rq_query := None; rq_logo_type := Some "wordmark";
     rq_theme := Some "modern"; rq_shape := None; rq_primary_color := None;
     rq_accent_color := None; rq_text := Some "ACME"; rq_n_results := 5 |}.

End RagSpec.

(* ================================================================== *)
(** ** Binary64 values and rounding, as integers *)
(* ================================================================== *)

(** Every finite binary64 number is an integer multiple of 2^-1074. The
    definitions below describe values in that unit, and rounding to nearest
    even with 53 significant bits on such values. *)
Module Binary64.
Local Open Scope Z_scope.

(** The value of a non-negative finite number, in units of 2^-1074. *)
Definition U (x : spec_float) : Z :=
  match x with
  | S754_finite false m e => Zpos m * 2 ^ (e + 1074)
  | _ => 0
  end.

(** 1.0 in that unit, and as a binary64 number. *)
Definition ONE : Z := 2 ^ 1074.
Definition one : spec_float := S754_finite false 4503599627370496 (-52).

(** The largest finite value. *)
Definition Dmax : Z := (2 ^ 53 - 1) * 2 ^ 2045.

(** A well-formed binary64 number that is zero or positive and finite. *)
Definition nonneg_finite (d : spec_float) : bool :=
  match d with
  | S754_zero _ => true
  | S754_finite false m e => bounded 53 1024 m e
  | _ => false
  end.

Definition fexp64 (e : Z) : Z := Z.max (e - 53) (-1074).

(** [N / D] rounded to the nearest integer, ties to even. *)
Definition RNE (N D : Z) : Z :=
  let q := N / D in
  match 2 * (N mod D) ?= D with
  | Lt => q
  | Gt => q + 1
  | Eq => if Z.even q then q else q + 1
  end.

(** Bit length of the integer part of [N / Dn], and the number of low bits
    that do not fit in 53 significant bits. *)
Definition nbits (N Dn : Z) : Z := Z.log2 (N / Dn) + 1.
Definition kexp (N Dn : Z) : Z := Z.max (nbits N Dn - 53) 0.

(** The fraction [N / Dn] (a value in units of 2^-1074) rounded to binary64. *)
Definition RND (N Dn : Z) : Z := RNE N (Dn * 2 ^ kexp N Dn) * 2 ^ kexp N Dn.

(** The value of [1 / (1 + d)] computed with two roundings, for a distance
    of value [D]: 2^2148 is 1.0 / 1.0 in units of 2^-1074 over units. *)
Definition score_value (D : Z) : Z := RND (2 ^ 2148) (RND (ONE + D) 1).

(** The record of a right shift locates the fraction [N / Dn]: [shr_m] is
    its integer part, and the round and sticky bits say where the rest lies
    with respect to one half. *)
Definition brk (N Dn : Z) (mrs : shr_record) : Prop :=
  let m := shr_m mrs in
  0 <= m /\ 0 < Dn /\ m * Dn <= N < (m + 1) * Dn /\
  match shr_r mrs, shr_s mrs with
  | false, false => N = m * Dn
  | false, true => m * Dn < N /\ 2 * (N - m * Dn) < Dn
  | true, false => 2 * (N - m * Dn) = Dn
  | true, true => 2 * (N - m * Dn) > Dn
  end.

(** The tail of [binary_round_aux]: renormalization after rounding. *)
Definition finish (M1 e' : Z) : spec_float :=
  let '(mrs'', e'') := shr_fexp 53 1024 M1 e' loc_Exact in
  match shr_m mrs'' with
  | Z0 => S754_zero false
  | Zpos m =>
      if e'' <=? 1024 - 53 then S754_finite false m e''
      else S754_infinity false
  | Zneg _ => S754_nan
  end.

(** 2^-60, a distance just above zero. *)
Definition tiny : spec_float := S754_finite false 4503599627370496 (-112).

End Binary64.

(* ================================================================== *)
(** ** main.py: the textual SVG check *)
(* ================================================================== *)

Module Main.
Import PyStr.

(** The dict [validate_svg] returns; the [error] key is absent on success. *)
Record SvgCheck := { check_valid : bool; check_error : option string }.

Definition validate_svg (svg : string) : SvgCheck :=
  if negb (startswith "<svg" (strip svg)) then
    {| check_valid := false; check_error := Some "Not an SVG" |}
  else if negb (contains "</svg>" svg) then
    {| check_valid := false; check_error := Some "Unclosed SVG tag" |}
  else {| check_valid := true; check_error := None |}.

End Main.

(* ================================================================== *)
(** ** admin/auth.py *)
(* ================================================================== *)

Module Auth.
Import PyStr QueryGenerator Rag.

(** What a call of [require_admin_key] does: it returns the key, raises an
    [HTTPException], or lets the [RuntimeError] of [get_admin_api_key]
    through. *)
Inductive Outcome : Type :=
| Return (key : string)
| HTTPException (status_code : Z) (detail : string)
| RuntimeError (msg : string).

Definition get_admin_api_key (env : environ) : Res string :=
  let key := env "ADMIN_API_KEY" in
  if negb (is_set key)
  then Raise "ADMIN_API_KEY environment variable not set"
  else Ret (val key).

Definition require_admin_key (env : environ) (x_admin_key : option string)
  : Outcome :=
  if negb (is_set x_admin_key) then
    HTTPException 401 "Missing X-Admin-Key header"
  else
    match get_admin_api_key env with
    | Raise msg => RuntimeError msg
    | Ret expected_key =>
        if negb (String.eqb (val x_admin_key) expected_key)
        then HTTPException 403 "Invalid admin API key"
        else Return (val x_admin_key)
    end.

End Auth.

(* ================================================================== *)
(** ** rag/types.py, rag/chroma_client.py, rag/query_service.py,
       rag/routes.py: the remaining functions *)
(* ================================================================== *)

Module RagService.
Import PyStr PyNum QueryGenerator Rag.

(** One entry of [model_dump(exclude_none=True)]. *)
Definition item (key : string) (value : option string) : meta_map :=
  match value with
  | Some v => [(key, v)]
  | None => []
  end.

(** [metadata.model_dump(exclude_none=True)]: the fields in declaration
    order, those that are [None] left out. *)
Definition model_dump_exclude_none (m : LogoMetadata) : meta_map :=
  [("logo_id", logo_id m)]
  ++ item "name" (name m)
  ++ [("description", description m); ("logo_type", logo_type m)]
  ++ item "theme" (theme m)
  ++ item "shape" (shape m)
  ++ item "primary_color" (primary_color m)
  ++ item "accent_color" (accent_color m)
  ++ item "text" (text m)
  ++ item "svg_url" (svg_url m)
  ++ item "created_at" (created_at m).

(** The filter [list_logos] of admin/management.py builds from its query
    parameters. *)
Definition list_logos_filter (logo_type theme shape : option string)
  : option where_clause :=
  let where_filter : option where_clause := None in
  let conditions : list where_clause := [] in
  let conditions :=
    if is_set logo_type then conditions ++ [FieldEq "logo_type" (val logo_type)]
    else conditions in
  let conditions :=
    if is_set theme then conditions ++ [FieldEq "theme" (val theme)]
    else conditions in
  let conditions :=
    if is_set shape then conditions ++ [FieldEq "shape" (val shape)]
    else conditions in
  match conditions with
  | [] => where_filter
  | c :: _ =>
      Some (if (List.length conditions =? 1)%nat then c else And conditions)
  end.

Record RAGStatusResponse := { configured : bool; logo_count : Z }.

(** [str(i)] for a list position. *)
Definition str_of_nat (n : nat) : string :=
  DecimalString.NilEmpty.string_of_uint (Nat.to_uint n).

Section Store.
Variable collection : Type.
Variable get_collection : RAGConfig -> Res collection.
Variable collection_count : collection -> Res Z.

(** [ChromaLogoClient(config).count()] *)
Definition count (config : RAGConfig) : Res Z :=
  coll <- get_collection config ;;
  collection_count coll.

Definition get_logo_count (env : environ) : Res Z :=
  if negb (is_rag_configured env) then Ret 0%Z
  else
    try_except
      (let config := get_rag_config env in
       count config)
      (fun _ => Ret 0%Z).

(** [get_rag_status] of rag/routes.py. *)
Definition get_rag_status (env : environ) : Res RAGStatusResponse :=
  let configured_ := is_rag_configured env in
  n <- get_logo_count env ;;
  Ret {| configured := configured_; logo_count := n |}.
End Store.

Section Format.
(** The format specification [.1%] applied to a float is Python's own. *)
Variable format_percent : float -> string.

(** The lines one logo adds to [parts]; [i] counts from 1. *)
Definition logo_parts (i : nat) (logo : SimilarLogo) : list string :=
  let metadata := sl_metadata logo in
  [ nl +++ str_of_nat i +++ ". **"
    +++ (if is_set (name metadata) then val (name metadata)
         else "Unnamed Logo") +++ "**";
    "   - Type: " +++ logo_type metadata ]
  ++ (if is_set (theme metadata)
      then ["   - Theme: " +++ val (theme metadata)] else [])
  ++ (if is_set (shape metadata)
      then ["   - Shape: " +++ val (shape metadata)] else [])
  ++ [ "   - Description: " +++ description metadata;
       "   - Similarity: " +++ format_percent (sl_score logo) ].

(** The loop over [enumerate(logos, 1)]. *)
Fixpoint format_loop (i : nat) (logos : list SimilarLogo) (parts : list string)
  : list string :=
  match logos with
  | [] => parts
  | logo :: rest => format_loop (S i) rest (parts ++ logo_parts i logo)
  end.

Definition format_similar_logos_for_context (logos : list SimilarLogo)
  : string :=
  match logos with
  | [] => EmptyString
  | _ =>
      let parts := ["Here are some similar logos for inspiration:" +++ nl] in
      join nl (format_loop 1 logos parts)
  end.
End Format.

End RagService.

(* ================================================================== *)
(** ** Definitions used to state further properties *)
(* ================================================================== *)

Module SanitizerProps.
Import PyStr ET Sanitizer SanitizerSpec.

(** The entries of the allow-list that a lower-cased name can be equal
    to. *)
Definition lowercase_entries : list string :=
  filter (fun n => String.eqb (lower n) n) ALLOWED_ELEMENTS.

(** The entries written in mixed case. *)
Definition mixed_case_entries : list string :=
  filter (fun n => negb (String.eqb (lower n) n)) ALLOWED_ELEMENTS.

Definition is_style (e : Element) : bool :=
  String.eqb (lower (strip_namespace (tag e))) "style".

(** The style sheet of [e], once rewritten by [_sanitize_css], is not
    changed by a second rewriting. *)
Definition css_settled_at (e : Element) : bool :=
  match text e with
  | Some t =>
      negb (is_style e)
      || String.eqb (_sanitize_css (_sanitize_css t)) (_sanitize_css t)
  | None => true
  end.

Definition css_settled (root : Element) : bool :=
  forallb css_settled_at (iter root).

(** A document with a gradient, written as the allow-list has it, and an
    upper-case rectangle. *)
Definition gradient_document : string :=
  "<svg><defs><linearGradient/></defs><RECT/></svg>".

Definition gradient_tree : Element :=
  mkElement (SVG +++ "svg") [] None None
    [ mkElement (SVG +++ "defs") [] None None
        [mkElement (SVG +++ "linearGradient") [] None None []];
      mkElement (SVG +++ "RECT") [] None None [] ].


Definition styled_tree : Element :=
  mkElement "svg" [("onload", "x()"); ("id", "a")] None None
    [ mkElement "style" [] (Some "a{b:expression(c)}") None [];
      mkElement "script" [] None None [];
      mkElement "g" [("href", "javascript:x")] (Some "t") None
        [mkElement "rect" [] None None []] ].

End SanitizerProps.

Module QueryProps.
Import PyStr PyNum QueryGenerator Rag.

(** The conditions of a filter, in order. *)
Definition conditions_of (w : option where_clause) : list where_clause :=
  match w with
  | None => []
  | Some (And cs) => cs
  | Some c => [c]
  end.

(** The equality conditions of the facets that are set. *)
Definition facet_conditions (logo_type theme shape : option string)
  : list where_clause :=
  (if is_set logo_type then [FieldEq "logo_type" (val logo_type)] else [])
  ++ (if is_set theme then [FieldEq "theme" (val theme)] else [])
  ++ (if is_set shape then [FieldEq "shape" (val shape)] else []).

(** The words [_hex_to_description] puts together. *)
Definition brightness_terms : list string := ["dark"; "light"; EmptyString].
Definition hues : list string :=
  ["orange"; "red"; "pink"; "yellow-green"; "green"; "teal"; "purple";
   "blue"; "cyan"].

(** Every description of a decoded colour. *)
Definition rgb_descriptions : list string :=
  ["black"; "gray"; "dark gray"; "light gray"]
  ++ flat_map (fun b => map (fun h => strip (b +++ " " +++ h)) hues)
       brightness_terms.

End QueryProps.

Module RagProps.
Import PyStr PyNum QueryGenerator Rag RagSpec RagService.

Definition acme_metadata : LogoMetadata :=
  {| logo_id := "l1"; name := None; description := "a logo";
     logo_type := "wordmark"; theme := Some "modern"; shape := None;
     primary_color := None; accent_color := None; text := Some "ACME";
     svg_url := None; created_at := None |}.

(** A store with one logo at distance 1, one whose only answer is a hit
    without metadata, and an empty one. *)
Definition one_hit : query_result :=
  {| ids := [["l1"]];
     metadatas := Some [[model_dump_exclude_none acme_metadata]];
     distances := Some [[of_int 1]] |}.
Definition bare_hit : query_result :=
  {| ids := [["l1"]]; metadatas := None; distances := None |}.
Definition no_hit : query_result :=
  {| ids := [[]]; metadatas := Some [[]]; distances := Some [[]] |}.

Definition reachable (_ : RAGConfig) : Res unit := Ret tt.
Definition answer (r : query_result) (_ : unit) (_ : string) (_ : Z)
    (_ : option where_clause) : Res query_result := Ret r.
Definition no_count (_ : unit) : Res Z := Raise "no collection".

End RagProps.

(* ================================================================== *)
(** * Properties of the sanitizer's tree walk *)
(* ================================================================== *)

Module SanitizerFacts.
Import PyStr ET Sanitizer SanitizerSpec.

Lemma sanitize_unfold : forall t a tx tl cs,
  _sanitize_element (mkElement t a tx tl cs)
  = mkElement t (kept_attrib a) (kept_text t tx) tl
      (map _sanitize_element (filter allowed cs)).
Proof.
  intros t a tx tl cs. cbn [_sanitize_element tag attrib text tail children].
  f_equal.
  induction cs as [|c r IH]; [reflexivity|].
  cbn [filter map]. destruct (allowed c); cbn [negb map]; [f_equal|]; exact IH.
Qed.

Lemma sanitize_tag : forall e, tag (_sanitize_element e) = tag e.
Proof. intros [t a tx tl cs]. rewrite sanitize_unfold. reflexivity. Qed.

Lemma sanitize_tail : forall e, tail (_sanitize_element e) = tail e.
Proof. intros [t a tx tl cs]. rewrite sanitize_unfold. reflexivity. Qed.

Lemma sanitize_attrib : forall e,
  attrib (_sanitize_element e) = kept_attrib (attrib e).
Proof. intros [t a tx tl cs]. rewrite sanitize_unfold. reflexivity. Qed.


Lemma sanitize_children : forall e,
  children (_sanitize_element e)
  = map _sanitize_element (filter allowed (children e)).
Proof. intros [t a tx tl cs]. rewrite sanitize_unfold. reflexivity. Qed.

Lemma allowed_sanitize : forall e, allowed (_sanitize_element e) = allowed e.
Proof. intro e. unfold allowed. rewrite sanitize_tag. reflexivity. Qed.

Lemma iter_unfold : forall e, iter e = e :: flat_map iter (children e).
Proof.
  intros [t a tx tl cs]. reflexivity.
Qed.

Lemma descendants_unfold : forall e,
  descendants e = flat_map iter (children e).
Proof. intro e. unfold descendants. rewrite iter_unfold. reflexivity. Qed.

Lemma in_iter_self : forall e, In e (iter e).
Proof. intro e. rewrite iter_unfold. left. reflexivity. Qed.

(** Every element of the sanitized tree is the sanitized form of an element
    of the input tree. *)
Lemma in_iter_sanitize : forall root e',
  In e' (iter (_sanitize_element root)) ->
  exists e, In e (iter root) /\ e' = _sanitize_element e.
Proof.
  intro root. induction root as [t a tx tl cs IH] using Element_rect'.
  intros e' Hin. rewrite iter_unfold in Hin. destruct Hin as [Heq | Hin].
  - exists (mkElement t a tx tl cs). split; [apply in_iter_self | now symmetry].
  - rewrite sanitize_children in Hin. cbn [children] in Hin.
    apply in_flat_map in Hin. destruct Hin as [c' [Hc' Hin]].
    apply in_map_iff in Hc'. destruct Hc' as [c [<- Hc]].
    apply filter_In in Hc. destruct Hc as [Hc _].
    rewrite Forall_forall in IH. destruct (IH c Hc e' Hin) as [e [He ->]].
    exists e. split; [|reflexivity].
    rewrite iter_unfold. right. cbn [children].
    apply in_flat_map. exists c. split; assumption.
Qed.

(** Below the root, only elements that pass the allow-list test remain. *)
Lemma descendants_sanitize_allowed : forall root e',
  In e' (descendants (_sanitize_element root)) -> allowed e' = true.
Proof.
  intro root. induction root as [t a tx tl cs IH] using Element_rect'.
  intros e' Hin. rewrite descendants_unfold, sanitize_children in Hin.
  cbn [children] in Hin.
  apply in_flat_map in Hin. destruct Hin as [c' [Hc' Hin]].
  apply in_map_iff in Hc'. destruct Hc' as [c [<- Hc]].
  apply filter_In in Hc. destruct Hc as [Hc Hallowed].
  rewrite iter_unfold in Hin. destruct Hin as [<- | Hin].
  - rewrite allowed_sanitize. exact Hallowed.
  - rewrite Forall_forall in IH. apply (IH c Hc).
    rewrite descendants_unfold. exact Hin.
Qed.

Lemma tag_plug_prune : forall k c, tag (plug k c) = tag (prune k).
Proof. intros [t a tx tl b af | t a tx tl b inner af] c; reflexivity. Qed.

(** A disallowed element takes its whole subtree with it: the result does
    not depend on anything at or below its position. *)
Lemma sanitize_plug_disallowed : forall k c,
  allowed c = false ->
  _sanitize_element (plug k c) = _sanitize_element (prune k).
Proof.
  intros k c Hc. induction k as [t a tx tl b af | t a tx tl b inner IH af];
    cbn [plug prune]; rewrite !sanitize_unfold; f_equal.
  - rewrite !filter_app. cbn [filter]. rewrite Hc. reflexivity.
  - rewrite !filter_app. cbn [filter].
    assert (Ha : allowed (plug inner c) = allowed (prune inner))
      by (unfold allowed; now rewrite tag_plug_prune).
    rewrite Ha. destruct (allowed (prune inner)); [|reflexivity].
    rewrite !map_app. cbn [map]. rewrite IH. reflexivity.
Qed.

Lemma in_del_all : forall ks a k v,
  In (k, v) (del_all ks a) <-> In (k, v) a /\ mem k ks = false.
Proof.
  intros ks a k v. unfold del_all. rewrite filter_In. cbn [fst].
  rewrite negb_true_iff. reflexivity.
Qed.

Lemma mem_true_iff : forall x l, mem x l = true <-> In x l.
Proof.
  intros x l. unfold mem. rewrite existsb_exists. split.
  - intros [y [Hy Heq]]. apply String.eqb_eq in Heq. now subst.
  - intro H. exists x. split; [assumption | apply String.eqb_refl].
Qed.

Lemma mem_false_iff : forall x l, mem x l = false <-> ~ In x l.
Proof.
  intros x l. rewrite <- mem_true_iff. destruct (mem x l); split; intro H;
    try reflexivity; try discriminate; try (intro; discriminate).
  exfalso. now apply H.
Qed.

(** An attribute that stays was on the element unchanged, and is not
    dangerous. *)
Lemma kept_attrib_safe : forall a k v,
  In (k, v) (kept_attrib a) ->
  In (k, v) a /\ dangerous_attr k v = false.
Proof.
  intros a k v H. unfold kept_attrib in H. apply in_del_all in H.
  destruct H as [Hin Hmem]. split; [assumption|].
  destruct (dangerous_attr k v) eqn:Hd; [|reflexivity].
  exfalso. apply mem_false_iff in Hmem. apply Hmem.
  apply in_map_iff. exists (k, v). split; [reflexivity|].
  apply filter_In. split; assumption.
Qed.

Lemma dangerous_attr_false : forall k v,
  dangerous_attr k v = false ->
  mem (lower (strip_namespace k)) DANGEROUS_ATTRIBUTES = false
  /\ matches_dangerous_pattern v = false.
Proof.
  intros k v H. unfold dangerous_attr in H.
  destruct (mem (lower (strip_namespace k)) DANGEROUS_ATTRIBUTES);
    [discriminate | split; [reflexivity | exact H]].
Qed.

End SanitizerFacts.

(* ================================================================== *)
(** * Properties of [sanitize_svg] and [validate_svg_structure] *)
(* ================================================================== *)

Module SanitizeSvgFacts.
Import PyStr ET Sanitizer SanitizerSpec SanitizerFacts.

Section Codec.
Variable fromstring : string -> ParseResult.
Variable tostring : Element -> string.

Lemma strip_empty : strip EmptyString = EmptyString.
Proof. reflexivity. Qed.

Lemma startswith_truthy : forall p s,
  truthy p = true -> startswith p s = true -> truthy s = true.
Proof. intros [|a p] [|b s]; cbn; intros; congruence. Qed.

Lemma strip_truthy : forall s, truthy (strip s) = true -> truthy s = true.
Proof. intros [|c s]; [rewrite strip_empty|]; cbn; intros; congruence. Qed.

(** [sanitize_svg] returns exactly when the three checks are passed, and
    then returns the serialized sanitized tree. *)
Lemma sanitize_svg_returns : forall s out,
  sanitize_svg fromstring tostring s = Sanitized out <->
  (startswith "<svg" (strip s) = true \/ startswith "<?xml" (strip s) = true)
  /\ exists root,
       fromstring (_normalize_namespaces (strip s)) = Parsed root
       /\ out = output_of tostring s root.
Proof.
  intros s out. unfold sanitize_svg, output_of. split.
  - destruct (negb (truthy s) || negb (truthy (strip s))); [discriminate|].
    destruct (startswith "<svg" (strip s)) eqn:Hsvg;
      destruct (startswith "<?xml" (strip s)) eqn:Hxml; cbn [negb andb];
      try discriminate;
      (destruct (fromstring (_normalize_namespaces (strip s))) as [root|e];
       [|discriminate]);
      intro H; injection H as <-;
      (split; [auto | exists root; split; reflexivity]).
  - intros [Hstart [root [Hparse ->]]].
    assert (Hs : truthy (strip s) = true).
    { destruct Hstart as [H|H];
        (eapply startswith_truthy; [|exact H]; reflexivity). }
    rewrite Hs, (strip_truthy _ Hs). cbn [negb orb].
    assert (Hgate : negb (startswith "<svg" (strip s))
                    && negb (startswith "<?xml" (strip s)) = false).
    { destruct Hstart as [-> | ->]; cbn [negb andb];
        [reflexivity | apply andb_false_r]. }
    rewrite Hgate, Hparse. reflexivity.
Qed.

(** [sanitize_svg] raises exactly when the input is empty or blank, does
    not start as required, or the text handed to the parser, which is the
    stripped input after [_normalize_namespaces], does not parse. *)
Lemma sanitize_svg_raises : forall s,
  (exists msg, sanitize_svg fromstring tostring s = SVGSanitizationError msg) <->
  truthy s = false \/ truthy (strip s) = false
  \/ (startswith "<svg" (strip s) = false /\ startswith "<?xml" (strip s) = false)
  \/ exists e, fromstring (_normalize_namespaces (strip s)) = ParseError e.
Proof.
  intro s. unfold sanitize_svg.
  destruct (truthy s); cbn [negb orb]; [|split; eauto].
  destruct (truthy (strip s)); cbn [negb orb]; [|split; eauto].
  destruct (startswith "<svg" (strip s)), (startswith "<?xml" (strip s));
    cbn [negb andb]; try (split; [|now eauto]; intros _; now auto 6);
    (destruct (fromstring (_normalize_namespaces (strip s))) as [root|e];
     [ split; [intros [msg H]; discriminate |
               intros [H|[H|[[H1 H2]|[e H]]]]; discriminate]
     | split; eauto 6 ]).
Qed.

End Codec.
End SanitizeSvgFacts.

(* ================================================================== *)
(** * The sanitizer's claims *)
(* ================================================================== *)

Module SanitizerClaims.
Import PyStr ET Sanitizer SanitizerSpec SanitizerFacts SanitizeSvgFacts.

(** C1 as it is stated fails at the root: the document
    [<?xml version="1.0"?><script>alert(1)</script>] is accepted, its parsed
    tree holds an element named [script], a name that is not on the
    allow-list, and the output still holds that element. *)
Lemma sanitize_svg_keeps_disallowed_root :
  sanitize_svg ETCodec.fromstring ETCodec.tostring script_document
  = Sanitized (XML_DECLARATION +++ "<script>alert(1)</script>")
  /\ ETCodec.fromstring (_normalize_namespaces (strip script_document))
     = Parsed script_root
  /\ mem "script" ALLOWED_ELEMENTS = false
  /\ allowed script_root = false
  /\ In "script" (map tag (iter (_sanitize_element script_root))).
Proof.
  repeat split; try (vm_compute; reflexivity).
  cbn. left. reflexivity.
Qed.

(** C1 (amended): for every input [sanitize_svg] accepts, the output is the
    serialization of the sanitized parsed tree; below the root of that tree
    every element passes the allow-list test (namespace-stripped, lower-cased
    name on the allow-list); and an element below the root that fails the
    test is dropped with its whole subtree: the result is the one obtained
    from the tree with nothing at that element's position. *)
Theorem sanitize_svg_drops_disallowed_subtrees :
  forall (fromstring : string -> ParseResult) (tostring : Element -> string)
         (s out : string),
    sanitize_svg fromstring tostring s = Sanitized out ->
    exists root,
      fromstring (_normalize_namespaces (strip s)) = Parsed root
      /\ out = output_of tostring s root
      /\ (forall e', In e' (descendants (_sanitize_element root)) ->
                     allowed e' = true)
      /\ (forall k c, root = plug k c -> allowed c = false ->
                      _sanitize_element root = _sanitize_element (prune k)).
Proof.
  intros fromstring tostring s out H.
  apply sanitize_svg_returns in H. destruct H as [_ [root [Hparse Hout]]].
  exists root. split; [exact Hparse|]. split; [exact Hout|]. split.
  - apply descendants_sanitize_allowed.
  - intros k c -> Hc. apply sanitize_plug_disallowed. exact Hc.
Qed.

Lemma sanitize_svg_drops_disallowed_subtrees_witness :
  sanitize_svg ETCodec.fromstring ETCodec.tostring nested_script_document
  = Sanitized nested_script_output
  /\ exists root,
      ETCodec.fromstring (_normalize_namespaces (strip nested_script_document))
      = Parsed root
      /\ nested_script_output
         = output_of ETCodec.tostring nested_script_document root
      /\ (forall e', In e' (descendants (_sanitize_element root)) ->
                     allowed e' = true)
      /\ (forall k c, root = plug k c -> allowed c = false ->
                      _sanitize_element root = _sanitize_element (prune k)).
Proof.
  split; [vm_compute; reflexivity|].
  apply (sanitize_svg_drops_disallowed_subtrees ETCodec.fromstring
           ETCodec.tostring nested_script_document nested_script_output).
  vm_compute. reflexivity.
Defined.




(** C3: every element of the output tree is the sanitized form of an
    element of the parsed tree, and each attribute it carries was on that
    element with the same value, has a name that is not an event-handler name
    (namespace-stripped, case-insensitive), and has a value in which none of
    [javascript:], [data:], [vbscript:] occurs (case-insensitive). *)
Theorem sanitize_svg_removes_dangerous_attributes :
  forall (fromstring : string -> ParseResult) (tostring : Element -> string)
         (s out : string),
    sanitize_svg fromstring tostring s = Sanitized out ->
    exists root,
      fromstring (_normalize_namespaces (strip s)) = Parsed root
      /\ out = output_of tostring s root
      /\ forall e', In e' (iter (_sanitize_element root)) ->
           exists e, In e (iter root) /\ e' = _sanitize_element e
             /\ forall k v, In (k, v) (attrib e') ->
                  In (k, v) (attrib e)
                  /\ mem (lower (strip_namespace k)) DANGEROUS_ATTRIBUTES = false
                  /\ forall p, In p DANGEROUS_PATTERNS ->
                               contains p (lower v) = false.
Proof.
  intros fromstring tostring s out H.
  apply sanitize_svg_returns in H. destruct H as [_ [root [Hparse Hout]]].
  exists root. split; [exact Hparse|]. split; [exact Hout|].
  intros e' Hin. destruct (in_iter_sanitize _ _ Hin) as [e [He ->]].
  exists e. split; [exact He|]. split; [reflexivity|].
  intros k v Hkv. rewrite sanitize_attrib in Hkv.
  apply kept_attrib_safe in Hkv. destruct Hkv as [Hkv Hsafe].
  apply dangerous_attr_false in Hsafe. destruct Hsafe as [Hname Hvalue].
  split; [exact Hkv|]. split; [exact Hname|].
  intros p Hp. unfold matches_dangerous_pattern in Hvalue.
  destruct (contains p (lower v)) eqn:Hc; [|reflexivity].
  assert (Hex : existsb (fun pattern => pattern_search pattern v)
                  DANGEROUS_PATTERNS = true)
    by (apply existsb_exists; exists p; split; assumption).
  congruence.
Qed.

Lemma sanitize_svg_removes_dangerous_attributes_witness :
  sanitize_svg ETCodec.fromstring ETCodec.tostring nested_script_document
  = Sanitized nested_script_output
  /\ exists root,
      ETCodec.fromstring (_normalize_namespaces (strip nested_script_document))
      = Parsed root
      /\ nested_script_output
         = output_of ETCodec.tostring nested_script_document root
      /\ forall e', In e' (iter (_sanitize_element root)) ->
           exists e, In e (iter root) /\ e' = _sanitize_element e
             /\ forall k v, In (k, v) (attrib e') ->
                  In (k, v) (attrib e)
                  /\ mem (lower (strip_namespace k)) DANGEROUS_ATTRIBUTES = false
                  /\ forall p, In p DANGEROUS_PATTERNS ->
                               contains p (lower v) = false.
Proof.
  split; [vm_compute; reflexivity|].
  apply (sanitize_svg_removes_dangerous_attributes ETCodec.fromstring
           ETCodec.tostring nested_script_document nested_script_output).
  vm_compute. reflexivity.
Defined.

(** C5, at the failing input: a well-formed SVG document whose namespace
    declaration is written with single quotes starts with [<svg] and parses,
    yet [sanitize_svg] raises, because [_normalize_namespaces] adds a second
    [xmlns] attribute to the root tag. *)
Lemma sanitize_svg_rejects_single_quoted_namespace :
  ETCodec.fromstring single_quoted_document
  = Parsed (mkElement (SVG +++ "svg") [] None None
              [mkElement (SVG +++ "rect") [] None None []])
  /\ startswith "<svg" (strip single_quoted_document) = true
  /\ _normalize_namespaces (strip single_quoted_document)
     = "<svg " +++ SVG_XMLNS
       +++ " xmlns='http://www.w3.org/2000/svg'><rect/></svg>"
  /\ sanitize_svg ETCodec.fromstring ETCodec.tostring single_quoted_document
     = SVGSanitizationError "Failed to parse SVG: not well-formed".
Proof. repeat split; vm_compute; reflexivity. Qed.

(** C6, at the failing inputs: the output for [<svg/>] starts with
    [<ns0:svg], and [sanitize_svg] rejects it; and for a document with an
    XML prolog, whose output is accepted again, a second pass changes the
    text of the style element. *)
Lemma sanitize_svg_rejects_its_own_output :
  sanitize_svg ETCodec.fromstring ETCodec.tostring "<svg/>"
  = Sanitized empty_svg_output
  /\ sanitize_svg ETCodec.fromstring ETCodec.tostring empty_svg_output
     = SVGSanitizationError "Content does not appear to be SVG"
  /\ sanitize_svg ETCodec.fromstring ETCodec.tostring css_document
     = Sanitized (css_output "expression(alert(1))")
  /\ sanitize_svg ETCodec.fromstring ETCodec.tostring
       (css_output "expression(alert(1))")
     = Sanitized (css_output ")").
Proof. repeat split; vm_compute; reflexivity. Qed.

(** C10: [validate_svg_structure] returns a result for every input. A parse
    failure gives an invalid result with one error and zero counts; so does
    a root that is not [svg]; the result is valid exactly when the input
    parses and the root is [svg], and then carries the root's attribute
    flags and the number of elements of the tree. *)
Theorem validate_svg_structure_spec :
  forall (fromstring : string -> ParseResult) (s : string),
    let r := validate_svg_structure fromstring s in
    (forall e, fromstring s = ParseError e ->
       valid r = false /\ errors r = ["Parse error: " +++ e]
       /\ element_count r = 0 /\ has_viewbox r = false
       /\ has_dimensions r = false)
    /\ (forall root, fromstring s = Parsed root ->
          String.eqb (lower (strip_namespace (tag root))) "svg" = false ->
          valid r = false /\ errors r = ["Root element is not <svg>"]
          /\ element_count r = 0 /\ has_viewbox r = false
          /\ has_dimensions r = false)
    /\ (valid r = true <->
        exists root, fromstring s = Parsed root
          /\ String.eqb (lower (strip_namespace (tag root))) "svg" = true)
    /\ (forall root, fromstring s = Parsed root -> valid r = true ->
          has_viewbox r = has_key "viewBox" (attrib root)
          /\ has_dimensions r
             = has_key "width" (attrib root) && has_key "height" (attrib root)
          /\ element_count r = S (List.length (descendants root))
          /\ errors r = [])
    /\ validate_svg_structure ETCodec.fromstring "<svg><rect/></svg>"
       = {| valid := true; has_viewbox := false; has_dimensions := false;
            element_count := 2; errors := [] |}.
Proof.
  intros fromstring s r. subst r. unfold validate_svg_structure.
  destruct (fromstring s) as [root|e] eqn:Hparse.
  - destruct (String.eqb (lower (strip_namespace (tag root))) "svg") eqn:Hsvg;
      cbn [negb valid has_viewbox has_dimensions element_count errors app].
    + split; [intros e H; discriminate|].
      split; [intros root' H Hne; injection H as <-; congruence|].
      split; [split; [intros _; exists root; split; [reflexivity|exact Hsvg]
                     | reflexivity]|].
      split; [|vm_compute; reflexivity].
      intros root' H _. injection H as <-.
      rewrite iter_unfold. unfold descendants. rewrite iter_unfold.
      repeat split; reflexivity.
    + split; [intros e H; discriminate|].
      split; [intros root' H _; repeat split; reflexivity|].
      split; [split; [discriminate
                     | intros [root' [H Hs]]; injection H as <-; congruence]|].
      split; [intros root' _ H; discriminate | vm_compute; reflexivity].
  - cbn [valid has_viewbox has_dimensions element_count errors app].
    split; [intros e' H; injection H as <-; repeat split; reflexivity|].
    split; [intros root H; discriminate|].
    split; [split; [discriminate | intros [root [H _]]; discriminate]|].
    split; [intros root H; discriminate | vm_compute; reflexivity].
Qed.

End SanitizerClaims.

(* ================================================================== *)
(** * The query generator's claims *)
(* ================================================================== *)

Module QueryGeneratorClaims.
Import PyStr PyNum QueryGenerator.

Lemma append_empty : forall s, s +++ EmptyString = s.
Proof. induction s as [|c s IH]; cbn; [reflexivity | now rewrite IH]. Qed.

(** One of the steps 2-4 of [config_to_query] appends what the
    specification's facet rule gives. *)
Lemma facet_step : forall (parts : list string) table suffix facet,
  (if is_set facet && in_dict facet table
   then parts ++ [dict_at facet table]
   else if is_set facet then parts ++ [val facet +++ suffix] else parts)
  = parts ++ spec_facet table suffix facet.
Proof.
  intros parts table suffix [v|]; cbn; [|now rewrite app_nil_r].
  destruct (truthy v); cbn; [|now rewrite app_nil_r].
  destruct (dict_get v table); reflexivity.
Qed.

Lemma optional_step : forall (parts : list string) (c : bool) (x : string),
  (if c then parts ++ [x] else parts) = parts ++ (if c then [x] else []).
Proof. intros parts [|] x; [reflexivity | now rewrite app_nil_r]. Qed.

Lemma color_step : forall (colors : list string) label c,
  (if is_set c then colors ++ [label +++ _describe_color (val c)] else colors)
  = colors ++ spec_color label c.
Proof.
  intros colors label [v|]; cbn; [|now rewrite app_nil_r].
  destruct (truthy v); [reflexivity | now rewrite app_nil_r].
Qed.

Lemma colors_step : forall (parts colors : list string),
  match colors with
  | [] => parts
  | _ :: _ => parts ++ [join ", " colors]
  end
  = parts ++ match colors with [] => [] | _ :: _ => [join ", " colors] end.
Proof. intros parts [|c r]; [now rewrite app_nil_r | reflexivity]. Qed.

(** The final expression of [config_to_query] is the specification's
    assembly rule. *)
Lemma assemble_step : forall parts : list string,
  match parts with
  | [] => "professional logo design"
  | _ :: _ =>
      join " with " (firstn 3 parts)
      +++ (if (3 <? List.length parts)%nat
           then ". " +++ join ". " (skipn 3 parts) else EmptyString)
  end
  = spec_assemble parts.
Proof.
  intros [|a [|b [|c [|d r]]]]; cbn -[join String.append];
    try reflexivity; apply append_empty.
Qed.

(** C7: [config_to_query] is a function of its arguments that assembles the
    phrases of the specification in the order 1 to 7 and joins them by the
    specification's rule; the wordmark example and the fallback are as
    stated. *)
Theorem config_to_query_refines_spec :
  forall logo_type theme shape primary_color accent_color text description
         industry : option string,
    config_to_query logo_type theme shape primary_color accent_color text
      description industry
    = build_query_spec logo_type theme shape primary_color accent_color text
        description industry
    /\ config_to_query (Some "wordmark") (Some "modern") None None None
         (Some "ACME") None None
       = "text-based logo featuring the brand name in stylized typography"
         +++ " with clean, contemporary, sleek design with geometric precision"
         +++ " with featuring text 'ACME'"
    /\ config_to_query None None None None None None None None
       = "professional logo design".
Proof.
  intros logo_type theme shape primary_color accent_color text description
    industry.
  split; [|split; vm_compute; reflexivity].
  unfold config_to_query, build_query_spec, spec_phrases. cbv zeta.
  rewrite assemble_step. f_equal.
  rewrite !color_step, colors_step, !facet_step, !optional_step.
  cbn [app]. rewrite <- !app_assoc.
  destruct (spec_color "primary color " primary_color
            ++ spec_color "accent color " accent_color); reflexivity.
Qed.

(** An exact, case-insensitive hit in the colour table gives the table's
    name. *)
Lemma describe_color_table_hit : forall color name,
  dict_get (lower color) color_names = Some name ->
  _describe_color color = name.
Proof. intros color name H. unfold _describe_color. now rewrite H. Qed.

(** A value that does not start with [#] or is not seven characters long,
    and is not in the table, is returned unchanged. *)
Lemma describe_color_other_format : forall color,
  dict_get (lower color) color_names = None ->
  startswith "#" color && (String.length color =? 7)%nat = false ->
  _describe_color color = color.
Proof. intros color H1 H2. unfold _describe_color. now rewrite H1, H2. Qed.

(** A decode failure of any channel returns the value unchanged. *)
Lemma hex_to_description_decode_failure : forall hex_color,
  int16 (substring 1 2 hex_color) = None
  \/ int16 (substring 3 2 hex_color) = None
  \/ int16 (substring 5 2 hex_color) = None ->
  _hex_to_description hex_color = hex_color.
Proof.
  intros hex_color H. unfold _hex_to_description.
  destruct (int16 (substring 1 2 hex_color));
    destruct (int16 (substring 3 2 hex_color));
    destruct (int16 (substring 5 2 hex_color));
    try reflexivity; destruct H as [H|[H|H]]; discriminate.
Qed.

(** C8, at the failing input: [#-f0000] is not of the form [#RRGGBB], its
    first channel is not two hexadecimal digits, yet [int(.., 16)] accepts
    the signed digit, the channels decode to (-15, 0, 0) and the value is
    described as black instead of being returned unchanged. The table hit
    and the unchanged return of a colour name are as stated. *)
Lemma describe_color_decodes_signed_channel :
  _describe_color "#-f0000" = "black"
  /\ int16 (substring 1 2 "#-f0000") = Some (-15)%Z
  /\ hexval "-" = None
  /\ _describe_color "#+f+f+f" = "dark gray"
  /\ _describe_color "#0f172a" = "dark navy"
  /\ _describe_color "not-a-color" = "not-a-color".
Proof. repeat split; vm_compute; reflexivity. Qed.

End QueryGeneratorClaims.

(* ================================================================== *)
(** * The similarity query orchestrator's claims *)
(* ================================================================== *)

Module RagClaims.
Import PyStr PyNum QueryGenerator Rag RagSpec.

Lemma truthy_false : forall s, truthy s = false <-> s = EmptyString.
Proof. intros [|c s]; cbn; split; intro H; congruence. Qed.

(** Unconfigured means that one of the three credentials is empty. *)
Lemma unconfigured_iff : forall env,
  is_rag_configured env = false <->
  environ_get env "CHROMA_API_TOKEN" EmptyString = EmptyString
  \/ environ_get env "CHROMA_TENANT" EmptyString = EmptyString
  \/ environ_get env "CHROMA_DATABASE" EmptyString = EmptyString.
Proof.
  intro env. unfold is_rag_configured, get_rag_config.
  cbn [api_token tenant database].
  rewrite !andb_false_iff, !truthy_false. tauto.
Qed.

Section Store.
Variable collection : Type.
Variable get_collection : RAGConfig -> Res collection.
Variable collection_query :
  collection -> string -> Z -> option where_clause -> Res query_result.

(** An exception of the store is an exception of [query_by_text]. *)
Lemma query_by_text_raises : forall config q n w e,
  get_collection config = Raise e
  \/ (exists c, get_collection config = Ret c
                /\ collection_query c q n w = Raise e) ->
  query_by_text get_collection collection_query config q n w = Raise e.
Proof.
  intros config q n w e [H | [c [Hc Hq]]]; unfold query_by_text, bind.
  - rewrite H. reflexivity.
  - rewrite Hc, Hq. reflexivity.
Qed.

Lemma find_similar_logos_configured : forall env request,
  is_rag_configured env = true ->
  find_similar_logos get_collection collection_query env request
  = match query_by_text get_collection collection_query (get_rag_config env)
            (query_text_of request) (rq_n_results request) (filter_of request)
    with
    | Ret found =>
        Ret {| success := true; results := found;
               query_used := Some (query_text_of request);
               degraded := false; error := None |}
    | Raise e => Ret (failed_response e)
    end.
Proof.
  intros env request Hc. unfold find_similar_logos. rewrite Hc. cbn [negb].
  unfold try_except, bind, query_text_of, filter_of.
  destruct (query_by_text _ _ _ _ _ _); reflexivity.
Qed.

End Store.

(** C4: [find_similar_logos] always returns a response, and its [success]
    field is true. Without credentials the response is the degraded one with
    the explanatory message and the store is not consulted. With credentials,
    an exception [e] raised while the store is accessed, or while its answer
    is turned into results, gives the degraded response that carries [e];
    otherwise the results found are returned. *)
Theorem find_similar_logos_never_raises :
  forall (collection : Type)
         (get_collection : RAGConfig -> Res collection)
         (collection_query :
            collection -> string -> Z -> option where_clause -> Res query_result)
         (env : environ) (request : RAGQueryRequest),
    let outcome :=
      find_similar_logos get_collection collection_query env request in
    let store :=
      query_by_text get_collection collection_query (get_rag_config env)
        (query_text_of request) (rq_n_results request) (filter_of request) in
    (exists response, outcome = Ret response /\ success response = true)
    /\ (is_rag_configured env = false -> outcome = Ret unconfigured_response)
    /\ (forall e, is_rag_configured env = true -> store = Raise e ->
                  outcome = Ret (failed_response e))
    /\ (forall found, is_rag_configured env = true -> store = Ret found ->
          outcome = Ret {| success := true; results := found;
                           query_used := Some (query_text_of request);
                           degraded := false; error := None |}).
Proof.
  intros collection get_collection collection_query env request outcome store.
  subst outcome store.
  destruct (is_rag_configured env) eqn:Hc.
  - rewrite (find_similar_logos_configured _ get_collection collection_query
               env request Hc).
    destruct (query_by_text _ _ _ _ _ _) as [found|e].
    + split; [eexists; split; reflexivity|].
      split; [discriminate|]. split; [discriminate|].
      intros found' _ H. injection H as <-. reflexivity.
    + split; [eexists; split; reflexivity|].
      split; [discriminate|].
      split; [intros e' _ H; injection H as <-; reflexivity | discriminate].
  - unfold find_similar_logos. rewrite Hc. cbn [negb].
    split; [eexists; split; reflexivity|].
    split; [reflexivity|]. split; intros ? H; discriminate.
Qed.

(** With credentials and an unreachable store the response is degraded and
    carries the store's message; without credentials it is the unconfigured
    one. *)
Lemma find_similar_logos_never_raises_witness :
  is_rag_configured credentials = true
  /\ query_by_text unreachable no_query (get_rag_config credentials)
       (query_text_of wordmark_request) (rq_n_results wordmark_request)
       (filter_of wordmark_request)
     = Raise "connection refused"
  /\ find_similar_logos unreachable no_query credentials wordmark_request
     = Ret (failed_response "connection refused")
  /\ is_rag_configured no_credentials = false
  /\ find_similar_logos unreachable no_query no_credentials wordmark_request
     = Ret unconfigured_response.
Proof.
  assert (Hc : is_rag_configured credentials = true) by reflexivity.
  assert (Hn : is_rag_configured no_credentials = false) by reflexivity.
  assert (Hs : query_by_text unreachable no_query (get_rag_config credentials)
                 (query_text_of wordmark_request)
                 (rq_n_results wordmark_request) (filter_of wordmark_request)
               = Raise "connection refused") by reflexivity.
  split; [exact Hc|]. split; [exact Hs|].
  split; [|split; [exact Hn|]].
  - exact (proj1 (proj2 (proj2
             (find_similar_logos_never_raises unit unreachable no_query
                credentials wordmark_request)))
             "connection refused" Hc Hs).
  - exact (proj1 (proj2
             (find_similar_logos_never_raises unit unreachable no_query
                no_credentials wordmark_request)) Hn).
Defined.

End RagClaims.

(* ================================================================== *)
(** * Properties of binary64 addition and division *)
(* ================================================================== *)

(** [SFadd] and [SFdiv], on the arguments [1 / (1 + d)] gives them, compute
    the integer rounding [RND]; [RND] is monotone. *)
Module Binary64Facts.
Import Binary64.
Local Open Scope Z_scope.

Lemma brk_shr_1 : forall N Dn mrs, brk N Dn mrs -> brk N (2 * Dn) (shr_1 mrs).
Proof.
  intros N Dn [m r s]. unfold brk. cbn [shr_m shr_r shr_s].
  intros (Hm & HD & Hb & Hl).
  destruct m as [|p|p]; [| |lia].
  - cbn [shr_1 shr_m shr_r shr_s orb]. destruct r, s; cbn [orb]; lia.
  - destruct p as [p|p|]; cbn [shr_1 shr_m shr_r shr_s];
      [rewrite Pos2Z.inj_xI in * | rewrite Pos2Z.inj_xO in * | ];
      destruct r, s; cbn [orb]; nia.
Qed.

Lemma pow2_xO : forall p, 2 ^ Zpos p~0 = 2 ^ Zpos p * 2 ^ Zpos p.
Proof.
  intro p. replace (Zpos p~0) with (Zpos p + Zpos p) by lia.
  apply Z.pow_add_r; lia.
Qed.

Lemma pow2_xI : forall p, 2 ^ Zpos p~1 = 2 * (2 ^ Zpos p * 2 ^ Zpos p).
Proof.
  intro p. replace (Zpos p~1) with (1 + (Zpos p + Zpos p)) by lia.
  rewrite Z.pow_add_r by lia. rewrite Z.pow_add_r by lia. reflexivity.
Qed.

Lemma brk_iter : forall p N Dn mrs,
  brk N Dn mrs -> brk N (Dn * 2 ^ Zpos p) (iter_pos shr_1 p mrs).
Proof.
  induction p as [p IH|p IH|]; intros N Dn mrs H; cbn [iter_pos].
  - apply brk_shr_1 in H. apply IH in H. apply IH in H.
    replace (Dn * 2 ^ Z.pos p~1) with (2 * Dn * 2 ^ Z.pos p * 2 ^ Z.pos p);
      [exact H | rewrite pow2_xI; ring].
  - apply IH in H. apply IH in H.
    replace (Dn * 2 ^ Z.pos p~0) with (Dn * 2 ^ Z.pos p * 2 ^ Z.pos p);
      [exact H | rewrite pow2_xO; ring].
  - apply brk_shr_1 in H.
    replace (Dn * 2 ^ 1) with (2 * Dn) by (rewrite Z.pow_1_r; ring).
    exact H.
Qed.

Lemma fexp_64 : forall e, fexp 53 1024 e = fexp64 e.
Proof. reflexivity. Qed.

Lemma digits2_pos_bounds : forall m : positive,
  2 ^ (Zpos (digits2_pos m) - 1) <= Zpos m < 2 ^ Zpos (digits2_pos m).
Proof.
  induction m as [m IH|m IH|]; cbn [digits2_pos].
  - rewrite Pos2Z.inj_succ. change (Zpos m~1) with (2 * Zpos m + 1).
    replace (Z.succ (Zpos (digits2_pos m)) - 1) with (Z.succ (Zpos (digits2_pos m) - 1)) by lia.
    rewrite !Z.pow_succ_r by lia.
    set (a := 2 ^ (Zpos (digits2_pos m) - 1)) in *.
    set (b := 2 ^ Zpos (digits2_pos m)) in *. clearbody a b. lia.
  - rewrite Pos2Z.inj_succ. change (Zpos m~0) with (2 * Zpos m).
    replace (Z.succ (Zpos (digits2_pos m)) - 1) with (Z.succ (Zpos (digits2_pos m) - 1)) by lia.
    rewrite !Z.pow_succ_r by lia.
    set (a := 2 ^ (Zpos (digits2_pos m) - 1)) in *.
    set (b := 2 ^ Zpos (digits2_pos m)) in *. clearbody a b. lia.
  - cbn. lia.
Qed.

Lemma Zdigits2_bounds : forall m, 0 < m ->
  0 < Zdigits2 m /\ 2 ^ (Zdigits2 m - 1) <= m < 2 ^ Zdigits2 m.
Proof.
  intros [|p|p] H; try lia. cbn [Zdigits2].
  split; [lia | apply digits2_pos_bounds].
Qed.

(** Bit length is determined by the binade. *)
Lemma Zdigits2_unique : forall m d, 0 < d ->
  2 ^ (d - 1) <= m < 2 ^ d -> Zdigits2 m = d.
Proof.
  intros m d Hd [Hlo Hhi].
  assert (Hm : 0 < m) by (pose proof (Z.pow_pos_nonneg 2 (d - 1)); lia).
  destruct (Zdigits2_bounds m Hm) as [Hpos [Hlo' Hhi']].
  destruct (Z.lt_trichotomy (Zdigits2 m) d) as [Hlt|[Heq|Hgt]]; [|exact Heq|].
  - assert (2 ^ Zdigits2 m <= 2 ^ (d - 1)) by (apply Z.pow_le_mono_r; lia). lia.
  - assert (2 ^ d <= 2 ^ (Zdigits2 m - 1)) by (apply Z.pow_le_mono_r; lia). lia.
Qed.

Lemma shr_brk : forall N Dn mrs e n, brk N Dn mrs -> 0 <= n ->
  brk N (Dn * 2 ^ n) (fst (shr mrs e n)) /\ snd (shr mrs e n) = e + n.
Proof.
  intros N Dn mrs e [|p|p] H Hn; cbn [shr fst snd]; try lia.
  - rewrite Z.mul_1_r. split; [exact H | lia].
  - split; [apply brk_iter; exact H | reflexivity].
Qed.

Lemma shr_nonpos : forall mrs e n, n <= 0 -> shr mrs e n = (mrs, e).
Proof. intros mrs e [|p|p] H; cbn [shr]; try reflexivity; lia. Qed.

Lemma brk_div : forall N Dn mrs, brk N Dn mrs ->
  shr_m mrs = N / Dn /\ N mod Dn = N - shr_m mrs * Dn.
Proof.
  intros N Dn mrs (Hm & HD & Hb & _).
  assert (Hq : N / Dn = shr_m mrs).
  { symmetry. apply (Z.div_unique_pos N Dn (shr_m mrs) (N - shr_m mrs * Dn)); lia. }
  split; [now symmetry|]. rewrite Z.mod_eq by lia. rewrite Hq. ring.
Qed.

Lemma round_nearest_even_brk : forall N D mrs, brk N D mrs ->
  round_nearest_even (shr_m mrs) (loc_of_shr_record mrs) = RNE N D.
Proof.
  intros N D mrs H. destruct (brk_div N D mrs H) as [Hq Hr].
  unfold RNE. rewrite <- Hq, Hr.
  destruct H as (Hm & HD & Hb & Hl). destruct mrs as [m r s].
  cbn [shr_m shr_r shr_s loc_of_shr_record] in *.
  destruct r, s; cbn [round_nearest_even].
  - assert (Hc : (2 * (N - m * D) ?= D) = Gt) by (apply Z.compare_gt_iff; lia).
    rewrite Hc. reflexivity.
  - assert (Hc : (2 * (N - m * D) ?= D) = Eq) by (apply Z.compare_eq_iff; lia).
    rewrite Hc. reflexivity.
  - assert (Hc : (2 * (N - m * D) ?= D) = Lt) by (apply Z.compare_lt_iff; lia).
    rewrite Hc. reflexivity.
  - assert (Hc : (2 * (N - m * D) ?= D) = Lt) by (apply Z.compare_lt_iff; lia).
    rewrite Hc. reflexivity.
Qed.

Lemma pow2_pos : forall n, 0 <= n -> 0 < 2 ^ n.
Proof. intros n H. apply Z.pow_pos_nonneg; lia. Qed.

Lemma pow2_split : forall a b, 0 <= a -> 0 <= b -> 2 ^ (a + b) = 2 ^ a * 2 ^ b.
Proof. intros. apply Z.pow_add_r; assumption. Qed.

Lemma nbits_brk : forall N Dn mx j,
  0 < Dn -> 0 <= j -> 0 < mx ->
  mx * (Dn * 2 ^ j) <= N < (mx + 1) * (Dn * 2 ^ j) ->
  nbits N Dn = Zdigits2 mx + j.
Proof.
  intros N Dn mx j HD Hj Hmx [Hlo Hhi].
  destruct (Zdigits2_bounds mx Hmx) as [Hd [Hdlo Hdhi]].
  pose proof (pow2_pos j Hj) as Hpj.
  assert (H1 : mx * 2 ^ j <= N / Dn).
  { apply Z.div_le_lower_bound; [exact HD|]. lia. }
  assert (H2 : N / Dn < (mx + 1) * 2 ^ j).
  { apply Z.div_lt_upper_bound; [exact HD|]. lia. }
  unfold nbits.
  rewrite (Z.log2_unique (N / Dn) (Zdigits2 mx - 1 + j)); [lia | lia |].
  replace (Z.succ (Zdigits2 mx - 1 + j)) with (Zdigits2 mx + j) by lia.
  rewrite !pow2_split by lia.
  set (a := 2 ^ (Zdigits2 mx - 1)) in *. set (b := 2 ^ Zdigits2 mx) in *.
  clearbody a b. nia.
Qed.

Lemma nbits_lower : forall N Dn, 0 < Dn -> Dn <= N ->
  1 <= nbits N Dn /\ Dn * 2 ^ (nbits N Dn - 1) <= N.
Proof.
  intros N Dn HD HN. unfold nbits.
  assert (HT : 0 < N / Dn) by (apply Z.div_str_pos; lia).
  pose proof (Z.log2_nonneg (N / Dn)).
  split; [lia|].
  replace (Z.log2 (N / Dn) + 1 - 1) with (Z.log2 (N / Dn)) by lia.
  destruct (Z.log2_spec (N / Dn) HT) as [Hlo _].
  pose proof (Z.mul_div_le N Dn HD). nia.
Qed.

Lemma RNE_cases : forall N D, RNE N D = N / D \/ RNE N D = N / D + 1.
Proof.
  intros N D. unfold RNE.
  destruct (2 * (N mod D) ?= D); [destruct (Z.even (N / D))| |]; auto.
Qed.

Lemma shr_m_of_loc : forall m l, shr_m (shr_record_of_loc m l) = m.
Proof. intros m [|[| |]]; reflexivity. Qed.

Lemma finish_correct : forall M1 e',
  1 <= M1 <= 2 ^ 53 -> -1074 <= e' ->
  (-1074 < e' -> 2 ^ 52 <= M1) ->
  M1 * 2 ^ (e' + 1074) < 2 ^ 2098 ->
  exists m e, finish M1 e' = S754_finite false m e
    /\ -1074 <= e /\ Zpos m * 2 ^ (e + 1074) = M1 * 2 ^ (e' + 1074)
    /\ bounded 53 1024 m e = true.
Proof.
  intros M1 e' [HM1 HM53] He' Hnorm Hov.
  assert (HM0 : 0 < M1) by lia.
  destruct (Zdigits2_bounds M1 HM0) as [Hd [Hdlo Hdhi]].
  pose proof (pow2_pos (e' + 1074) ltac:(lia)) as Hpe.
  (* exponent bound from the absence of overflow *)
  assert (Hexp : -1074 < e' -> 52 + (e' + 1074) < 2098).
  { intro H. specialize (Hnorm H).
    apply (Z.pow_lt_mono_r_iff 2); [lia | lia |].
    rewrite pow2_split by lia. nia. }
  unfold finish, shr_fexp. rewrite fexp_64. unfold fexp64.
  destruct (Z.eq_dec M1 (2 ^ 53)) as [Hcarry | Hnc].
  - (* carry into the next binade *)
    subst M1.
    assert (Hexp2 : 53 + (e' + 1074) < 2098).
    { apply (Z.pow_lt_mono_r_iff 2); [lia | lia |].
      rewrite pow2_split by lia. exact Hov. }
    replace (Zdigits2 (2 ^ 53)) with 54 by reflexivity.
    replace (Z.max (54 + e' - 53) (-1074) - e') with 1 by lia.
    cbn [shr_record_of_loc shr iter_pos].
    change (shr_1 {| shr_m := 2 ^ 53; shr_r := false; shr_s := false |})
      with {| shr_m := 2 ^ 52; shr_r := false; shr_s := false |}.
    cbn [shr_m]. change (2 ^ 52) with (Zpos 4503599627370496) at 1.
    cbv beta iota.
    replace (e' + 1 <=? 1024 - 53) with true by (symmetry; apply Z.leb_le; lia).
    exists 4503599627370496%positive, (e' + 1). split; [reflexivity|].
    split; [lia|]. split.
    + replace (e' + 1 + 1074) with (1 + (e' + 1074)) by lia.
      rewrite pow2_split by lia. change (2 ^ 53) with (Zpos 4503599627370496 * 2 ^ 1).
      ring.
    + unfold bounded, canonical_mantissa. rewrite fexp_64. unfold fexp64.
      change (Z.pos (digits2_pos 4503599627370496)) with 53.
      apply andb_true_intro. split; [apply Z.eqb_eq | apply Z.leb_le]; lia.
  - assert (HMlt : M1 < 2 ^ 53) by lia.
    assert (Hd53 : Zdigits2 M1 <= 53).
    { destruct (Z_le_gt_dec (Zdigits2 M1) 53) as [H|H]; [exact H|].
      assert (2 ^ 53 <= 2 ^ (Zdigits2 M1 - 1)) by (apply Z.pow_le_mono_r; lia).
      lia. }
    assert (Hdn : -1074 < e' -> Zdigits2 M1 = 53).
    { intro H. specialize (Hnorm H).
      destruct (Z_le_gt_dec 53 (Zdigits2 M1)) as [H'|H']; [lia|].
      assert (2 ^ Zdigits2 M1 <= 2 ^ 52) by (apply Z.pow_le_mono_r; lia). lia. }
    rewrite shr_nonpos by lia.
    cbn [shr_record_of_loc shr_m].
    destruct M1 as [|p|p]; try lia.
    replace (e' <=? 1024 - 53) with true
      by (symmetry; apply Z.leb_le; destruct (Z.eq_dec e' (-1074)); lia).
    exists p, e'. split; [reflexivity|]. split; [lia|]. split; [reflexivity|].
    unfold bounded, canonical_mantissa. rewrite fexp_64. unfold fexp64.
    cbn [Zdigits2] in *.
    apply andb_true_intro. split; [apply Z.eqb_eq | apply Z.leb_le].
    + destruct (Z.eq_dec e' (-1074)); [lia|]. rewrite Hdn by lia. lia.
    + destruct (Z.eq_dec e' (-1074)); lia.
Qed.

Lemma bra_unfold : forall mx ex lx,
  binary_round_aux 53 1024 false mx ex lx
  = finish (round_nearest_even (shr_m (fst (shr_fexp 53 1024 mx ex lx)))
              (loc_of_shr_record (fst (shr_fexp 53 1024 mx ex lx))))
      (snd (shr_fexp 53 1024 mx ex lx)).
Proof.
  intros mx ex lx. unfold binary_round_aux, finish.
  destruct (shr_fexp 53 1024 mx ex lx) as [mrs' e']. reflexivity.
Qed.

Lemma kexp_nonneg : forall N Dn, 0 <= kexp N Dn.
Proof. intros. unfold kexp. lia. Qed.

Lemma bra_correct : forall N Dn mx ex lx,
  0 < Dn -> Dn <= N -> -1074 <= ex -> 0 < mx ->
  ex <= fexp64 (Zdigits2 mx + ex) ->
  brk N (Dn * 2 ^ (ex + 1074)) (shr_record_of_loc mx lx) ->
  RND N Dn < 2 ^ 2098 ->
  exists m e, binary_round_aux 53 1024 false mx ex lx = S754_finite false m e
    /\ -1074 <= e /\ Zpos m * 2 ^ (e + 1074) = RND N Dn
    /\ bounded 53 1024 m e = true.
Proof.
  intros N Dn mx ex lx HD HN Hex Hmx Hfexp Hbrk Hov.
  pose proof (pow2_pos (ex + 1074) ltac:(lia)) as Hpj.
  (* bit length of the value *)
  assert (Hnb : nbits N Dn = Zdigits2 mx + (ex + 1074)).
  { apply nbits_brk; try lia.
    destruct Hbrk as (_ & _ & Hb & _). rewrite shr_m_of_loc in Hb. exact Hb. }
  destruct (nbits_lower N Dn HD HN) as [Hnb1 HNlo].
  assert (Hk : kexp N Dn = fexp64 (Zdigits2 mx + ex) + 1074).
  { unfold kexp, fexp64. rewrite Hnb. lia. }
  pose proof (kexp_nonneg N Dn) as Hk0.
  rewrite bra_unfold. unfold shr_fexp. rewrite fexp_64.
  set (n := fexp64 (Zdigits2 mx + ex) - ex) in *.
  assert (Hn : 0 <= n) by (unfold n; lia).
  destruct (shr_brk N (Dn * 2 ^ (ex + 1074)) (shr_record_of_loc mx lx) ex n Hbrk Hn)
    as [Hb1 He1].
  set (p := shr (shr_record_of_loc mx lx) ex n) in *.
  assert (HD' : Dn * 2 ^ (ex + 1074) * 2 ^ n = Dn * 2 ^ kexp N Dn).
  { rewrite <- Z.mul_assoc, <- pow2_split by lia. f_equal. f_equal. unfold n. lia. }
  rewrite HD' in Hb1.
  assert (He' : snd p + 1074 = kexp N Dn) by (rewrite He1; unfold n; lia).
  rewrite (round_nearest_even_brk N (Dn * 2 ^ kexp N Dn) (fst p) Hb1).
  (* the truncated mantissa *)
  pose proof (pow2_pos (kexp N Dn) Hk0) as Hpk.
  destruct (brk_div _ _ _ Hb1) as [Hq _].
  destruct Hb1 as (Hm0 & HDk & Hbm & _).
  assert (Hm1 : 0 < shr_m (fst p)).
  { assert (Hle : Dn * 2 ^ kexp N Dn <= N).
    { eapply Z.le_trans; [|exact HNlo].
      apply Z.mul_le_mono_nonneg_l; [lia|].
      apply Z.pow_le_mono_r; [lia|]. unfold kexp. lia. }
    nia. }
  assert (Hdm : nbits N Dn = Zdigits2 (shr_m (fst p)) + kexp N Dn)
    by (apply nbits_brk; lia).
  destruct (Zdigits2_bounds _ Hm1) as [_ [Hdlo Hdhi]].
  assert (Hd53 : Zdigits2 (shr_m (fst p)) <= 53) by (unfold kexp in Hdm; lia).
  assert (Hm53 : shr_m (fst p) < 2 ^ 53).
  { eapply Z.lt_le_trans; [exact Hdhi|]. apply Z.pow_le_mono_r; lia. }
  assert (Hmn : 0 < kexp N Dn -> 2 ^ 52 <= shr_m (fst p)).
  { intro H. eapply Z.le_trans; [|exact Hdlo].
    apply Z.pow_le_mono_r; [lia|]. unfold kexp in *. lia. }
  set (M1 := RNE N (Dn * 2 ^ kexp N Dn)) in *.
  assert (HM1 : M1 = shr_m (fst p) \/ M1 = shr_m (fst p) + 1).
  { unfold M1. rewrite Hq. apply RNE_cases. }
  assert (Hval : M1 * 2 ^ (snd p + 1074) = RND N Dn).
  { rewrite He'. reflexivity. }
  assert (G1 : 1 <= M1 <= 2 ^ 53) by lia.
  assert (G2 : -1074 <= snd p) by lia.
  assert (G3 : -1074 < snd p -> 2 ^ 52 <= M1).
  { intro H. assert (2 ^ 52 <= shr_m (fst p)) by (apply Hmn; lia). lia. }
  assert (G4 : M1 * 2 ^ (snd p + 1074) < 2 ^ 2098) by (rewrite Hval; exact Hov).
  destruct (finish_correct M1 (snd p) G1 G2 G3 G4) as [m [e [Hf [He [Hv Hbd]]]]].
  exists m, e. rewrite Hf, Hv, Hval. auto.
Qed.

Lemma div_cross_le : forall N1 D1 N2 D2,
  0 < D1 -> 0 < D2 -> N1 * D2 <= N2 * D1 -> N1 / D1 <= N2 / D2.
Proof.
  intros N1 D1 N2 D2 H1 H2 H.
  apply Z.div_le_lower_bound; [exact H2|].
  pose proof (Z.mul_div_le N1 D1 H1). nia.
Qed.

Lemma RNE_lower : forall N D, N / D <= RNE N D.
Proof. intros. destruct (RNE_cases N D); lia. Qed.

Lemma RNE_upper : forall N D, RNE N D <= N / D + 1.
Proof. intros. destruct (RNE_cases N D); lia. Qed.

Lemma RNE_mono : forall N1 E1 N2 E2,
  0 < E1 -> 0 < E2 -> N1 * E2 <= N2 * E1 -> RNE N1 E1 <= RNE N2 E2.
Proof.
  intros N1 E1 N2 E2 H1 H2 H.
  pose proof (div_cross_le N1 E1 N2 E2 H1 H2 H) as Hq.
  destruct (Z.eq_dec (N1 / E1) (N2 / E2)) as [Heq|Hne].
  - unfold RNE. rewrite <- Heq. set (q := N1 / E1) in *.
    assert (Hr1 : N1 mod E1 = N1 - q * E1)
      by (rewrite Z.mod_eq by lia; unfold q; ring).
    assert (Hr2 : N2 mod E2 = N2 - q * E2)
      by (rewrite Z.mod_eq by lia; rewrite <- Heq; ring).
    pose proof (Z.mod_pos_bound N1 E1 H1) as B1.
    pose proof (Z.mod_pos_bound N2 E2 H2) as B2.
    rewrite Hr1, Hr2 in *.
    destruct (Z.compare_spec (2 * (N1 - q * E1)) E1) as [C1|C1|C1];
      destruct (Z.compare_spec (2 * (N2 - q * E2)) E2) as [C2|C2|C2];
      try destruct (Z.even q); try lia; exfalso; nia.
  - pose proof (RNE_upper N1 E1). pose proof (RNE_lower N2 E2). lia.
Qed.

Lemma nbits_mono : forall N1 D1 N2 D2,
  0 < D1 -> 0 < D2 -> N1 * D2 <= N2 * D1 -> nbits N1 D1 <= nbits N2 D2.
Proof.
  intros. unfold nbits.
  pose proof (Z.log2_le_mono (N1 / D1) (N2 / D2) (div_cross_le _ _ _ _ H H0 H1)).
  lia.
Qed.

Lemma nbits_upper : forall N D, 0 < D -> D <= N -> N < D * 2 ^ nbits N D.
Proof.
  intros N D HD HN. unfold nbits.
  assert (HT : 0 < N / D) by (apply Z.div_str_pos; lia).
  destruct (Z.log2_spec (N / D) HT) as [_ Hhi].
  replace (Z.log2 (N / D) + 1) with (Z.succ (Z.log2 (N / D))) by lia.
  pose proof (Z.mod_pos_bound N D HD). pose proof (Z.div_mod N D ltac:(lia)).
  nia.
Qed.

Lemma kexp_le_nbits : forall N D, 0 < D -> D <= N ->
  0 <= kexp N D <= nbits N D - 1.
Proof.
  intros N D HD HN. destruct (nbits_lower N D HD HN). unfold kexp. lia.
Qed.

(** The rounded value stays within the binade of the exact one. *)
Lemma RND_bounds : forall N D, 0 < D -> D <= N ->
  2 ^ (nbits N D - 1) <= RND N D <= 2 ^ nbits N D.
Proof.
  intros N D HD HN.
  destruct (kexp_le_nbits N D HD HN) as [Hk0 Hk1].
  destruct (nbits_lower N D HD HN) as [Hnb1 Hlo].
  pose proof (nbits_upper N D HD HN) as Hhi.
  unfold RND. set (k := kexp N D) in *. set (nb := nbits N D) in *.
  pose proof (pow2_pos k Hk0) as Hpk.
  assert (Hs1 : 2 ^ (nb - 1) = 2 ^ (nb - 1 - k) * 2 ^ k)
    by (rewrite <- pow2_split by lia; f_equal; lia).
  assert (Hs2 : 2 ^ nb = 2 ^ (nb - k) * 2 ^ k)
    by (rewrite <- pow2_split by lia; f_equal; lia).
  pose proof (pow2_pos (nb - 1 - k) ltac:(lia)) as Hp1.
  pose proof (pow2_pos (nb - k) ltac:(lia)) as Hp2.
  assert (Hq1 : 2 ^ (nb - 1 - k) <= N / (D * 2 ^ k)).
  { apply Z.div_le_lower_bound; [nia|]. rewrite Hs1 in Hlo. nia. }
  assert (Hq2 : N / (D * 2 ^ k) < 2 ^ (nb - k)).
  { apply Z.div_lt_upper_bound; [nia|]. rewrite Hs2 in Hhi. nia. }
  pose proof (RNE_lower N (D * 2 ^ k)). pose proof (RNE_upper N (D * 2 ^ k)).
  rewrite Hs1, Hs2. split; apply Z.mul_le_mono_nonneg_r; lia.
Qed.

Lemma RND_mono : forall N1 D1 N2 D2,
  0 < D1 -> 0 < D2 -> D1 <= N1 -> D2 <= N2 ->
  N1 * D2 <= N2 * D1 -> RND N1 D1 <= RND N2 D2.
Proof.
  intros N1 D1 N2 D2 HD1 HD2 HN1 HN2 H.
  pose proof (nbits_mono _ _ _ _ HD1 HD2 H) as Hnb.
  destruct (Z.eq_dec (kexp N1 D1) (kexp N2 D2)) as [Hk|Hk].
  - unfold RND. rewrite <- Hk.
    pose proof (pow2_pos (kexp N1 D1) (kexp_nonneg _ _)) as Hp.
    apply Z.mul_le_mono_nonneg_r; [lia|].
    apply RNE_mono; nia.
  - assert (Hlt : nbits N1 D1 <= nbits N2 D2 - 1) by (unfold kexp in Hk; lia).
    destruct (RND_bounds N1 D1 HD1 HN1) as [_ Hu].
    destruct (RND_bounds N2 D2 HD2 HN2) as [Hl _].
    assert (2 ^ nbits N1 D1 <= 2 ^ (nbits N2 D2 - 1)).
    { apply Z.pow_le_mono_r; [lia | exact Hlt]. }
    lia.
Qed.

Lemma bounded_facts : forall m e, bounded 53 1024 m e = true ->
  -1074 <= e <= 971 /\ 0 < Zpos m < 2 ^ 53
  /\ (-1074 < e -> 2 ^ 52 <= Zpos m).
Proof.
  intros m e H. unfold bounded, canonical_mantissa in H.
  apply andb_prop in H. destruct H as [Hc He].
  apply Z.eqb_eq in Hc. apply Z.leb_le in He. rewrite fexp_64 in Hc.
  unfold fexp64 in Hc.
  pose proof (digits2_pos_bounds m) as [Hlo Hhi].
  split; [lia|]. split; [split; [lia|]|].
  - eapply Z.lt_le_trans; [exact Hhi|]. apply Z.pow_le_mono_r; lia.
  - intro Hn. replace (Zpos (digits2_pos m)) with 53 in Hlo by lia. exact Hlo.
Qed.

Lemma iter_xO : forall d m, Zpos (Pos.iter xO m d) = Zpos m * 2 ^ Zpos d.
Proof.
  induction d as [|d IH] using Pos.peano_ind; intro m.
  - cbn [Pos.iter]. rewrite Z.pow_1_r. lia.
  - rewrite Pos.iter_succ. change (Zpos (Pos.iter xO m d)~0)
      with (2 * Zpos (Pos.iter xO m d)).
    rewrite IH, Pos2Z.inj_succ, Z.pow_succ_r by lia. ring.
Qed.

Lemma shl_align_spec : forall mx ex ex',
  snd (shl_align mx ex ex') = Z.min ex ex'
  /\ Zpos (fst (shl_align mx ex ex'))
     = Zpos mx * 2 ^ (ex - snd (shl_align mx ex ex')).
Proof.
  intros mx ex ex'. unfold shl_align.
  destruct (ex' - ex) as [|d|d] eqn:Hd; cbn [fst snd].
  - split; [lia|]. rewrite Z.sub_diag. cbn. lia.
  - split; [lia|]. rewrite Z.sub_diag. cbn. lia.
  - split; [lia|]. rewrite iter_xO. f_equal. f_equal. lia.
Qed.

Lemma Zdigits2_shift : forall m t, 0 < m -> 0 <= t ->
  Zdigits2 (m * 2 ^ t) = Zdigits2 m + t.
Proof.
  intros m t Hm Ht. destruct (Zdigits2_bounds m Hm) as [Hd [Hlo Hhi]].
  pose proof (pow2_pos t Ht) as Hp.
  apply Zdigits2_unique; [lia|].
  replace (Zdigits2 m + t - 1) with (Zdigits2 m - 1 + t) by lia.
  rewrite !pow2_split by lia. nia.
Qed.

Lemma brk_exact : forall m D, 0 <= m -> 0 < D ->
  brk (m * D) D (shr_record_of_loc m loc_Exact).
Proof.
  intros m D Hm HD. unfold brk. cbn [shr_record_of_loc shr_m shr_r shr_s].
  repeat split; lia.
Qed.

(** Rounding an exactly given positive value. *)
Lemma binary_round_correct : forall s ez,
  -1074 <= ez -> RND (Zpos s * 2 ^ (ez + 1074)) 1 < 2 ^ 2098 ->
  exists m e, binary_round 53 1024 false s ez = S754_finite false m e
    /\ -1074 <= e /\ Zpos m * 2 ^ (e + 1074) = RND (Zpos s * 2 ^ (ez + 1074)) 1
    /\ bounded 53 1024 m e = true.
Proof.
  intros s ez Hez Hov. unfold binary_round. rewrite fexp_64.
  set (t := fexp64 (Zpos (digits2_pos s) + ez)).
  destruct (shl_align_spec s ez t) as [He Hm].
  destruct (shl_align s ez t) as [mz ez'] eqn:E. cbn [fst snd] in He, Hm.
  assert (Ht : -1074 <= t) by (unfold t, fexp64; lia).
  pose proof (pow2_pos (ez + 1074) ltac:(lia)) as Hp.
  pose proof (pow2_pos (ez' + 1074) ltac:(lia)) as Hp'.
  assert (Hval : Zpos s * 2 ^ (ez + 1074) = Zpos mz * (1 * 2 ^ (ez' + 1074))).
  { rewrite Hm, Z.mul_1_l, <- Z.mul_assoc, <- pow2_split by lia.
    f_equal. f_equal. lia. }
  assert (G1 : 1 <= Zpos s * 2 ^ (ez + 1074)) by nia.
  assert (G2 : ez' <= fexp64 (Zdigits2 (Zpos mz) + ez')).
  { rewrite Hm, Zdigits2_shift by lia. cbn [Zdigits2].
    replace (Zpos (digits2_pos s) + (ez - ez') + ez')
      with (Zpos (digits2_pos s) + ez) by lia.
    fold t. lia. }
  assert (G3 : brk (Zpos s * 2 ^ (ez + 1074)) (1 * 2 ^ (ez' + 1074))
                 (shr_record_of_loc (Zpos mz) loc_Exact)).
  { rewrite Hval. apply brk_exact; lia. }
  apply (bra_correct (Zpos s * 2 ^ (ez + 1074)) 1 (Zpos mz) ez' loc_Exact);
    try assumption; lia.
Qed.

Lemma RND_ONE : RND ONE 1 = ONE.
Proof. vm_compute. reflexivity. Qed.

Lemma RND_top : RND (ONE + Dmax) 1 = Dmax.
Proof. vm_compute. reflexivity. Qed.

Lemma U_bounded : forall m e, bounded 53 1024 m e = true ->
  0 < Zpos m * 2 ^ (e + 1074) <= Dmax.
Proof.
  intros m e H. destruct (bounded_facts m e H) as [[He1 He2] [[Hm1 Hm2] _]].
  pose proof (pow2_pos (e + 1074) ltac:(lia)) as Hp.
  assert (2 ^ (e + 1074) <= 2 ^ 2045) by (apply Z.pow_le_mono_r; lia).
  unfold Dmax. nia.
Qed.

Lemma U_nonneg_finite : forall d, nonneg_finite d = true -> 0 <= U d <= Dmax.
Proof.
  assert (H0 : 0 <= Dmax) by (vm_compute; discriminate).
  intros [s| | |[|] m e] H; cbn [nonneg_finite] in H; try discriminate H;
    cbn [U]; [lia|].
  pose proof (U_bounded m e H). lia.
Qed.

(** [1.0 + d] *)
Lemma fadd_one_correct : forall d, nonneg_finite d = true ->
  exists m e, SFadd 53 1024 one d = S754_finite false m e
    /\ bounded 53 1024 m e = true
    /\ Zpos m * 2 ^ (e + 1074) = RND (ONE + U d) 1.
Proof.
  intros d Hd. pose proof (U_nonneg_finite d Hd) as HU.
  assert (Hov : RND (ONE + U d) 1 < 2 ^ 2098).
  { eapply Z.le_lt_trans; [apply (RND_mono _ 1 (ONE + Dmax) 1)|];
      try lia; try (unfold ONE; pose proof (pow2_pos 1074); lia).
    rewrite RND_top. vm_compute. reflexivity. }
  destruct d as [s| | |[|] m e]; cbn [nonneg_finite] in Hd;
    try discriminate Hd.
  - exists 4503599627370496%positive, (-52). split; [reflexivity|].
    split; [reflexivity|]. cbn [U]. rewrite Z.add_0_r, RND_ONE. reflexivity.
  - destruct (bounded_facts m e Hd) as [[He1 He2] _].
    cbn [U] in *. unfold one, SFadd. cbn [cond_Zopp].
    set (ez := Z.min (-52) e).
    destruct (shl_align_spec 4503599627370496 (-52) ez) as [Ha1 Ha2].
    destruct (shl_align_spec m e ez) as [Hb1 Hb2].
    set (a := shl_align 4503599627370496 (-52) ez) in *.
    set (b := shl_align m e ez) in *.
    change (Zpos (fst a) + Zpos (fst b)) with (Zpos (fst a + fst b)).
    cbn [binary_normalize].
    assert (Hez : -1074 <= ez) by (unfold ez; lia).
    assert (Hs : Zpos (fst a + fst b) * 2 ^ (ez + 1074)
                 = ONE + Zpos m * 2 ^ (e + 1074)).
    { rewrite Pos2Z.inj_add, Ha2, Hb2, Ha1, Hb1.
      replace (Z.min (-52) ez) with ez by (unfold ez; lia).
      replace (Z.min e ez) with ez by (unfold ez; lia).
      rewrite Z.mul_add_distr_r, <- !Z.mul_assoc, <- !pow2_split
        by (unfold ez; lia).
      replace (-52 - ez + (ez + 1074)) with 1022 by lia.
      replace (e - ez + (ez + 1074)) with (e + 1074) by lia.
      f_equal. }
    destruct (binary_round_correct (fst a + fst b) ez Hez)
      as [m' [e' [Hr [He' [Hv Hb]]]]].
    + rewrite Hs. exact Hov.
    + exists m', e'. rewrite Hr, Hv, Hs. auto.
Qed.

(** The location of a remainder. *)
Lemma brk_div_eucl : forall q r mx C,
  0 < C -> 0 < mx -> 0 <= r < mx -> 0 <= q ->
  brk ((mx * q + r) * C) (mx * C) (shr_record_of_loc q (new_location mx r)).
Proof.
  intros q r mx C HC Hmx Hr Hq. unfold new_location.
  destruct (Z.even mx) eqn:Hev.
  - unfold new_location_even. destruct (Z.eqb_spec r 0) as [->|Hr0].
    + cbn [shr_record_of_loc]. unfold brk. cbn [shr_m shr_r shr_s].
      repeat split; nia.
    + destruct (Z.compare_spec (2 * r) mx) as [Hc|Hc|Hc];
        cbn [shr_record_of_loc]; unfold brk; cbn [shr_m shr_r shr_s];
        repeat split; nia.
  - unfold new_location_odd. destruct (Z.eqb_spec r 0) as [->|Hr0].
    + cbn [shr_record_of_loc]. unfold brk. cbn [shr_m shr_r shr_s].
      repeat split; nia.
    + assert (Hodd : 2 * r <> mx).
      { intro E. rewrite <- E, Z.even_mul in Hev. discriminate. }
      destruct (Z.compare_spec (2 * r + 1) mx) as [Hc|Hc|Hc];
        cbn [shr_record_of_loc]; unfold brk; cbn [shr_m shr_r shr_s];
        repeat split; nia.
Qed.

Lemma RND_recip_ONE : RND (2 ^ 2148) ONE = ONE.
Proof. vm_compute. reflexivity. Qed.

(** [1.0 / x] for a binary64 [x >= 1]. *)
Lemma fdiv_one_correct : forall mx ex,
  bounded 53 1024 mx ex = true -> ONE <= Zpos mx * 2 ^ (ex + 1074) ->
  exists m e, SFdiv 53 1024 one (S754_finite false mx ex) = S754_finite false m e
    /\ bounded 53 1024 m e = true
    /\ Zpos m * 2 ^ (e + 1074) = RND (2 ^ 2148) (Zpos mx * 2 ^ (ex + 1074)).
Proof.
  intros mx ex Hb HX.
  destruct (bounded_facts mx ex Hb) as [[He1 He2] [[Hm1 Hm2] Hnorm]].
  pose proof (pow2_pos (ex + 1074) ltac:(lia)) as Hpx.
  set (X := Zpos mx * 2 ^ (ex + 1074)) in *.
  (* x >= 1 is a normal number with exponent at least -52 *)
  assert (Hex : -52 <= ex).
  { destruct (Z_le_gt_dec (-52) ex) as [H|H]; [exact H|]. exfalso.
    assert (2 ^ (ex + 1074) <= 2 ^ 1021) by (apply Z.pow_le_mono_r; lia).
    assert (X < 2 ^ 53 * 2 ^ 1021) by (unfold X; nia).
    change (2 ^ 53 * 2 ^ 1021) with ONE in *. lia. }
  assert (Hm52 : 2 ^ 52 <= Zpos mx) by (apply Hnorm; lia).
  assert (Hd2 : Zdigits2 (Zpos mx) = 53) by (apply Zdigits2_unique; lia).
  assert (HXhi : X <= 2 ^ 2148).
  { assert (2 ^ (ex + 1074) <= 2 ^ 2045) by (apply Z.pow_le_mono_r; lia).
    assert (X <= 2 ^ 53 * 2 ^ 2045) by (unfold X; nia).
    assert (2 ^ 53 * 2 ^ 2045 <= 2 ^ 2148) by (vm_compute; discriminate).
    lia. }
  assert (Hov : RND (2 ^ 2148) X < 2 ^ 2098).
  { assert (H1 : 0 < ONE) by (vm_compute; reflexivity).
    assert (H2 : ONE <= 2 ^ 2148) by (vm_compute; discriminate).
    assert (H3 : 2 ^ 2148 * ONE <= 2 ^ 2148 * X).
    { apply Z.mul_le_mono_nonneg_l; [apply Z.pow_nonneg; lia | exact HX]. }
    assert (H4 : 0 < X) by lia.
    pose proof (RND_mono (2 ^ 2148) X (2 ^ 2148) ONE H4 H1 HXhi H2 H3) as H5.
    rewrite RND_recip_ONE in H5.
    assert (H6 : ONE < 2 ^ 2098) by (vm_compute; reflexivity).
    eapply Z.le_lt_trans; [exact H5 | exact H6]. }
  unfold one, SFdiv, SFdiv_core_binary. rewrite fexp_64, Hd2.
  change (Zdigits2 (Zpos 4503599627370496)) with 53.
  set (e' := Z.min (fexp64 (53 + -52 - (53 + ex))) (-52 - ex)).
  assert (He' : e' = Z.max (-105 - ex) (-1074)) by (unfold e', fexp64; lia).
  set (s := -52 - ex - e').
  assert (Hs : 51 <= s <= 53) by (unfold s; lia).
  destruct s as [|sp|sp] eqn:Es; try lia. rewrite <- Es in *.
  rewrite Z.shiftl_mul_pow2 by lia.
  pose proof (Z_div_mod (Zpos 4503599627370496 * 2 ^ s) (Zpos mx) ltac:(lia)) as Hdm.
  destruct (Z.div_eucl (Zpos 4503599627370496 * 2 ^ s) (Zpos mx)) as [q r].
  destruct Hdm as [Hdm Hr]. cbn [xorb].
  pose proof (pow2_pos s ltac:(lia)) as Hps.
  pose proof (pow2_pos (s - 1) ltac:(lia)) as Hps1.
  assert (Hs2 : 2 ^ s = 2 * 2 ^ (s - 1)).
  { replace s with (Z.succ (s - 1)) at 1 by lia. apply Z.pow_succ_r. lia. }
  change (Zpos 4503599627370496) with (2 ^ 52) in *.
  assert (Hq : 2 ^ (s - 1) <= q) by nia.
  assert (Hq0 : 0 < q) by lia.
  assert (Hdq : s <= Zdigits2 q).
  { destruct (Zdigits2_bounds q Hq0) as [_ [_ Hhi]].
    destruct (Z_le_gt_dec s (Zdigits2 q)) as [H|H]; [exact H|]. exfalso.
    assert (2 ^ Zdigits2 q <= 2 ^ (s - 1)) by (apply Z.pow_le_mono_r; lia).
    lia. }
  pose proof (pow2_pos (e' + 1074) ltac:(lia)) as Hpe.
  set (C := 2 ^ (ex + 1074) * 2 ^ (e' + 1074)).
  assert (HC : 0 < C) by (unfold C; nia).
  assert (HN : 2 ^ 2148 = (Zpos mx * q + r) * C).
  { rewrite <- Hdm. unfold C.
    rewrite <- !pow2_split by lia. f_equal. unfold s. lia. }
  assert (HD : X * 2 ^ (e' + 1074) = Zpos mx * C) by (unfold X, C; ring).
  assert (G1 : e' <= fexp64 (Zdigits2 q + e')) by (unfold fexp64; lia).
  assert (G2 : brk (2 ^ 2148) (X * 2 ^ (e' + 1074))
                 (shr_record_of_loc q (new_location (Zpos mx) r))).
  { rewrite HN, HD. apply brk_div_eucl; lia. }
  destruct (bra_correct (2 ^ 2148) X q e' (new_location (Zpos mx) r))
    as [m [e [Hr' [_ [Hv Hbd]]]]]; try assumption; try lia.
  exists m, e. auto.
Qed.

Lemma U_finite : forall m e, U (S754_finite false m e) = Zpos m * 2 ^ (e + 1074).
Proof. reflexivity. Qed.

(** On non-negative finite numbers [SFcompare] compares values. *)
Lemma SFcompare_U : forall x y,
  nonneg_finite x = true -> nonneg_finite y = true ->
  SFcompare x y = Some (U x ?= U y).
Proof.
  intros [sx| | |[|] mx ex] [sy| | |[|] my ey] Hx Hy;
    cbn [nonneg_finite] in Hx, Hy; try discriminate Hx; try discriminate Hy.
  - reflexivity.
  - pose proof (U_bounded my ey Hy) as [H _]. cbn [SFcompare U].
    symmetry. f_equal. apply Z.compare_lt_iff. exact H.
  - pose proof (U_bounded mx ex Hx) as [H _]. cbn [SFcompare U].
    symmetry. f_equal. apply Z.compare_gt_iff. exact H.
  - destruct (bounded_facts mx ex Hx) as [[Hx1 Hx2] [[Hx3 Hx4] Hx5]].
    destruct (bounded_facts my ey Hy) as [[Hy1 Hy2] [[Hy3 Hy4] Hy5]].
    pose proof (pow2_pos (ex + 1074) ltac:(lia)) as Hpx.
    pose proof (pow2_pos (ey + 1074) ltac:(lia)) as Hpy.
    cbn [SFcompare U]. f_equal. symmetry.
    destruct (Z.compare_spec ex ey) as [He|He|He].
    + subst ey. rewrite Pos.compare_cont_spec. cbn [Pos.switch_Eq].
      change (mx ?= my)%positive with (Zpos mx ?= Zpos my).
      destruct (Z.compare_spec (Zpos mx) (Zpos my)) as [Hc|Hc|Hc].
      * rewrite Hc. apply Z.compare_refl.
      * apply Z.compare_lt_iff. nia.
      * apply Z.compare_gt_iff. nia.
    + apply Z.compare_lt_iff.
      assert (H1 : 2 ^ (ey + 1074) = 2 ^ (ey - ex) * 2 ^ (ex + 1074))
        by (rewrite <- pow2_split by lia; f_equal; lia).
      assert (H2 : 2 ^ 1 <= 2 ^ (ey - ex)) by (apply Z.pow_le_mono_r; lia).
      specialize (Hy5 ltac:(lia)). rewrite H1.
      change (2 ^ 1) with 2 in H2. change (2 ^ 53) with (2 * 2 ^ 52) in *.
      nia.
    + apply Z.compare_gt_iff.
      assert (H1 : 2 ^ (ex + 1074) = 2 ^ (ex - ey) * 2 ^ (ey + 1074))
        by (rewrite <- pow2_split by lia; f_equal; lia).
      assert (H2 : 2 ^ 1 <= 2 ^ (ex - ey)) by (apply Z.pow_le_mono_r; lia).
      specialize (Hx5 ltac:(lia)). rewrite H1.
      change (2 ^ 1) with 2 in H2. change (2 ^ 53) with (2 * 2 ^ 52) in *.
      nia.
Qed.

Lemma SFleb_U : forall x y,
  nonneg_finite x = true -> nonneg_finite y = true ->
  SFleb x y = (U x <=? U y).
Proof.
  intros x y Hx Hy. unfold SFleb. rewrite (SFcompare_U x y Hx Hy).
  unfold Z.leb. destruct (U x ?= U y); reflexivity.
Qed.

Lemma SFltb_U : forall x y,
  nonneg_finite x = true -> nonneg_finite y = true ->
  SFltb x y = (U x <? U y).
Proof.
  intros x y Hx Hy. unfold SFltb. rewrite (SFcompare_U x y Hx Hy).
  unfold Z.ltb. destruct (U x ?= U y); reflexivity.
Qed.

Lemma ONE_pos : 0 < ONE.
Proof. vm_compute. reflexivity. Qed.

Lemma denominator_bounds : forall D, 0 <= D <= Dmax ->
  ONE <= RND (ONE + D) 1 <= Dmax.
Proof.
  intros D HD. pose proof ONE_pos. split.
  - pose proof (RND_mono ONE 1 (ONE + D) 1) as Hm.
    rewrite RND_ONE in Hm. apply Hm; lia.
  - pose proof (RND_mono (ONE + D) 1 (ONE + Dmax) 1) as Hm.
    rewrite RND_top in Hm. apply Hm; lia.
Qed.

Lemma denominator_mono : forall D1 D2, 0 <= D1 <= D2 ->
  RND (ONE + D1) 1 <= RND (ONE + D2) 1.
Proof. intros D1 D2 H. pose proof ONE_pos. apply RND_mono; lia. Qed.

Lemma Dmax_small : Dmax <= 2 ^ 2148.
Proof. vm_compute. discriminate. Qed.

Lemma RND_recip_top : 0 < RND (2 ^ 2148) Dmax.
Proof. vm_compute. reflexivity. Qed.

Lemma recip_mono : forall X1 X2, ONE <= X1 -> X1 <= X2 -> X2 <= Dmax ->
  RND (2 ^ 2148) X2 <= RND (2 ^ 2148) X1.
Proof.
  intros X1 X2 H1 H2 H3. pose proof ONE_pos. pose proof Dmax_small.
  apply RND_mono; lia.
Qed.

Lemma score_value_bounds : forall D, 0 <= D <= Dmax ->
  0 < score_value D <= ONE.
Proof.
  intros D HD. destruct (denominator_bounds D HD) as [H1 H2].
  unfold score_value. split.
  - eapply Z.lt_le_trans; [exact RND_recip_top|]. apply recip_mono; lia.
  - pose proof (recip_mono ONE (RND (ONE + D) 1) (Z.le_refl _) H1 H2) as H.
    rewrite RND_recip_ONE in H. exact H.
Qed.

Lemma score_value_mono : forall D1 D2, 0 <= D1 -> D1 <= D2 -> D2 <= Dmax ->
  score_value D2 <= score_value D1.
Proof.
  intros D1 D2 H0 H1 H2. unfold score_value.
  destruct (denominator_bounds D1 ltac:(lia)).
  destruct (denominator_bounds D2 ltac:(lia)).
  apply recip_mono; try lia. apply denominator_mono. lia.
Qed.

(** [1 / (1 + d)] in binary64. *)
Lemma score_correct : forall d, nonneg_finite d = true ->
  exists x s, SFadd 53 1024 one d = x
    /\ nonneg_finite x = true /\ 0 < U x
    /\ SFdiv 53 1024 one x = s
    /\ nonneg_finite s = true /\ U s = score_value (U d).
Proof.
  intros d Hd. pose proof (U_nonneg_finite d Hd) as HU.
  destruct (fadd_one_correct d Hd) as [mx [ex [Hadd [Hbx Hvx]]]].
  destruct (denominator_bounds (U d) HU) as [Hx1 Hx2].
  pose proof ONE_pos.
  destruct (fdiv_one_correct mx ex Hbx) as [m [e [Hdiv [Hb Hv]]]];
    [rewrite Hvx; exact Hx1|].
  exists (S754_finite false mx ex), (S754_finite false m e).
  rewrite Hadd, Hdiv. cbn [nonneg_finite U].
  rewrite Hvx in *. unfold score_value. repeat split; auto. lia.
Qed.

End Binary64Facts.

(* ================================================================== *)
(** * The similarity score's claims *)
(* ================================================================== *)

Module ScoreClaims.
Import PyNum Rag Binary64 Binary64Facts.
Local Open Scope Z_scope.

Lemma of_int_1 : of_int 1 = one.
Proof. reflexivity. Qed.

Lemma of_int_0 : of_int 0 = S754_zero false.
Proof. reflexivity. Qed.

(** [score_of] on a finite non-negative distance: it returns, and the
    result is the rounded quotient. *)
Lemma score_of_returns : forall d, nonneg_finite d = true ->
  exists s, score_of d = Ret s /\ nonneg_finite s = true
    /\ U s = score_value (U d).
Proof.
  intros d Hd. destruct (score_correct d Hd) as [x [s [Hx [Hnx [Hpos [Hs [Hns HU]]]]]]].
  exists s. unfold score_of, fadd, fdiv, prec, emax. rewrite of_int_1, Hx.
  destruct x as [sx| | |sgn m e]; cbn [U] in Hpos; try lia.
  cbn [is_zero]. rewrite Hs. auto.
Qed.

(** C9 as it is stated fails in binary64: the distances 0 and 2^-60 are
    different and both get the score 1.0, so the score is not strictly
    decreasing; and the distance +infinity gets the score 0.0, which is
    outside (0, 1]. *)
Lemma score_of_not_strictly_decreasing :
  nonneg_finite (of_int 0) = true
  /\ nonneg_finite tiny = true
  /\ fltb (of_int 0) tiny = true
  /\ score_of (of_int 0) = Ret (of_int 1)
  /\ score_of tiny = Ret (of_int 1)
  /\ score_of (S754_infinity false) = Ret (S754_zero false).
Proof. repeat split; vm_compute; reflexivity. Qed.

(** C9 (amended): for every finite non-negative binary64 distance [d] the
    score is [1 / (1 + d)] computed in binary64, that is with the sum and the
    quotient each rounded to nearest even: [score_of] returns a finite
    number whose value is [score_value], it is greater than 0 and at most
    1.0, and it does not increase when the distance grows. It is 1.0 at
    distance 0 and 0.5 at distance 1. *)
Theorem score_of_binary64 :
  (forall d, nonneg_finite d = true ->
     exists s, score_of d = Ret s /\ nonneg_finite s = true
       /\ U s = score_value (U d)
       /\ fltb (of_int 0) s = true /\ fleb s (of_int 1) = true)
  /\ (forall d1 d2,
        nonneg_finite d1 = true -> nonneg_finite d2 = true ->
        fleb d1 d2 = true ->
        exists s1 s2, score_of d1 = Ret s1 /\ score_of d2 = Ret s2
          /\ fleb s2 s1 = true)
  /\ score_of (of_int 0) = Ret (of_int 1)
  /\ score_of (of_int 1) = Ret f0_5.
Proof.
  split; [|split; [|split; vm_compute; reflexivity]].
  - intros d Hd. destruct (score_of_returns d Hd) as [s [Hs [Hn HU]]].
    exists s. split; [exact Hs|]. split; [exact Hn|]. split; [exact HU|].
    destruct (score_value_bounds (U d) (U_nonneg_finite d Hd)) as [Hlo Hhi].
    unfold fltb, fleb. rewrite of_int_0, of_int_1.
    rewrite SFltb_U, SFleb_U by (assumption || reflexivity).
    rewrite HU. change (U (S754_zero false)) with 0. change (U one) with ONE.
    split; [apply Z.ltb_lt | apply Z.leb_le]; assumption.
  - intros d1 d2 H1 H2 Hle.
    destruct (score_of_returns d1 H1) as [s1 [Hs1 [Hn1 HU1]]].
    destruct (score_of_returns d2 H2) as [s2 [Hs2 [Hn2 HU2]]].
    exists s1, s2. split; [exact Hs1|]. split; [exact Hs2|].
    unfold fleb in *. rewrite SFleb_U in * by assumption.
    apply Z.leb_le in Hle. apply Z.leb_le. rewrite HU1, HU2.
    destruct (U_nonneg_finite d1 H1). destruct (U_nonneg_finite d2 H2).
    apply score_value_mono; assumption.
Qed.

(** The distances 0 and 1. *)
Lemma score_of_binary64_witness :
  nonneg_finite (of_int 0) = true
  /\ nonneg_finite (of_int 1) = true
  /\ fleb (of_int 0) (of_int 1) = true
  /\ exists s1 s2, score_of (of_int 0) = Ret s1 /\ score_of (of_int 1) = Ret s2
       /\ fleb s2 s1 = true.
Proof.
  assert (H0 : nonneg_finite (of_int 0) = true) by reflexivity.
  assert (H1 : nonneg_finite (of_int 1) = true) by reflexivity.
  assert (Hle : fleb (of_int 0) (of_int 1) = true) by reflexivity.
  split; [exact H0|]. split; [exact H1|]. split; [exact Hle|].
  exact (proj1 (proj2 score_of_binary64) (of_int 0) (of_int 1) H0 H1 Hle).
Defined.

End ScoreClaims.

(* ================================================================== *)
(** * Further properties of the sanitizer *)
(* ================================================================== *)

Module SanitizerMore.
Import PyStr ET Sanitizer SanitizerSpec SanitizerFacts SanitizeSvgFacts.
Import SanitizerProps.

Lemma lower_char_idempotent : forall c, lower_char (lower_char c) = lower_char c.
Proof. intros [[] [] [] [] [] [] [] []]; reflexivity. Qed.

Lemma lower_idempotent : forall s, lower (lower s) = lower s.
Proof.
  induction s as [|c s IH]; [reflexivity|].
  cbn [lower]. now rewrite lower_char_idempotent, IH.
Qed.

(** A lower-cased name is equal to none of the mixed-case entries. *)
Lemma mem_lower_entries : forall n l,
  mem (lower n) l = mem (lower n) (filter (fun x => String.eqb (lower x) x) l).
Proof.
  intros n l. unfold mem. induction l as [|x l IH]; [reflexivity|].
  cbn [filter existsb]. destruct (String.eqb (lower x) x) eqn:Hx.
  - cbn [existsb]. now rewrite IH.
  - destruct (String.eqb (lower n) x) eqn:Hn; [|exact IH].
    apply String.eqb_eq in Hn. rewrite <- Hn, lower_idempotent in Hx.
    now rewrite String.eqb_refl in Hx.
Qed.

(** The allow-list is compared with the lower-cased name, so the entries
    [linearGradient], [radialGradient] and [clipPath] match no element:
    every element left below the root has a lower-cased name among the
    all-lowercase entries, and none is named as one of those three entries
    is written. *)
Theorem mixed_case_entries_match_nothing :
  forall root e',
    In e' (descendants (_sanitize_element root)) ->
    mem (lower (strip_namespace (tag e'))) lowercase_entries = true
    /\ ~ In (strip_namespace (tag e')) mixed_case_entries
    /\ mixed_case_entries = ["linearGradient"; "radialGradient"; "clipPath"].
Proof.
  intros root e' Hin. apply descendants_sanitize_allowed in Hin.
  unfold allowed in Hin. split; [|split; [|reflexivity]].
  - unfold lowercase_entries. now rewrite <- mem_lower_entries.
  - intro Hmixed.
    change mixed_case_entries
      with ["linearGradient"; "radialGradient"; "clipPath"] in Hmixed.
    destruct Hmixed as [H|[H|[H|[]]]]; rewrite <- H in Hin; discriminate Hin.
Qed.

Lemma mixed_case_entries_match_nothing_witness :
  ETCodec.fromstring (_normalize_namespaces (strip gradient_document))
  = Parsed gradient_tree
  /\ In (mkElement (SVG +++ "RECT") [] None None [])
        (descendants (_sanitize_element gradient_tree))
  /\ allowed (mkElement (SVG +++ "linearGradient") [] None None []) = false
  /\ mem (lower (strip_namespace (SVG +++ "RECT"))) lowercase_entries = true
  /\ ~ In (strip_namespace (SVG +++ "RECT")) mixed_case_entries.
Proof.
  assert (Hin : In (mkElement (SVG +++ "RECT") [] None None [])
                   (descendants (_sanitize_element gradient_tree)))
    by (cbn; right; left; reflexivity).
  split; [vm_compute; reflexivity|]. split; [exact Hin|].
  split; [vm_compute; reflexivity|].
  destruct (mixed_case_entries_match_nothing gradient_tree _ Hin) as [H1 [H2 _]].
  split; [exact H1 | exact H2].
Defined.

(** *** A second pass over the tree *)

Lemma filter_all : forall (A : Type) (f : A -> bool) (l : list A),
  (forall x, In x l -> f x = true) -> filter f l = l.
Proof.
  intros A f l H. induction l as [|x l IH]; [reflexivity|].
  cbn [filter]. rewrite (H x (or_introl eq_refl)).
  f_equal. apply IH. intros y Hy. apply H. now right.
Qed.

Lemma filter_none : forall (A : Type) (f : A -> bool) (l : list A),
  (forall x, In x l -> f x = false) -> filter f l = [].
Proof.
  intros A f l H. induction l as [|x l IH]; [reflexivity|].
  cbn [filter]. rewrite (H x (or_introl eq_refl)).
  apply IH. intros y Hy. apply H. now right.
Qed.

(** No attribute that was kept is removed by a second pass. *)
Lemma kept_attrib_idempotent : forall a, kept_attrib (kept_attrib a) = kept_attrib a.
Proof.
  intro a. unfold kept_attrib at 1.
  rewrite (filter_none _ (fun kv => dangerous_attr (fst kv) (snd kv))
             (kept_attrib a)).
  - cbn [map]. unfold del_all. apply filter_all. reflexivity.
  - intros [k v] Hkv. apply kept_attrib_safe in Hkv. exact (proj2 Hkv).
Qed.

Lemma kept_text_settled : forall t a tx tl cs,
  css_settled_at (mkElement t a tx tl cs) = true ->
  kept_text t (kept_text t tx) = kept_text t tx.
Proof.
  intros t a [s|] tl cs H; [|reflexivity].
  unfold css_settled_at, is_style in H. cbn [text tag] in H.
  unfold kept_text.
  destruct (String.eqb (lower (strip_namespace t)) "style");
    cbn [andb negb orb] in *; [|reflexivity].
  destruct (truthy s) eqn:Hs.
  - apply String.eqb_eq in H.
    destruct (truthy (_sanitize_css s)); [now rewrite H | reflexivity].
  - now rewrite Hs.
Qed.

Lemma css_settled_child : forall t a tx tl cs c,
  css_settled (mkElement t a tx tl cs) = true -> In c cs ->
  css_settled c = true.
Proof.
  intros t a tx tl cs c H Hc. unfold css_settled in *.
  rewrite iter_unfold in H. cbn [forallb children] in H.
  apply andb_true_iff in H. destruct H as [_ H].
  rewrite forallb_forall in H. apply forallb_forall.
  intros x Hx. apply H. apply in_flat_map. exists c. split; assumption.
Qed.

(** Sanitizing a sanitized tree changes nothing, provided that the style
    sheets of the tree are rewritten to texts that [_sanitize_css] leaves
    alone: no element and no attribute is removed by the second pass. *)
Theorem sanitize_element_twice :
  forall root,
    css_settled root = true ->
    _sanitize_element (_sanitize_element root) = _sanitize_element root.
Proof.
  intro root. induction root as [t a tx tl cs IH] using Element_rect'.
  intro H. rewrite !sanitize_unfold. f_equal.
  - apply kept_attrib_idempotent.
  - apply (kept_text_settled t a tx tl cs).
    unfold css_settled in H. rewrite iter_unfold in H. cbn [forallb] in H.
    apply andb_true_iff in H. exact (proj1 H).
  - rewrite filter_all.
    + rewrite map_map. apply map_ext_in. intros c Hc.
      apply filter_In in Hc. destruct Hc as [Hc _].
      rewrite Forall_forall in IH. apply (IH c Hc).
      exact (css_settled_child t a tx tl cs c H Hc).
    + intros c' Hc'. apply in_map_iff in Hc'. destruct Hc' as [c [<- Hc]].
      apply filter_In in Hc. rewrite allowed_sanitize. exact (proj2 Hc).
Qed.

Lemma sanitize_element_twice_witness :
  css_settled styled_tree = true
  /\ _sanitize_element styled_tree
     = mkElement "svg" [("id", "a")] None None
         [ mkElement "style" [] (Some "a{b:}") None [];
           mkElement "g" [] (Some "t") None
             [mkElement "rect" [] None None []] ]
  /\ _sanitize_element (_sanitize_element styled_tree)
     = _sanitize_element styled_tree.
Proof.
  assert (H : css_settled styled_tree = true) by (vm_compute; reflexivity).
  split; [exact H|]. split; [vm_compute; reflexivity|].
  exact (sanitize_element_twice styled_tree H).
Defined.

(** *** The tree only shrinks *)

Lemma length_flat_map_sanitize : forall cs,
  Forall (fun c => List.length (iter (_sanitize_element c))
                   <= List.length (iter c)) cs ->
  List.length (flat_map iter (map _sanitize_element (filter allowed cs)))
  <= List.length (flat_map iter cs).
Proof.
  intros cs H. induction H as [|c cs Hc _ IH]; [apply le_n|].
  cbn [filter flat_map]. rewrite length_app.
  destruct (allowed c); [cbn [map flat_map]; rewrite length_app|]; lia.
Qed.

(** [_sanitize_element] adds nothing: the sanitized tree has at most as many
    elements as the tree it was given, and every tag in it is the tag of an
    element of that tree. *)
Theorem sanitize_element_only_removes :
  forall root,
    List.length (iter (_sanitize_element root)) <= List.length (iter root)
    /\ incl (map tag (iter (_sanitize_element root))) (map tag (iter root)).
Proof.
  intro root. split.
  - induction root as [t a tx tl cs IH] using Element_rect'.
    rewrite (iter_unfold (_sanitize_element _)), sanitize_children.
    rewrite (iter_unfold (mkElement t a tx tl cs)).
    cbn [children List.length]. apply le_n_S.
    apply length_flat_map_sanitize. exact IH.
  - intros x Hx. apply in_map_iff in Hx. destruct Hx as [e' [<- He']].
    apply in_iter_sanitize in He'. destruct He' as [e [He ->]].
    rewrite sanitize_tag. apply in_map. exact He.
Qed.

(** *** [_sanitize_css] *)

Lemma lower_drop : forall n s, lower (drop n s) = drop n (lower s).
Proof.
  induction n as [|n IH]; intros [|c s]; cbn [drop lower]; try reflexivity.
  apply IH.
Qed.

Lemma contains_tail : forall sub c s,
  contains sub (String c s) = false -> contains sub s = false.
Proof.
  intros sub c s H. cbn [contains] in H. apply orb_false_iff in H.
  exact (proj2 H).
Qed.

Lemma contains_head : forall sub s,
  contains sub s = false -> startswith sub s = false.
Proof.
  intros sub [|c s] H; cbn [contains] in H; apply orb_false_iff in H;
    exact (proj1 H).
Qed.

(** Substitution with a pattern that matches nowhere. *)
Lemma re_sub_no_match : forall matcher word s,
  (forall x, startswith word (lower x) = false -> matcher x = None) ->
  contains word (lower s) = false ->
  re_sub matcher 0 s = s.
Proof.
  intros matcher word s Hm. induction s as [|c s IH]; intro H; [reflexivity|].
  cbn [re_sub]. rewrite (Hm (String c s) (contains_head _ _ H)).
  f_equal. apply IH. cbn [lower] in H. exact (contains_tail _ _ _ H).
Qed.

(** A style sheet in which neither the word [expression] nor the word
    [url] occurs, in any case, is returned as it is. *)
Theorem sanitize_css_keeps_plain_css :
  forall css,
    contains "expression" (lower css) = false ->
    contains "url" (lower css) = false ->
    _sanitize_css css = css.
Proof.
  intros css He Hu. unfold _sanitize_css.
  rewrite (re_sub_no_match _ "expression" css); [|
    intros x Hx; unfold match_expression; now rewrite Hx | exact He].
  apply (re_sub_no_match _ "url"); [|exact Hu].
  intros x Hx. unfold match_url. now rewrite Hx.
Qed.

Lemma sanitize_css_keeps_plain_css_witness :
  contains "expression" (lower "rect { fill: RED; }") = false
  /\ contains "url" (lower "rect { fill: RED; }") = false
  /\ _sanitize_css "rect { fill: RED; }" = "rect { fill: RED; }".
Proof.
  assert (He : contains "expression" (lower "rect { fill: RED; }") = false)
    by reflexivity.
  assert (Hu : contains "url" (lower "rect { fill: RED; }") = false)
    by reflexivity.
  split; [exact He|]. split; [exact Hu|].
  exact (sanitize_css_keeps_plain_css "rect { fill: RED; }" He Hu).
Defined.

Lemma length_append : forall a b,
  String.length (a +++ b) = String.length a + String.length b.
Proof. induction a as [|c a IH]; intro b; cbn; [reflexivity | now rewrite IH]. Qed.

Lemma length_substring_le : forall n m s, String.length (substring n m s) <= m.
Proof.
  induction n as [|n IH]; intros m s.
  - revert s. induction m as [|m IHm]; intros [|c s]; cbn; try lia.
    specialize (IHm s). lia.
  - destruct s as [|c s]; cbn; [lia | apply IH].
Qed.

(** Substitution never lengthens the text, when a replacement is no longer
    than the match it stands for and a match lies within the text. *)
Lemma length_re_sub : forall matcher,
  (forall x n r, matcher x = Some (n, r) ->
     String.length r <= n /\ n <= String.length x) ->
  forall s skip,
    String.length (re_sub matcher skip s) + Nat.min skip (String.length s)
    <= String.length s.
Proof.
  intros matcher Hm. induction s as [|c s IH]; intro skip.
  - destruct skip; cbn; lia.
  - destruct skip as [|k].
    + cbn [re_sub]. destruct (matcher (String c s)) as [[[|n] r]|] eqn:E.
      * cbn. specialize (IH 0). cbn in IH. lia.
      * apply Hm in E. cbn [String.length] in E.
        rewrite length_append. specialize (IH n).
        cbn [String.length Nat.min]. lia.
      * cbn. specialize (IH 0). cbn in IH. lia.
    + cbn [re_sub String.length Nat.min]. specialize (IH k). lia.
Qed.

Lemma length_after_close : forall s rest,
  after_close s = Some rest -> String.length rest < String.length s.
Proof.
  induction s as [|c s IH]; intros rest H; [discriminate|].
  cbn [after_close] in H. destruct (Ascii.eqb c ")").
  - injection H as <-. cbn. lia.
  - apply IH in H. cbn. lia.
Qed.

Lemma length_lstrip : forall s, String.length (lstrip s) <= String.length s.
Proof.
  induction s as [|c s IH]; [apply le_n|].
  cbn [lstrip]. destruct (isspace c); cbn; lia.
Qed.

Lemma length_drop : forall n s, String.length (drop n s) <= String.length s.
Proof.
  induction n as [|n IH]; intros [|c s]; cbn; try lia.
  specialize (IH s). lia.
Qed.

(** [_sanitize_css] only takes text away: its result is never longer than
    the style sheet it was given. *)
Theorem sanitize_css_never_longer :
  forall css, String.length (_sanitize_css css) <= String.length css.
Proof.
  intro css. unfold _sanitize_css.
  set (m1 := fun s => option_map (fun n => (n, EmptyString)) (match_expression s)).
  set (m2 := fun s => option_map (sanitize_url s) (match_url s)).
  assert (H1 : forall x n r, m1 x = Some (n, r) ->
                 String.length r <= n /\ n <= String.length x).
  { intros x n r H. unfold m1, match_expression in H.
    destruct (startswith "expression" (lower x)); [|discriminate].
    destruct (lstrip (drop 10 x)) as [|c0 r0]; [discriminate|].
    destruct (Ascii.eqb c0 "(") eqn:Ec;
      [|destruct c0 as [[] [] [] [] [] [] [] []]; discriminate].
    apply Ascii.eqb_eq in Ec. subst c0.
    destruct (after_close r0) as [rest|]; [|discriminate].
    cbn in H. injection H as <- <-. cbn. lia. }
  assert (H2 : forall x n r, m2 x = Some (n, r) ->
                 String.length r <= n /\ n <= String.length x).
  { intros x n r H. unfold m2, match_url in H.
    destruct (startswith "url" (lower x)); [|discriminate].
    destruct (lstrip (drop 3 x)) as [|c0 r0]; [discriminate|].
    destruct (Ascii.eqb c0 "(") eqn:Ec;
      [|destruct c0 as [[] [] [] [] [] [] [] []]; discriminate].
    apply Ascii.eqb_eq in Ec. subst c0.
    destruct (after_close (lstrip r0)) as [rest|]; [|discriminate].
    cbn [option_map sanitize_url] in H.
    destruct (matches_dangerous_pattern _); injection H as <- <-.
    - cbn. lia.
    - split; [apply length_substring_le | lia]. }
  pose proof (length_re_sub m1 H1 css 0) as L1.
  pose proof (length_re_sub m2 H2 (re_sub m1 0 css) 0) as L2.
  cbn [Nat.min] in L1, L2. lia.
Qed.

(** *** [_normalize_namespaces] *)

Lemma startswith_append : forall p a b,
  startswith p a = true -> startswith p (a +++ b) = true.
Proof.
  induction p as [|c p IH]; intros [|d a] b H; cbn in *; try reflexivity;
    try discriminate.
  apply andb_true_iff in H. destruct H as [H1 H2].
  rewrite H1. cbn. now apply IH.
Qed.

Lemma contains_append : forall p a b,
  contains p a = true -> contains p (a +++ b) = true.
Proof.
  intros p a b. induction a as [|d a IH]; intro H.
  - cbn [contains] in H. rewrite orb_false_r in H.
    destruct p; [|discriminate]. destruct b; reflexivity.
  - cbn [contains] in H. apply orb_true_iff in H.
    change (String d a +++ b) with (String d (a +++ b)). cbn [contains].
    apply orb_true_iff. destruct H as [H|H].
    + left. now apply (startswith_append p (String d a) b).
    + right. now apply IH.
Qed.

Lemma contains_cons : forall p c s,
  contains p s = true -> contains p (String c s) = true.
Proof. intros p c s H. cbn [contains]. rewrite H. apply orb_true_r. Qed.

Lemma replace_first_absent : forall old new s,
  contains old s = false -> replace_first old new s = s.
Proof.
  intros old new. induction s as [|c s IH]; intro H.
  - cbn [replace_first]. now rewrite (contains_head _ _ H).
  - cbn [replace_first]. rewrite (contains_head _ _ H).
    f_equal. apply IH. exact (contains_tail _ _ _ H).
Qed.

Lemma contains_replace_first : forall sub old new s,
  contains sub new = true -> contains old s = true ->
  contains sub (replace_first old new s) = true.
Proof.
  intros sub old new s Hnew. induction s as [|c s IH]; intro H.
  - cbn [contains] in H. rewrite orb_false_r in H.
    cbn [replace_first]. rewrite H. now apply contains_append.
  - cbn [replace_first]. destruct (startswith old (String c s)) eqn:E.
    + now apply contains_append.
    + cbn [contains] in H. rewrite E in H. cbn [orb] in H.
      apply contains_cons. now apply IH.
Qed.

(** Normalizing twice is normalizing once: after the first call the text
    either holds the namespace declaration or has no [<svg] to put it in. *)
Theorem normalize_namespaces_idempotent :
  forall content,
    _normalize_namespaces (_normalize_namespaces content)
    = _normalize_namespaces content.
Proof.
  intro content. unfold _normalize_namespaces at 2 3.
  destruct (contains SVG_XMLNS content) eqn:E; cbn [negb].
  - unfold _normalize_namespaces. now rewrite E.
  - destruct (contains "<svg" content) eqn:Esvg.
    + unfold _normalize_namespaces.
      rewrite (contains_replace_first SVG_XMLNS "<svg" ("<svg " +++ SVG_XMLNS)
                 content); [reflexivity | reflexivity | exact Esvg].
    + rewrite (replace_first_absent _ _ _ Esvg).
      unfold _normalize_namespaces. rewrite E. cbn [negb].
      apply replace_first_absent. exact Esvg.
Qed.

(** *** Namespaced names *)

Lemma split_no_separator : forall sep s,
  contains (String sep EmptyString) s = false -> split sep s = [s].
Proof.
  intros sep. induction s as [|c s IH]; intro H; [reflexivity|].
  cbn [split]. cbn [contains startswith] in H.
  apply orb_false_iff in H. destruct H as [H1 H2].
  rewrite andb_true_r in H1. rewrite Ascii.eqb_sym, H1.
  now rewrite (IH H2).
Qed.

Lemma split_nonempty : forall sep s, split sep s <> [].
Proof.
  intros sep [|c s]; cbn [split]; [discriminate|].
  destruct (Ascii.eqb c sep); [discriminate|].
  destruct (split sep s); discriminate.
Qed.

Lemma last_cons_nonempty : forall (A : Type) (x : A) l d,
  l <> [] -> last (x :: l) d = last l d.
Proof. intros A x [|y l] d H; [contradiction | reflexivity]. Qed.

Lemma last_split_append : forall sep p s,
  last (split sep (p +++ String sep s)) EmptyString
  = last (split sep s) EmptyString.
Proof.
  intros sep. induction p as [|c p IH]; intro s.
  - cbn [String.append split]. rewrite Ascii.eqb_refl.
    apply last_cons_nonempty. apply split_nonempty.
  - change (String c p +++ String sep s) with (String c (p +++ String sep s)).
    cbn [split]. destruct (Ascii.eqb c sep).
    + rewrite last_cons_nonempty by apply split_nonempty. apply IH.
    + specialize (IH s).
      destruct (split sep (p +++ String sep s)) as [|h t] eqn:E;
        [now apply split_nonempty in E|].
      destruct t as [|h' t'].
      * cbn [last] in IH.
        (* the separator is in the text, so there are two pieces at least *)
        exfalso. clear IH.
        assert (Hlen : forall q, 2 <= List.length (split sep (q +++ String sep s))).
        { induction q as [|d q IHq].
          - cbn [String.append split]. rewrite Ascii.eqb_refl.
            pose proof (split_nonempty sep s).
            destruct (split sep s); [contradiction | cbn; lia].
          - change (String d q +++ String sep s)
              with (String d (q +++ String sep s)).
            cbn [split]. destruct (Ascii.eqb d sep); [cbn; lia|].
            destruct (split sep (q +++ String sep s)); cbn in *; lia. }
        specialize (Hlen p). rewrite E in Hlen. cbn in Hlen. lia.
      * exact IH.
Qed.

Lemma contains_separator_append : forall sep p s,
  contains (String sep EmptyString) (p +++ String sep s) = true.
Proof.
  intros sep. induction p as [|c p IH]; intro s.
  - cbn. now rewrite Ascii.eqb_refl.
  - change (String c p +++ String sep s) with (String c (p +++ String sep s)).
    apply contains_cons. apply IH.
Qed.

(** The name tested against the lists is the part after the last closing
    brace: an element or attribute in any namespace is treated by its local
    name, so that a namespaced element whose local name is not allowed is
    removed like the bare one. *)
Theorem strip_namespace_local_name :
  forall uri local attrs tx tl cs,
    contains "}" local = false ->
    strip_namespace ("{" +++ uri +++ "}" +++ local) = local
    /\ strip_namespace local = local
    /\ allowed (mkElement ("{" +++ uri +++ "}" +++ local) attrs tx tl cs)
       = allowed (mkElement local attrs tx tl cs).
Proof.
  intros uri local attrs tx tl cs H.
  assert (H1 : strip_namespace ("{" +++ uri +++ "}" +++ local) = local).
  { unfold strip_namespace.
    change ("{" +++ uri +++ "}" +++ local)
      with (String "{" (uri +++ String "}" local)).
    rewrite (contains_cons "}" "{" _ (contains_separator_append "}" uri local)).
    change (String "{" (uri +++ String "}" local))
      with (String "{" uri +++ String "}" local).
    rewrite last_split_append, (split_no_separator "}" local H).
    reflexivity. }
  assert (H2 : strip_namespace local = local)
    by (unfold strip_namespace; now rewrite H).
  split; [exact H1|]. split; [exact H2|].
  unfold allowed. cbn [tag]. now rewrite H1, H2.
Qed.

Lemma strip_namespace_local_name_witness :
  contains "}" "script" = false
  /\ strip_namespace ("{" +++ "http://www.w3.org/2000/svg" +++ "}" +++ "script")
     = "script"
  /\ allowed (mkElement ("{" +++ "http://www.w3.org/2000/svg" +++ "}" +++ "script")
                [] None None []) = false.
Proof.
  assert (H : contains "}" "script" = false) by reflexivity.
  destruct (strip_namespace_local_name "http://www.w3.org/2000/svg" "script"
              [] None None [] H) as [H1 [_ H3]].
  split; [exact H|]. split; [exact H1|].
  rewrite H3. reflexivity.
Defined.

(** *** The errors of [sanitize_svg] *)

(** [sanitize_svg] raises one of three messages: the first for an input
    that is empty after stripping, the second for one that starts with
    neither [<svg] nor [<?xml], the third, carrying the parser's message,
    when the normalized text does not parse; the checks are made in this
    order. *)
Theorem sanitize_svg_error_messages :
  forall (fromstring : string -> ParseResult) (tostring : Element -> string)
         (s msg : string),
    sanitize_svg fromstring tostring s = SVGSanitizationError msg <->
    (strip s = EmptyString /\ msg = "Empty SVG content")
    \/ (strip s <> EmptyString
        /\ startswith "<svg" (strip s) = false
        /\ startswith "<?xml" (strip s) = false
        /\ msg = "Content does not appear to be SVG")
    \/ (strip s <> EmptyString
        /\ (startswith "<svg" (strip s) = true
            \/ startswith "<?xml" (strip s) = true)
        /\ exists e, fromstring (_normalize_namespaces (strip s)) = ParseError e
                     /\ msg = "Failed to parse SVG: " +++ e).
Proof.
  intros fromstring tostring s msg. unfold sanitize_svg.
  assert (Hblank : negb (truthy s) || negb (truthy (strip s))
                   = negb (truthy (strip s))).
  { destruct s as [|c s]; [reflexivity|]. reflexivity. }
  rewrite Hblank.
  destruct (strip s) as [|c0 r0] eqn:Es; cbn [truthy negb].
  - split.
    + intro H. injection H as <-. left. split; reflexivity.
    + intros [[_ ->]|[[H _]|[H _]]]; [reflexivity | now contradiction H
                                                  | now contradiction H].
  - assert (Hne : String c0 r0 <> EmptyString) by discriminate.
    destruct (startswith "<svg" (String c0 r0)) eqn:Hsvg;
      destruct (startswith "<?xml" (String c0 r0)) eqn:Hxml; cbn [negb andb].
    1-3: destruct (fromstring (_normalize_namespaces (String c0 r0)))
           as [root|e] eqn:Hp.
    1, 3, 5:
      (split; [discriminate|];
       intros [[H _]|[[_ [H1 [H2 _]]]|[_ [_ [e' [He' _]]]]]]; discriminate).
    1-3:
      (split;
       [ intro H; injection H as <-; right; right;
         split; [exact Hne|]; split; [auto|]; exists e; split; reflexivity
       | intros [[H _]|[[_ [H1 [H2 _]]]|[_ [_ [e' [He' ->]]]]]];
         try discriminate; injection He' as <-; reflexivity ]).
    split.
    + intro H. injection H as <-. right. left. repeat split; auto.
    + intros [[H _]|[[_ [_ [_ ->]]]|[_ [[H|H] _]]]]; try discriminate.
      reflexivity.
Qed.

(** A text that [validate_svg] of main.py accepts passes the first two
    checks of [sanitize_svg]: it is sanitized, or rejected by the parser. *)
Theorem validate_svg_passes_sanitizer_checks :
  forall (fromstring : string -> ParseResult) (tostring : Element -> string)
         (svg : string),
    Main.check_valid (Main.validate_svg svg) = true ->
    startswith "<svg" (strip svg) = true
    /\ contains "</svg>" svg = true
    /\ ((exists root,
           fromstring (_normalize_namespaces (strip svg)) = Parsed root
           /\ sanitize_svg fromstring tostring svg
              = Sanitized (tostring (_sanitize_element root)))
        \/ (exists e,
              fromstring (_normalize_namespaces (strip svg)) = ParseError e
              /\ sanitize_svg fromstring tostring svg
                 = SVGSanitizationError ("Failed to parse SVG: " +++ e))).
Proof.
  intros fromstring tostring svg H. unfold Main.validate_svg in H.
  destruct (startswith "<svg" (strip svg)) eqn:Hsvg; [|discriminate].
  destruct (contains "</svg>" svg) eqn:Hclose; [|discriminate].
  split; [reflexivity|]. split; [reflexivity|].
  assert (Hx : startswith "<?xml" (strip svg) = false).
  { destruct (strip svg) as [|a [|b r]]; cbn [startswith] in *;
      try discriminate; destruct (Ascii.eqb "<" a); cbn [andb] in *;
      try discriminate; try reflexivity.
    destruct (Ascii.eqb "s" b) eqn:E; [|discriminate].
    apply Ascii.eqb_eq in E. subst b. reflexivity. }
  unfold sanitize_svg.
  assert (Hs : truthy (strip svg) = true)
    by (eapply startswith_truthy; [|exact Hsvg]; reflexivity).
  rewrite Hs, (strip_truthy _ Hs), Hsvg, Hx. cbn [negb orb andb].
  destruct (fromstring (_normalize_namespaces (strip svg))) as [root|e].
  - left. exists root. split; reflexivity.
  - right. exists e. split; reflexivity.
Qed.

Lemma validate_svg_passes_sanitizer_checks_witness :
  Main.check_valid (Main.validate_svg "<svg></svg>") = true
  /\ sanitize_svg ETCodec.fromstring ETCodec.tostring "<svg></svg>"
     = Sanitized empty_svg_output
  /\ startswith "<svg" (strip "<svg></svg>") = true.
Proof.
  assert (H : Main.check_valid (Main.validate_svg "<svg></svg>") = true)
    by reflexivity.
  split; [exact H|]. split; [vm_compute; reflexivity|].
  exact (proj1 (validate_svg_passes_sanitizer_checks ETCodec.fromstring
                  ETCodec.tostring "<svg></svg>" H)).
Defined.

End SanitizerMore.

(* ================================================================== *)
(** * Further properties of the query generator *)
(* ================================================================== *)

Module QueryGeneratorMore.
Import PyStr PyNum QueryGenerator Rag RagService QueryProps.
Import QueryGeneratorClaims.

(** The filter holds the equality conditions of the facets that are set
    (a facet that is [None] or the empty string is not set), in the order
    type, theme, shape: there is no filter when none is set, the bare
    condition when one is set, and a conjunction of two or three conditions
    otherwise. *)
Theorem generate_filter_from_config_conditions :
  forall logo_type theme shape : option string,
    let w := generate_filter_from_config logo_type theme shape in
    conditions_of w = facet_conditions logo_type theme shape
    /\ (w = None <->
        is_set logo_type = false /\ is_set theme = false
        /\ is_set shape = false)
    /\ match w with
       | Some (And cs) => 2 <= List.length cs <= 3
       | _ => List.length (facet_conditions logo_type theme shape) <= 1
       end.
Proof.
  intros logo_type theme shape.
  unfold generate_filter_from_config, facet_conditions.
  destruct (is_set logo_type), (is_set theme), (is_set shape); cbn;
    (split; [reflexivity|]); (split; [|lia]);
    split; try discriminate; try (intros [? [? ?]]; discriminate); auto.
Qed.

(** The listing route of admin/management.py builds its filter by hand; it
    is the filter [generate_filter_from_config] gives for the same facets. *)
Theorem list_logos_filter_agrees :
  forall logo_type theme shape : option string,
    list_logos_filter logo_type theme shape
    = generate_filter_from_config logo_type theme shape.
Proof.
  intros logo_type theme shape.
  unfold list_logos_filter, generate_filter_from_config.
  destruct (is_set logo_type), (is_set theme), (is_set shape); reflexivity.
Qed.

(** [config_to_query] joins the phrases of the specification. *)
Lemma config_to_query_phrases :
  forall logo_type theme shape primary_color accent_color text description
         industry : option string,
    config_to_query logo_type theme shape primary_color accent_color text
      description industry
    = spec_assemble
        (spec_phrases logo_type theme shape primary_color accent_color text
           description industry).
Proof.
  intros logo_type theme shape primary_color accent_color text description
    industry.
  unfold config_to_query, spec_phrases. cbv zeta.
  rewrite assemble_step. f_equal.
  rewrite !color_step, colors_step, !facet_step, !optional_step.
  cbn [app]. rewrite <- !app_assoc.
  destruct (spec_color "primary color " primary_color
            ++ spec_color "accent color " accent_color); reflexivity.
Qed.

Lemma truthy_append_l : forall a b, truthy a = true -> truthy (a +++ b) = true.
Proof. intros [|c a] b H; [discriminate | reflexivity]. Qed.

Lemma truthy_append_r : forall a b, truthy b = true -> truthy (a +++ b) = true.
Proof. intros [|c a] b H; [exact H | reflexivity]. Qed.

Lemma truthy_join : forall sep x r, truthy x = true -> truthy (join sep (x :: r)) = true.
Proof.
  intros sep x [|y r] H; cbn [join]; [exact H | now apply truthy_append_l].
Qed.

Lemma startswith_self_append : forall a b, startswith a (a +++ b) = true.
Proof.
  induction a as [|c a IH]; intro b; [reflexivity|].
  cbn. now rewrite Ascii.eqb_refl, IH.
Qed.

Lemma startswith_join : forall sep x r, startswith x (join sep (x :: r)) = true.
Proof.
  intros sep x [|y r]; cbn [join]; [|apply startswith_self_append].
  rewrite <- (QueryGeneratorClaims.append_empty x) at 2.
  apply startswith_self_append.
Qed.

Lemma startswith_longer : forall p a b,
  startswith p a = true -> startswith p (a +++ b) = true.
Proof.
  induction p as [|c p IH]; intros [|d a] b H; cbn in *; try reflexivity;
    try discriminate.
  apply andb_true_iff in H. destruct H as [H1 H2].
  rewrite H1. cbn. now apply IH.
Qed.

(** The assembled text starts with the first phrase. *)
Lemma startswith_assemble : forall x r,
  startswith x (spec_assemble (x :: r)) = true.
Proof.
  intros x r. unfold spec_assemble.
  destruct (skipn 3 (x :: r)) as [|y t] eqn:E.
  - apply startswith_join.
  - cbn [firstn]. destruct r as [|b [|c r']]; try discriminate E.
    cbn [firstn join]. apply startswith_longer. apply startswith_self_append.
Qed.

Lemma truthy_startswith : forall x s,
  truthy x = true -> startswith x s = true -> truthy s = true.
Proof. intros [|a x] [|b s] H1 H2; cbn in *; congruence. Qed.

Lemma spec_facet_truthy : forall table suffix facet,
  truthy suffix = true ->
  (forall k v, dict_get k table = Some v -> truthy v = true) ->
  Forall (fun p => truthy p = true) (spec_facet table suffix facet).
Proof.
  intros table suffix [v|] Hs Ht; cbn; [|constructor].
  destruct (truthy v); [|constructor].
  constructor; [|constructor].
  destruct (dict_get v table) as [long|] eqn:E; [exact (Ht v long E)|].
  now apply truthy_append_r.
Qed.

Lemma table_truthy : forall (table : list (string * string)),
  forallb (fun kv => truthy (snd kv)) table = true ->
  forall k v, dict_get k table = Some v -> truthy v = true.
Proof.
  intros table. induction table as [|[k' v'] t IH]; intros H k v E;
    [discriminate|].
  cbn [forallb snd] in H. apply andb_true_iff in H. destruct H as [H1 H2].
  cbn [dict_get] in E. destruct (String.eqb k k').
  - injection E as <-. exact H1.
  - exact (IH H2 k v E).
Qed.

(** Every phrase is a non-empty text. *)
Lemma spec_phrases_truthy :
  forall logo_type theme shape primary_color accent_color text description
         industry : option string,
    Forall (fun p => truthy p = true)
      (spec_phrases logo_type theme shape primary_color accent_color text
         description industry).
Proof.
  intros logo_type theme shape primary_color accent_color text description
    industry.
  unfold spec_phrases.
  repeat (apply Forall_app; split).
  - unfold is_set, val. destruct description as [d|]; [|constructor].
    destruct (truthy d) eqn:E; constructor; [exact E | constructor].
  - apply spec_facet_truthy; [reflexivity | now apply table_truthy].
  - apply spec_facet_truthy; [reflexivity | now apply table_truthy].
  - apply spec_facet_truthy; [reflexivity | now apply table_truthy].
  - destruct (spec_color "primary color " primary_color
              ++ spec_color "accent color " accent_color) as [|c cs] eqn:E;
      [constructor|].
    constructor; [|constructor]. apply truthy_join.
    unfold spec_color in E.
    destruct primary_color as [p|]; [destruct (truthy p)|];
      (destruct accent_color as [a|]; [destruct (truthy a)|]);
      cbn [app] in E; try discriminate E; injection E as <- _; reflexivity.
  - destruct (_ && _); constructor; [reflexivity | constructor].
  - destruct (is_set industry); constructor; [reflexivity | constructor].
Qed.

(** The query text handed to the store is never empty, whatever the
    configuration. *)
Theorem config_to_query_never_empty :
  forall logo_type theme shape primary_color accent_color text description
         industry : option string,
    truthy (config_to_query logo_type theme shape primary_color accent_color
              text description industry) = true.
Proof.
  intros logo_type theme shape primary_color accent_color text description
    industry.
  rewrite config_to_query_phrases.
  pose proof (spec_phrases_truthy logo_type theme shape primary_color
                accent_color text description industry) as H.
  destruct (spec_phrases _ _ _ _ _ _ _ _) as [|x r]; [reflexivity|].
  apply (truthy_startswith x); [|apply startswith_assemble].
  now inversion H.
Qed.

(** A free-text description, when there is one, opens the query. *)
Theorem config_to_query_starts_with_description :
  forall (logo_type theme shape primary_color accent_color text industry
          : option string) (description : string),
    description <> EmptyString ->
    startswith description
      (config_to_query logo_type theme shape primary_color accent_color text
         (Some description) industry) = true.
Proof.
  intros logo_type theme shape primary_color accent_color text industry
    description H.
  rewrite config_to_query_phrases. unfold spec_phrases.
  assert (Hd : is_set (Some description) = true)
    by (destruct description; [contradiction | reflexivity]).
  rewrite Hd. cbn [val app]. apply startswith_assemble.
Qed.

Lemma config_to_query_starts_with_description_witness :
  "a fox" <> EmptyString
  /\ config_to_query (Some "mascot") None None (Some "#ff0000") None None
       (Some "a fox") (Some "pet")
     = "a fox with character or mascot-based logo with personality"
       +++ " with primary color red. suitable for pet industry"
  /\ startswith "a fox"
       (config_to_query (Some "mascot") None None (Some "#ff0000") None None
          (Some "a fox") (Some "pet")) = true.
Proof.
  assert (H : "a fox" <> EmptyString) by discriminate.
  split; [exact H|]. split; [vm_compute; reflexivity|].
  exact (config_to_query_starts_with_description (Some "mascot") None None
           (Some "#ff0000") None None (Some "pet") "a fox" H).
Defined.

Lemma dict_get_in : forall k (d : list (string * string)) v,
  dict_get k d = Some v -> In v (map snd d).
Proof.
  intros k d v. induction d as [|[k' v'] d IH]; intro H; [discriminate|].
  cbn [dict_get] in H. destruct (String.eqb k k').
  - injection H as <-. now left.
  - right. now apply IH.
Qed.

Lemma describe_rgb_vocabulary : forall r g b,
  In (describe_rgb r g b) rgb_descriptions.
Proof.
  intros r g b. unfold describe_rgb, brightness_term_of, hue_of, int_gt_float.
  repeat match goal with
         | |- context [if ?c then _ else _] => destruct c
         end;
    vm_compute; repeat (first [left; reflexivity | right]).
Qed.

(** A colour is described by a name of the table, by one of the thirty-one
    descriptions made of a brightness word and a hue, or by the value
    itself: nothing else is ever put into the query. *)
Theorem describe_color_vocabulary :
  forall color,
    In (_describe_color color)
       (map snd color_names ++ rgb_descriptions ++ [color])
    /\ List.length rgb_descriptions = 31.
Proof.
  intro color. split; [|reflexivity]. unfold _describe_color.
  destruct (dict_get (lower color) color_names) as [name|] eqn:E.
  - apply in_or_app. left. exact (dict_get_in _ _ _ E).
  - apply in_or_app. right. apply in_or_app.
    destruct (startswith "#" color && (String.length color =? 7)%nat);
      [|right; now left].
    unfold _hex_to_description.
    destruct (int16 (substring 1 2 color)) as [r|]; [|right; now left].
    destruct (int16 (substring 3 2 color)) as [g|]; [|right; now left].
    destruct (int16 (substring 5 2 color)) as [b|]; [|right; now left].
    left. apply describe_rgb_vocabulary.
Qed.

End QueryGeneratorMore.

(* ================================================================== *)
(** * Further properties of the similarity query *)
(* ================================================================== *)

Module RagMore.
Import PyStr PyNum QueryGenerator Rag RagSpec RagService RagProps.
Import RagClaims.

(** What is written to the store is read back unchanged: the metadata dict
    made by [model_dump(exclude_none=True)] is accepted by the constructor
    and gives the same [LogoMetadata]. *)
Theorem metadata_round_trip :
  forall m : LogoMetadata,
    LogoMetadata_of (model_dump_exclude_none m) = Ret m.
Proof.
  intros [i n d t th sh pc ac tx su ca].
  destruct n, th, sh, pc, ac, tx, su, ca; reflexivity.
Qed.

Lemma similar_logo_at_id : forall results i logo_id s,
  similar_logo_at results i logo_id = Ret s -> sl_id s = logo_id.
Proof.
  intros results i logo_id s H. unfold similar_logo_at, bind in H.
  destruct (match metadatas results with
            | Some (row :: _) => index row i
            | _ => Ret []
            end); [|discriminate].
  destruct (match distances results with
            | Some (row :: _) => index row i
            | _ => Ret (of_int 0)
            end); [|discriminate].
  destruct (score_of _); [|discriminate].
  destruct (LogoMetadata_of _); [|discriminate].
  injection H as <-. reflexivity.
Qed.

Lemma similar_logos_from_ids : forall results row i acc l,
  similar_logos_from results i row acc = Ret l ->
  map sl_id l = map sl_id acc ++ row.
Proof.
  intros results. induction row as [|id row IH]; intros i acc l H.
  - cbn in H. injection H as <-. now rewrite app_nil_r.
  - cbn [similar_logos_from] in H. unfold bind in H.
    destruct (similar_logo_at results i id) as [s|] eqn:E; [|discriminate].
    apply IH in H. rewrite H, map_app. cbn [map].
    rewrite (similar_logo_at_id _ _ _ _ E), <- app_assoc. reflexivity.
Qed.

(** The results are the hits of the store, one for one and in the store's
    order: the ids of the results are the ids of the first row of the
    answer. *)
Theorem similar_logos_keep_ids :
  forall (results : query_result) (l : list SimilarLogo),
    similar_logos_of results = Ret l ->
    map sl_id l = hd [] (ids results)
    /\ List.length l = List.length (hd [] (ids results)).
Proof.
  intros results l H.
  assert (Hm : map sl_id l = hd [] (ids results)).
  { unfold similar_logos_of in H.
    destruct (ids results) as [|[|id row] rest].
    - injection H as <-. reflexivity.
    - injection H as <-. reflexivity.
    - apply similar_logos_from_ids in H. exact H. }
  split; [exact Hm|]. rewrite <- Hm. now rewrite length_map.
Qed.

Lemma similar_logos_keep_ids_witness :
  (exists s, similar_logos_of one_hit = Ret [s]
             /\ sl_id s = "l1" /\ sl_score s = f0_5
             /\ sl_metadata s = acme_metadata)
  /\ hd [] (ids one_hit) = ["l1"].
Proof.
  assert (H : similar_logos_of one_hit
              = Ret [ {| sl_id := "l1"; sl_score := f0_5;
                         sl_metadata := acme_metadata; sl_svg_url := None |} ])
    by (vm_compute; reflexivity).
  split; [eexists; split; [exact H|]; repeat split|].
  rewrite <- (proj1 (similar_logos_keep_ids one_hit _ H)). reflexivity.
Defined.

Section Store.
Variable collection : Type.
Variable get_collection : RAGConfig -> Res collection.
Variable collection_query :
  collection -> string -> Z -> option where_clause -> Res query_result.
Variable collection_count : collection -> Res Z.

Lemma similar_logos_from_raises : forall results row i acc j id e,
  nth_error row j = Some id ->
  similar_logo_at results (i + j) id = Raise e ->
  exists e', similar_logos_from results i row acc = Raise e'.
Proof.
  intros results. induction row as [|x row IH]; intros i acc j id e Hj He.
  - destruct j; discriminate.
  - cbn [similar_logos_from]. unfold bind.
    destruct j as [|j].
    + cbn in Hj. injection Hj as ->. rewrite Nat.add_0_r in He.
      rewrite He. eexists. reflexivity.
    + destruct (similar_logo_at results i x) as [s|e0];
        [|eexists; reflexivity].
      cbn in Hj. apply (IH (S i) (acc ++ [s]) j id e Hj).
      now rewrite <- Nat.add_succ_comm in He.
Qed.

End Store.

(** An empty answer of the store is not an error: with credentials, when
    the store answers without any hit, the response is not degraded, has no
    error and no results, and names the query that was used. *)
Theorem find_similar_logos_empty_store :
  forall (collection : Type)
         (get_collection : RAGConfig -> Res collection)
         (collection_query :
            collection -> string -> Z -> option where_clause -> Res query_result)
         (env : environ) (request : RAGQueryRequest)
         (coll : collection) (answer : query_result),
    is_rag_configured env = true ->
    get_collection (get_rag_config env) = Ret coll ->
    collection_query coll (query_text_of request) (rq_n_results request)
      (filter_of request) = Ret answer ->
    hd [] (ids answer) = [] ->
    find_similar_logos get_collection collection_query env request
    = Ret {| success := true; results := [];
             query_used := Some (query_text_of request);
             degraded := false; error := None |}.
Proof.
  intros collection get_collection collection_query env request coll answer
    Hc Hg Hq Hids.
  rewrite (find_similar_logos_configured _ get_collection collection_query
             env request Hc).
  unfold query_by_text, bind. rewrite Hg, Hq.
  unfold similar_logos_of.
  destruct (ids answer) as [|[|id row] rest]; try reflexivity.
  discriminate Hids.
Qed.

Lemma find_similar_logos_empty_store_witness :
  is_rag_configured credentials = true
  /\ hd [] (ids no_hit) = []
  /\ find_similar_logos reachable (answer no_hit) credentials wordmark_request
     = Ret {| success := true; results := [];
              query_used := Some (query_text_of wordmark_request);
              degraded := false; error := None |}.
Proof.
  split; [reflexivity|]. split; [reflexivity|].
  apply (find_similar_logos_empty_store unit reachable (answer no_hit)
           credentials wordmark_request tt no_hit); reflexivity.
Defined.

(** There are no partial results: when one hit of the answer cannot be
    turned into a result (its metadata or distance is missing, or the
    metadata lacks a required field), the response is the degraded one with
    no results at all. *)
Theorem find_similar_logos_no_partial_results :
  forall (collection : Type)
         (get_collection : RAGConfig -> Res collection)
         (collection_query :
            collection -> string -> Z -> option where_clause -> Res query_result)
         (env : environ) (request : RAGQueryRequest)
         (coll : collection) (answer : query_result)
         (j : nat) (id e : string),
    is_rag_configured env = true ->
    get_collection (get_rag_config env) = Ret coll ->
    collection_query coll (query_text_of request) (rq_n_results request)
      (filter_of request) = Ret answer ->
    nth_error (hd [] (ids answer)) j = Some id ->
    similar_logo_at answer j id = Raise e ->
    exists e',
      find_similar_logos get_collection collection_query env request
      = Ret (failed_response e').
Proof.
  intros collection get_collection collection_query env request coll answer
    j id e Hc Hg Hq Hj He.
  rewrite (find_similar_logos_configured _ get_collection collection_query
             env request Hc).
  unfold query_by_text, bind. rewrite Hg, Hq.
  unfold similar_logos_of.
  destruct (ids answer) as [|[|x row] rest]; cbn [hd] in Hj;
    try (destruct j; discriminate Hj).
  destruct (similar_logos_from_raises answer (x :: row) 0 [] j id e Hj He)
    as [e' He'].
  rewrite He'. exists e'. reflexivity.
Qed.

Lemma find_similar_logos_no_partial_results_witness :
  nth_error (hd [] (ids bare_hit)) 0 = Some "l1"
  /\ similar_logo_at bare_hit 0 "l1" = Raise "validation error for LogoMetadata"
  /\ exists e',
       find_similar_logos reachable (answer bare_hit) credentials
         wordmark_request
       = Ret (failed_response e').
Proof.
  assert (Hj : nth_error (hd [] (ids bare_hit)) 0 = Some "l1") by reflexivity.
  assert (He : similar_logo_at bare_hit 0 "l1"
               = Raise "validation error for LogoMetadata")
    by (vm_compute; reflexivity).
  split; [exact Hj|]. split; [exact He|].
  apply (find_similar_logos_no_partial_results unit reachable (answer bare_hit)
           credentials wordmark_request tt bare_hit 0 "l1" _
           eq_refl eq_refl eq_refl Hj He).
Defined.

(** [get_logo_count] always returns a number: the store's count when there
    are credentials and the store answers, and 0 without credentials or
    when the store raises; so a status that says [configured = false]
    reports no logos. *)
Theorem get_logo_count_never_raises :
  forall (collection : Type)
         (get_collection : RAGConfig -> Res collection)
         (collection_count : collection -> Res Z)
         (env : environ),
    exists n,
      get_logo_count collection get_collection collection_count env = Ret n
      /\ (is_rag_configured env = false -> n = 0%Z)
      /\ (forall e, count collection get_collection collection_count (get_rag_config env)
                    = Raise e -> n = 0%Z)
      /\ (forall k, is_rag_configured env = true ->
                    count collection get_collection collection_count (get_rag_config env)
                    = Ret k -> n = k)
      /\ get_rag_status collection get_collection collection_count env
         = Ret {| configured := is_rag_configured env; logo_count := n |}.
Proof.
  intros collection get_collection collection_count env.
  unfold get_rag_status, get_logo_count.
  destruct (is_rag_configured env); cbn [negb].
  - unfold try_except.
    destruct (count collection get_collection collection_count (get_rag_config env))
      as [k|e].
    + exists k. repeat split; try discriminate.
      intros k' _ H. now injection H.
    + exists 0%Z. repeat split; try discriminate.
  - exists 0%Z. repeat split; discriminate.
Qed.

Section Format.
Variable format_percent : float -> string.

Lemma format_loop_head : forall logos i p ps,
  exists r, format_loop format_percent i logos (p :: ps) = p :: r
            /\ (logos <> [] -> r <> []).
Proof.
  induction logos as [|logo rest IH]; intros i p ps.
  - exists ps. split; [reflexivity | contradiction].
  - cbn [format_loop app].
    destruct (IH (S i) p (ps ++ logo_parts format_percent i logo)) as [r [Hr _]].
    exists r. split; [exact Hr|]. intros _ ->.
    clear IH. revert Hr. generalize (S i).
    assert (Hlen : forall l n q,
              List.length q <= List.length (format_loop format_percent n l q)).
    { induction l as [|x l IHl]; intros n q; [apply le_n|].
      cbn [format_loop]. specialize (IHl (S n) (q ++ logo_parts format_percent n x)).
      rewrite length_app in IHl. lia. }
    intros n Hr. specialize (Hlen rest n (p :: ps ++ logo_parts format_percent i logo)).
    rewrite Hr in Hlen. cbn in Hlen. rewrite length_app in Hlen.
    unfold logo_parts in Hlen. cbn in Hlen. lia.
Qed.

End Format.

(** The context for the prompt is empty exactly when there are no similar
    logos; otherwise it opens with the heading. *)
Theorem format_similar_logos_empty_iff :
  forall (format_percent : float -> string) (logos : list SimilarLogo),
    (format_similar_logos_for_context format_percent logos = EmptyString
     <-> logos = [])
    /\ (logos = []
        \/ startswith "Here are some similar logos for inspiration:"
             (format_similar_logos_for_context format_percent logos) = true).
Proof.
  intros format_percent logos. destruct logos as [|logo rest].
  - split; [split; reflexivity | now left].
  - assert (H : startswith "Here are some similar logos for inspiration:"
                  (format_similar_logos_for_context format_percent
                     (logo :: rest)) = true).
    { unfold format_similar_logos_for_context.
      destruct (format_loop_head format_percent (logo :: rest) 1
                  ("Here are some similar logos for inspiration:" +++ nl) [])
        as [r [Hr Hne]].
      rewrite Hr. destruct r as [|y r']; [now contradiction Hne|].
      cbn [join]. reflexivity. }
    split; [|now right]. split; [|discriminate].
    intro E. rewrite E in H. discriminate H.
Qed.

End RagMore.

(* ================================================================== *)
(** * The admin key check *)
(* ================================================================== *)

Module AuthMore.
Import PyStr QueryGenerator Rag Auth.

(** [require_admin_key] returns exactly when the header holds a non-empty
    key that is equal to the configured [ADMIN_API_KEY], and it returns that
    key. A missing or empty header is answered with 401 before the
    environment is read; with a header, a missing or empty [ADMIN_API_KEY]
    is a [RuntimeError], and any other key is answered with 403. *)
Theorem require_admin_key_accepts_only_the_configured_key :
  forall (env : environ) (x_admin_key : option string),
    (forall k, require_admin_key env x_admin_key = Return k <->
               x_admin_key = Some k /\ k <> EmptyString
               /\ env "ADMIN_API_KEY" = Some k)
    /\ (is_set x_admin_key = false <->
        require_admin_key env x_admin_key
        = HTTPException 401 "Missing X-Admin-Key header")
    /\ (is_set x_admin_key = true /\ is_set (env "ADMIN_API_KEY") = false <->
        require_admin_key env x_admin_key
        = RuntimeError "ADMIN_API_KEY environment variable not set")
    /\ (is_set x_admin_key = true /\ is_set (env "ADMIN_API_KEY") = true
        /\ x_admin_key <> env "ADMIN_API_KEY" <->
        require_admin_key env x_admin_key
        = HTTPException 403 "Invalid admin API key").
Proof.
  intros env x_admin_key. unfold require_admin_key, get_admin_api_key.
  destruct x_admin_key as [[|c h]|]; cbn [is_set truthy negb val];
    [ | destruct (env "ADMIN_API_KEY") as [[|c' e]|] eqn:Ee;
        cbn [is_set truthy negb val];
        [ | destruct (String.eqb (String c h) (String c' e)) eqn:E;
            cbn [negb];
            [apply String.eqb_eq in E | apply String.eqb_neq in E] | ] | ];
    repeat split; intros; subst;
    repeat match goal with H : _ /\ _ |- _ => destruct H end;
    try discriminate; try congruence; try reflexivity; auto.
Qed.

End AuthMore.
